(** * The supporter monitor: peer records, state machine and coordinator

    A shallow embedding of [shared.py], [state_machine.py],
    [monitored_subjects.py], [supporter_adapter.py] and
    [supporter_monitor.py].

    Conventions of the embedding.
    - Time: [time.time()] is a parameter [now : Z] of every operation that
      reads the clock, counted in milliseconds, so the bounds of [shared.py]
      (given there in seconds) are multiplied by 1000.  One operation reads
      one clock value.
    - Objects: [MonitoredPeer] and [MonitoredSupporter] instances are mutable
      and shared between the registries and the rosters, so they live in two
      object stores and are named by their index ([ref]).  Python's [==] and
      [in] on them go through [__eq__], which compares the hashes of the
      identity tuples; the embedding compares the tuples.  A reference that
      was never allocated reads as an absent object.
    - Exceptions: fallible code runs in a state-and-exception monad; the state
      reached when the exception is raised is kept, as in Python.
    - Threads: one thread; the [RLock] is its recursion depth and a
      [threading.Timer] that was started is a count.
    - Left out: logging, the HTML rendering of [MonitorState], and the
      module-level alias [supported_peers] that
      [MonitoredSupporter.__init__] sets and nothing reads.
    - Names are those of the source; the coordinator's two bounds are
      [mon_is_alive_timeout] and [mon_peer_timeout] because the peer record
      has fields of the same names, and [peers] and [supporters] are the
      object stores. *)

From stdpp Require Import base list strings gmap.
From Stdlib Require Import ZArith Lia Sorted.

Open Scope Z_scope.

(** ** Exceptions and the state-and-exception monad *)

Inductive exn : Type :=
  | AssertionError
  | TypeError
  | KeyError.

Inductive result (S A : Type) : Type :=
  | Ok (a : A) (s : S)
  | Raise (e : exn) (s : S).

Arguments Ok {S A} a s.
Arguments Raise {S A} e s.

Definition M (S A : Type) : Type := S -> result S A.

Definition ret {S A} (a : A) : M S A := fun s => Ok a s.

Definition bind {S A B} (m : M S A) (k : A -> M S B) : M S B :=
  fun s => match m s with
           | Ok a s' => k a s'
           | Raise e s' => Raise e s'
           end.

Definition raise {S A} (e : exn) : M S A := fun s => Raise e s.

Definition get {S} : M S S := fun s => Ok s s.

Definition modify {S} (f : S -> S) : M S unit := fun s => Ok tt (f s).

(** [try: body finally: cleanup]: the cleanup runs on both exits and an
    exception of the body is raised again after it. *)
Definition try_finally {S A} (body : M S A) (cleanup : S -> S) : M S A :=
  fun s => match body s with
           | Ok a s' => Ok a (cleanup s')
           | Raise e s' => Raise e (cleanup s')
           end.

Definition final_state {S A} (r : result S A) : S :=
  match r with Ok _ s => s | Raise _ s => s end.

(** The value a call returns, if it returns, and the exception it raises,
    if it raises. *)
Definition value_of {S A} (r : result S A) : option A :=
  match r with Ok a _ => Some a | Raise _ _ => None end.

Definition exception_of {S A} (r : result S A) : option exn :=
  match r with Ok _ _ => None | Raise e _ => Some e end.

Declare Scope monad_scope.
Delimit Scope monad_scope with monad.
Notation "x ← y ; z" := (bind y (fun x => z))
  (at level 20, y at level 100, z at level 200, only parsing) : monad_scope.
Notation "x ;; z" := (bind x (fun _ => z))
  (at level 100, z at level 200, only parsing, right associativity) : monad_scope.
Open Scope monad_scope.

(** [for x in l: body x] *)
Fixpoint for_each {S A} (l : list A) (body : A -> M S unit) : M S unit :=
  match l with
  | [] => ret tt
  | x :: l' => body x ;; for_each l' body
  end.

(** ** shared.py *)

Inductive msg : Type :=
  | MSG_SUPPORT_REQUIRED
  | MSG_SUPPORT_NOT_NEEDED
  | MSG_PEER_SUPPORTED
  | MSG_PEER_REGISTERED.

Global Instance msg_eq_dec : EqDecision msg.
Proof. solve_decision. Defined.

Definition PEER_TIMEOUT_BOUND : Z := 5000.
Definition IS_ALIVE_TIMEOUT_BOUND : Z := 10000.
Definition PEER_REQUIRED_MSGS : Z := 4.
(** [PEER_REQUIRED_MSGS * (1 + 0.150)] seconds *)
Definition PEER_STATUS_APPROVAL_TIME : Z := PEER_REQUIRED_MSGS * (1000 + 150).
Definition PEER_REMOVAL_TIME : Z := 45000.

Definition PEER_TYPE_SEEDER : Z := 0.
Definition PEER_TYPE_LEECHER : Z := 1.
Definition PEER_TYPES : list Z := [PEER_TYPE_SEEDER; PEER_TYPE_LEECHER].

(** ** state_machine.py and monitored_subjects.py: the peer record

    The four state classes carry nothing but the back reference to their
    peer, so a state is a tag stored in the peer. *)

Inductive State : Type :=
  | DefaultState
  | WatchedState
  | StarvingState
  | SupportedState.

Global Instance State_eq_dec : EqDecision State.
Proof. solve_decision. Defined.

Record MonitoredPeer : Type := mkMonitoredPeer {
  _last_received_msg : option msg;
  _ts_last_received_msg : option Z;
  _is_alive_timeout : Z;
  _peer_timeout : Z;
  _state : State;
  _timeout_timer : option Z;
  _ts_list : list Z;
  _support_requests : Z;
  _id : string;
  _ip : string;
  _port : Z;
  _peer_type : Z
}.

(** [x or default] on an optional number: [None] and [0] are falsy. *)
Definition or_default (x : option Z) (d : Z) : Z :=
  match x with
  | Some v => if decide (v = 0) then d else v
  | None => d
  end.

Definition set_state (st : State) (m : MonitoredPeer) : MonitoredPeer :=
  mkMonitoredPeer (_last_received_msg m) (_ts_last_received_msg m)
    (_is_alive_timeout m) (_peer_timeout m) st (_timeout_timer m)
    (_ts_list m) (_support_requests m) (_id m) (_ip m) (_port m) (_peer_type m).

Definition reset_support_cycle (m : MonitoredPeer) : MonitoredPeer :=
  mkMonitoredPeer (_last_received_msg m) (_ts_last_received_msg m)
    (_is_alive_timeout m) (_peer_timeout m) (_state m) (_timeout_timer m)
    [] 0 (_id m) (_ip m) (_port m) (_peer_type m).

Definition increment_support_requests (m : MonitoredPeer) : MonitoredPeer :=
  mkMonitoredPeer (_last_received_msg m) (_ts_last_received_msg m)
    (_is_alive_timeout m) (_peer_timeout m) (_state m) (_timeout_timer m)
    (_ts_list m) (_support_requests m + 1) (_id m) (_ip m) (_port m) (_peer_type m).

Definition set_ts_list (l : list Z) (m : MonitoredPeer) : MonitoredPeer :=
  mkMonitoredPeer (_last_received_msg m) (_ts_last_received_msg m)
    (_is_alive_timeout m) (_peer_timeout m) (_state m) (_timeout_timer m)
    l (_support_requests m) (_id m) (_ip m) (_port m) (_peer_type m).

Definition set_timeout_timer (t : option Z) (m : MonitoredPeer) : MonitoredPeer :=
  mkMonitoredPeer (_last_received_msg m) (_ts_last_received_msg m)
    (_is_alive_timeout m) (_peer_timeout m) (_state m) t
    (_ts_list m) (_support_requests m) (_id m) (_ip m) (_port m) (_peer_type m).

Definition set_last_received (k : msg) (now : Z) (m : MonitoredPeer) : MonitoredPeer :=
  mkMonitoredPeer (Some k) (Some now)
    (_is_alive_timeout m) (_peer_timeout m) (_state m) (_timeout_timer m)
    (_ts_list m) (_support_requests m) (_id m) (_ip m) (_port m) (_peer_type m).

(** [MonitoredPeer.__init__]: the two assertions of [_set_port] and
    [set_peer_type] are the only ways to fail. *)
Definition MonitoredPeer_init (peer_id ip : string) (port peer_type : Z)
    (is_alive_timeout peer_timeout : option Z) : exn + MonitoredPeer :=
  if negb (1024 <=? port) then inl AssertionError
  else if negb (bool_decide (peer_type ∈ PEER_TYPES)) then inl AssertionError
  else inr (mkMonitoredPeer None None
              (or_default is_alive_timeout IS_ALIVE_TIMEOUT_BOUND)
              (or_default peer_timeout PEER_TIMEOUT_BOUND)
              DefaultState None [] 0 peer_id ip port peer_type).

(** [__hash__] and [__eq__]: the identity tuple (ID, IP, port). *)
Definition peer_key (m : MonitoredPeer) : string * string * Z :=
  (_id m, _ip m, _port m).

Definition get_ts_first_request (m : MonitoredPeer) : option Z := head (_ts_list m).
Definition get_ts_last_request (m : MonitoredPeer) : option Z := last (_ts_list m).

Definition timeout_timer_stopped (m : MonitoredPeer) : bool :=
  match _timeout_timer m with None => true | Some _ => false end.

Definition peer_timed_out (now : Z) (m : MonitoredPeer) : bool :=
  match _timeout_timer m with
  | None => false
  | Some t => _peer_timeout m <=? now - t
  end.

Definition peer_is_alive (now : Z) (m : MonitoredPeer) : bool :=
  match get_ts_last_request m with
  | Some t => now - t <? _is_alive_timeout m
  | None => true
  end.

Definition start_timeout_timer (now : Z) (m : MonitoredPeer) : MonitoredPeer :=
  match _timeout_timer m with
  | None => set_timeout_timer (Some now) m
  | Some _ => m
  end.

Definition stop_timeout_timer (m : MonitoredPeer) : MonitoredPeer :=
  set_timeout_timer None m.

Definition received_support_required_message (now : Z) (m : MonitoredPeer) : MonitoredPeer :=
  let m1 := stop_timeout_timer (increment_support_requests m) in
  let l := _ts_list m1 ++ [now] in
  if PEER_REQUIRED_MSGS <? Z.of_nat (length l)
  then set_ts_list (drop 1 l) m1
  else set_ts_list l m1.

Definition received_support_not_needed_message (now : Z) (m : MonitoredPeer) : MonitoredPeer :=
  start_timeout_timer now (reset_support_cycle m).

Definition received_peer_supported_message (m : MonitoredPeer) : MonitoredPeer := m.
Definition received_peer_registered_message (m : MonitoredPeer) : MonitoredPeer := m.

Definition msg_handler (now : Z) (k : msg) (m : MonitoredPeer) : MonitoredPeer :=
  match k with
  | MSG_PEER_SUPPORTED => received_peer_supported_message m
  | MSG_SUPPORT_NOT_NEEDED => received_support_not_needed_message now m
  | MSG_SUPPORT_REQUIRED => received_support_required_message now m
  | MSG_PEER_REGISTERED => received_peer_registered_message m
  end.

Definition support_aborted (m : MonitoredPeer) : MonitoredPeer :=
  set_state StarvingState m.

(** *** The transitions *)

Definition last_msg_is (k : msg) (m : MonitoredPeer) : bool :=
  bool_decide (_last_received_msg m = Some k).

Definition DefaultState_transition (m : MonitoredPeer) : MonitoredPeer :=
  if bool_decide (is_Some (get_ts_first_request m))
     && bool_decide (_support_requests m = 1)
  then set_state WatchedState m
  else m.

(** [last - first <= PEER_STATUS_APPROVAL_TIME]; on an empty window both
    timestamps are [None] and the subtraction is a [TypeError]. *)
Definition support_requests_are_within_approval_interval : M MonitoredPeer bool :=
  m ← get;
  match get_ts_last_request m, get_ts_first_request m with
  | Some l, Some f => ret (l - f <=? PEER_STATUS_APPROVAL_TIME)
  | _, _ => raise TypeError
  end.

Definition minimum_support_requests_reached (m : MonitoredPeer) : bool :=
  PEER_REQUIRED_MSGS <=? _support_requests m.

Definition WatchedState_transition (now : Z) : M MonitoredPeer unit :=
  m ← get;
  if negb (peer_is_alive now m) then
    modify (set_state DefaultState) ;; modify reset_support_cycle
  else if last_msg_is MSG_SUPPORT_NOT_NEEDED m then
    modify (set_state DefaultState)
  else if last_msg_is MSG_SUPPORT_REQUIRED m then
    within ← support_requests_are_within_approval_interval;
    if within && minimum_support_requests_reached m
    then modify (set_state StarvingState)
    else ret tt
  else ret tt.

Definition StarvingState_transition (now : Z) (m : MonitoredPeer) : MonitoredPeer :=
  let msg_type := _last_received_msg m in
  let m1 :=
    if negb (peer_is_alive now m) then reset_support_cycle (set_state DefaultState m)
    else if bool_decide (msg_type = Some MSG_SUPPORT_NOT_NEEDED) then set_state DefaultState m
    else m in
  if bool_decide (msg_type = Some MSG_PEER_SUPPORTED)
  then set_state SupportedState m1
  else m1.

(** The guard of the second branch is the source's
    [msg_type == MSG_SUPPORT_NOT_NEEDED and m.peer_timed_out() or not m.peer_is_alive()],
    which Python reads as [(a and b) or (not c)]. *)
Definition SupportedState_transition (now : Z) (m : MonitoredPeer) : MonitoredPeer :=
  let msg_type := _last_received_msg m in
  if negb (peer_is_alive now m) then reset_support_cycle (set_state DefaultState m)
  else if (bool_decide (msg_type = Some MSG_SUPPORT_NOT_NEEDED) && peer_timed_out now m)
          || negb (peer_is_alive now m)
  then set_state DefaultState m
  else m.

(** [m.get_state().transition()] *)
Definition transition (now : Z) : M MonitoredPeer unit :=
  m ← get;
  match _state m with
  | DefaultState => modify DefaultState_transition
  | WatchedState => WatchedState_transition now
  | StarvingState => modify (StarvingState_transition now)
  | SupportedState => modify (SupportedState_transition now)
  end.

Definition receive_msg (now : Z) (msg_type : msg) : M MonitoredPeer unit :=
  modify (set_last_received msg_type now) ;;
  modify (msg_handler now msg_type) ;;
  transition now.

(** ** monitored_subjects.py: the supporter record *)

(** A reference to an object of one of the two stores. *)
Definition ref : Type := nat.

(** The tuple (ID, address, min_peer, max_peer) behind [__hash__] and [__eq__]. *)
Definition supporter_key_t : Type := string * (string * Z) * Z * Z.

Record MonitoredSupporter : Type := mkMonitoredSupporter {
  _supporterId : string;
  _addr : string * Z;
  _min_peer : Z;
  _max_peer : Z;
  _supported_peers : list ref;
  _updated : bool
}.

(** [MonitoredSupporter.__init__]: [addr] is a pair by its type, so two
    assertions remain. *)
Definition MonitoredSupporter_init (supporter_id : string) (addr : string * Z)
    (min_peer max_peer : Z) : exn + MonitoredSupporter :=
  if negb (1024 <=? addr.2) then inl AssertionError
  else if negb (min_peer <=? max_peer) then inl AssertionError
  else inr (mkMonitoredSupporter supporter_id addr min_peer max_peer [] true).

Definition supporter_key (s : MonitoredSupporter) : supporter_key_t :=
  (_supporterId s, _addr s, _min_peer s, _max_peer s).

Definition set_supported_peers (l : list ref) (s : MonitoredSupporter) : MonitoredSupporter :=
  mkMonitoredSupporter (_supporterId s) (_addr s) (_min_peer s) (_max_peer s) l (_updated s).

Definition set_updated (b : bool) (s : MonitoredSupporter) : MonitoredSupporter :=
  mkMonitoredSupporter (_supporterId s) (_addr s) (_min_peer s) (_max_peer s)
    (_supported_peers s) b.

(** ** supporter_adapter.py and the mock of the tests

    A proxy is the endpoint it was created for; what the remote side answers
    is not part of the program and comes from the environment [Env]. *)

Definition proxy : Type := string * Z.

Inductive Dispatcher : Type :=
  | SupporteeListDispatcher (_proxies : gmap supporter_key_t proxy)
  | MockSupporteeListDispatcher.

Record Env : Type := mkEnv {
  (** [proxy.is_alive()] raises *)
  is_alive_raises : proxy -> bool;
  (** [proxy.receive_peer_list(l)] raises *)
  receive_peer_list_raises : proxy -> list (string * string * Z) -> bool;
  (** the thread named MainThread is alive *)
  main_thread_alive : bool
}.

(** ** supporter_monitor.py: the coordinator *)

Record SupporterMonitor : Type := mkSupporterMonitor {
  (** the two object stores *)
  peers : list MonitoredPeer;
  supporters : list MonitoredSupporter;
  _dispatcher : Dispatcher;
  _monitored_peers : list ref;
  _monitored_supporters : list ref;
  _active_supporters : list ref;
  (** recursion depth of the [RLock] *)
  _lock : nat;
  number_of_assignments : gmap string Z;
  (** lines written by [MonitorState.snapshot] *)
  statistics : list (Z * nat * nat * nat * nat);
  mon_is_alive_timeout : Z;
  mon_peer_timeout : Z;
  _dead_supporters : list ref;
  (** [receive_peer_list] calls that were made, and whether they returned *)
  sent_peer_lists : list (proxy * list (string * string * Z) * bool);
  (** [threading.Timer]s started for [update_states] *)
  timers : nat
}.

Definition set_peers v (d : SupporterMonitor) : SupporterMonitor :=
  mkSupporterMonitor v (supporters d) (_dispatcher d) (_monitored_peers d)
    (_monitored_supporters d) (_active_supporters d) (_lock d) (number_of_assignments d)
    (statistics d) (mon_is_alive_timeout d) (mon_peer_timeout d) (_dead_supporters d)
    (sent_peer_lists d) (timers d).

Definition set_supporters v (d : SupporterMonitor) : SupporterMonitor :=
  mkSupporterMonitor (peers d) v (_dispatcher d) (_monitored_peers d)
    (_monitored_supporters d) (_active_supporters d) (_lock d) (number_of_assignments d)
    (statistics d) (mon_is_alive_timeout d) (mon_peer_timeout d) (_dead_supporters d)
    (sent_peer_lists d) (timers d).

Definition set_dispatcher v (d : SupporterMonitor) : SupporterMonitor :=
  mkSupporterMonitor (peers d) (supporters d) v (_monitored_peers d)
    (_monitored_supporters d) (_active_supporters d) (_lock d) (number_of_assignments d)
    (statistics d) (mon_is_alive_timeout d) (mon_peer_timeout d) (_dead_supporters d)
    (sent_peer_lists d) (timers d).

Definition set_monitored_peers v (d : SupporterMonitor) : SupporterMonitor :=
  mkSupporterMonitor (peers d) (supporters d) (_dispatcher d) v
    (_monitored_supporters d) (_active_supporters d) (_lock d) (number_of_assignments d)
    (statistics d) (mon_is_alive_timeout d) (mon_peer_timeout d) (_dead_supporters d)
    (sent_peer_lists d) (timers d).

Definition set_monitored_supporters v (d : SupporterMonitor) : SupporterMonitor :=
  mkSupporterMonitor (peers d) (supporters d) (_dispatcher d) (_monitored_peers d)
    v (_active_supporters d) (_lock d) (number_of_assignments d)
    (statistics d) (mon_is_alive_timeout d) (mon_peer_timeout d) (_dead_supporters d)
    (sent_peer_lists d) (timers d).

Definition set_active_supporters v (d : SupporterMonitor) : SupporterMonitor :=
  mkSupporterMonitor (peers d) (supporters d) (_dispatcher d) (_monitored_peers d)
    (_monitored_supporters d) v (_lock d) (number_of_assignments d)
    (statistics d) (mon_is_alive_timeout d) (mon_peer_timeout d) (_dead_supporters d)
    (sent_peer_lists d) (timers d).

Definition set_lock v (d : SupporterMonitor) : SupporterMonitor :=
  mkSupporterMonitor (peers d) (supporters d) (_dispatcher d) (_monitored_peers d)
    (_monitored_supporters d) (_active_supporters d) v (number_of_assignments d)
    (statistics d) (mon_is_alive_timeout d) (mon_peer_timeout d) (_dead_supporters d)
    (sent_peer_lists d) (timers d).

Definition set_number_of_assignments v (d : SupporterMonitor) : SupporterMonitor :=
  mkSupporterMonitor (peers d) (supporters d) (_dispatcher d) (_monitored_peers d)
    (_monitored_supporters d) (_active_supporters d) (_lock d) v
    (statistics d) (mon_is_alive_timeout d) (mon_peer_timeout d) (_dead_supporters d)
    (sent_peer_lists d) (timers d).

Definition set_statistics v (d : SupporterMonitor) : SupporterMonitor :=
  mkSupporterMonitor (peers d) (supporters d) (_dispatcher d) (_monitored_peers d)
    (_monitored_supporters d) (_active_supporters d) (_lock d) (number_of_assignments d)
    v (mon_is_alive_timeout d) (mon_peer_timeout d) (_dead_supporters d)
    (sent_peer_lists d) (timers d).

Definition set_dead_supporters v (d : SupporterMonitor) : SupporterMonitor :=
  mkSupporterMonitor (peers d) (supporters d) (_dispatcher d) (_monitored_peers d)
    (_monitored_supporters d) (_active_supporters d) (_lock d) (number_of_assignments d)
    (statistics d) (mon_is_alive_timeout d) (mon_peer_timeout d) v
    (sent_peer_lists d) (timers d).

Definition set_sent_peer_lists v (d : SupporterMonitor) : SupporterMonitor :=
  mkSupporterMonitor (peers d) (supporters d) (_dispatcher d) (_monitored_peers d)
    (_monitored_supporters d) (_active_supporters d) (_lock d) (number_of_assignments d)
    (statistics d) (mon_is_alive_timeout d) (mon_peer_timeout d) (_dead_supporters d)
    v (timers d).

Definition set_timers v (d : SupporterMonitor) : SupporterMonitor :=
  mkSupporterMonitor (peers d) (supporters d) (_dispatcher d) (_monitored_peers d)
    (_monitored_supporters d) (_active_supporters d) (_lock d) (number_of_assignments d)
    (statistics d) (mon_is_alive_timeout d) (mon_peer_timeout d) (_dead_supporters d)
    (sent_peer_lists d) v.

Definition lock_acquire (d : SupporterMonitor) : SupporterMonitor := set_lock (S (_lock d)) d.
Definition lock_release (d : SupporterMonitor) : SupporterMonitor := set_lock (pred (_lock d)) d.

(** *** Python list operations through [__eq__] *)

(** [l.remove(x)]: drops the first element equal to [x]. *)
Fixpoint remove_first {A} (eqx : A -> bool) (l : list A) : list A :=
  match l with
  | [] => []
  | y :: l' => if eqx y then l' else y :: remove_first eqx l'
  end.

Fixpoint find_first {A} (f : A -> bool) (l : list A) : option A :=
  match l with
  | [] => None
  | y :: l' => if f y then Some y else find_first f l'
  end.

(** A stable sort, as [list.sort(cmp)] is: [before y x] says that [y] must
    come strictly before [x]; elements that are not ordered keep their order. *)
Fixpoint insert_sorted {A} (before : A -> A -> bool) (x : A) (l : list A) : list A :=
  match l with
  | [] => [x]
  | y :: l' => if before y x then y :: insert_sorted before x l' else x :: y :: l'
  end.

Definition stable_sort {A} (before : A -> A -> bool) (l : list A) : list A :=
  foldr (insert_sorted before) [] l.

(** Is some object of [l] equal to a peer with identity tuple [k]? *)
Definition peer_key_in (d : SupporterMonitor) (k : string * string * Z) (l : list ref) : bool :=
  existsb (fun r => match peers d !! r with
                    | Some q => bool_decide (peer_key q = k)
                    | None => false
                    end) l.

Definition peer_eq (d : SupporterMonitor) (r1 r2 : ref) : bool :=
  match peers d !! r1, peers d !! r2 with
  | Some a, Some b => bool_decide (peer_key a = peer_key b)
  | _, _ => false
  end.

(** [r in l] for peers *)
Definition peer_in (d : SupporterMonitor) (r : ref) (l : list ref) : bool :=
  existsb (peer_eq d r) l.

Definition supporter_key_in (d : SupporterMonitor) (k : supporter_key_t) (l : list ref) : bool :=
  existsb (fun r => match supporters d !! r with
                    | Some q => bool_decide (supporter_key q = k)
                    | None => false
                    end) l.

Definition supporter_eq (d : SupporterMonitor) (r1 r2 : ref) : bool :=
  match supporters d !! r1, supporters d !! r2 with
  | Some a, Some b => bool_decide (supporter_key a = supporter_key b)
  | _, _ => false
  end.

(** [r in l] for supporters *)
Definition supporter_in (d : SupporterMonitor) (r : ref) (l : list ref) : bool :=
  existsb (supporter_eq d r) l.

(** A new object gets the next free index of its store. *)
Definition alloc_peer (mp : MonitoredPeer) : M SupporterMonitor ref :=
  fun d => Ok (length (peers d)) (set_peers (peers d ++ [mp]) d).

Definition alloc_supporter (ms : MonitoredSupporter) : M SupporterMonitor ref :=
  fun d => Ok (length (supporters d)) (set_supporters (supporters d ++ [ms]) d).

(** Run a method of the peer object [r]. *)
Definition on_peer (r : ref) (f : M MonitoredPeer unit) : M SupporterMonitor unit :=
  fun d => match peers d !! r with
           | Some p =>
               match f p with
               | Ok a p' => Ok a (set_peers (<[r := p']> (peers d)) d)
               | Raise e p' => Raise e (set_peers (<[r := p']> (peers d)) d)
               end
           | None => Ok tt d
           end.

(** Update the supporter object [r]. *)
Definition on_supporter (r : ref) (f : MonitoredSupporter -> MonitoredSupporter)
    : M SupporterMonitor unit :=
  modify (fun d => set_supporters (alter f r (supporters d)) d).

(** *** Methods of MonitoredSupporter (they compare peers, so they read the
    peer store) *)

Definition get_supported_peers (d : SupporterMonitor) (s : ref) : list ref :=
  match supporters d !! s with
  | Some sup => _supported_peers sup
  | None => []
  end.

Definition get_min_peer (d : SupporterMonitor) (s : ref) : Z :=
  match supporters d !! s with Some sup => _min_peer sup | None => 0 end.

Definition get_max_peer (d : SupporterMonitor) (s : ref) : Z :=
  match supporters d !! s with Some sup => _max_peer sup | None => 0 end.

Definition available_slots (d : SupporterMonitor) (s : ref) : Z :=
  get_max_peer d s - Z.of_nat (length (get_supported_peers d s)).

Definition assigned_slots (d : SupporterMonitor) (s : ref) : Z :=
  Z.of_nat (length (get_supported_peers d s)).

Definition add_supported_peer (s : ref) (monitored_peer : ref) : M SupporterMonitor unit :=
  d ← get;
  if negb (peer_in d monitored_peer (get_supported_peers d s)) then
    on_supporter s (set_updated true) ;;
    on_supporter s (fun sup => set_supported_peers (_supported_peers sup ++ [monitored_peer]) sup)
  else ret tt.

Definition remove_supported_peer (s : ref) (monitored_peer : ref) : M SupporterMonitor unit :=
  d ← get;
  if peer_in d monitored_peer (get_supported_peers d s) then
    on_supporter s (fun sup =>
      set_supported_peers (remove_first (peer_eq d monitored_peer) (_supported_peers sup)) sup) ;;
    on_supporter s (set_updated true)
  else ret tt.

Definition cancel_support_for_all_peers (s : ref) : M SupporterMonitor unit :=
  d ← get;
  let collected_peers := get_supported_peers d s in
  for_each collected_peers (fun mp =>
    remove_supported_peer s mp ;;
    on_peer mp (modify support_aborted)).

Definition reset_update_counter (s : ref) : M SupporterMonitor bool :=
  d ← get;
  let value := match supporters d !! s with Some sup => _updated sup | None => false end in
  on_supporter s (set_updated false) ;;
  ret value.

Definition peer_state_is (d : SupporterMonitor) (st : State) (r : ref) : bool :=
  match peers d !! r with
  | Some p => bool_decide (_state p = st)
  | None => false
  end.

Definition update_supported_peer_list (s : ref) : M SupporterMonitor unit :=
  d ← get;
  let to_be_removed := List.filter (peer_state_is d DefaultState) (get_supported_peers d s) in
  for_each to_be_removed (fun peer =>
    remove_supported_peer s peer ;;
    on_supporter s (set_updated true)).

(** *** The dispatcher *)

Definition supporter_key_of (d : SupporterMonitor) (s : ref) : option supporter_key_t :=
  supporter_key <$> supporters d !! s.

(** [register_proxy]: the endpoint is the supporter's host at its port + 1. *)
Definition register_proxy (s : ref) : M SupporterMonitor unit :=
  modify (fun d =>
    match _dispatcher d, supporters d !! s with
    | SupporteeListDispatcher proxies, Some sup =>
        set_dispatcher
          (SupporteeListDispatcher
             (<[supporter_key sup := ((_addr sup).1, (_addr sup).2 + 1)]> proxies)) d
    | _, _ => d
    end).

Definition unregister_proxy (s : ref) : M SupporterMonitor unit :=
  modify (fun d =>
    match _dispatcher d, supporters d !! s with
    | SupporteeListDispatcher proxies, Some sup =>
        set_dispatcher (SupporteeListDispatcher (delete (supporter_key sup) proxies)) d
    | _, _ => d
    end).

(** The proxy lookup stands before the [try], so a missing entry is a
    [KeyError] of the whole call; a failing probe is caught and the supporter
    is put on the dead list. *)
Definition query_all_supporters (env : Env) : M SupporterMonitor unit :=
  d ← get;
  match _dispatcher d with
  | MockSupporteeListDispatcher => ret tt
  | SupporteeListDispatcher proxies =>
      for_each (_monitored_supporters d) (fun supporter =>
        match supporter_key_of d supporter with
        | None => ret tt
        | Some k =>
            match proxies !! k with
            | None => raise KeyError
            | Some p =>
                if is_alive_raises env p
                then modify (fun d' => set_dead_supporters (_dead_supporters d' ++ [supporter]) d')
                else ret tt
            end
        end)
  end.

Definition peers_to_be_unchoked (d : SupporterMonitor) (s : ref) : list (string * string * Z) :=
  omap (fun r => peer_key <$> peers d !! r) (get_supported_peers d s).

Definition dispatch_peer_lists (env : Env) : M SupporterMonitor unit :=
  d ← get;
  match _dispatcher d with
  | MockSupporteeListDispatcher => ret tt
  | SupporteeListDispatcher proxies =>
      for_each (_monitored_supporters d) (fun supporter =>
        changed ← reset_update_counter supporter;
        if negb changed then ret tt
        else
          d' ← get;
          let l := peers_to_be_unchoked d' supporter in
          match supporter_key_of d' supporter ≫= (fun k => proxies !! k) with
          | Some p =>
              (* an exception of the call is caught and logged *)
              let answered := negb (receive_peer_list_raises env p l) in
              modify (fun d2 => set_sent_peer_lists (sent_peer_lists d2 ++ [(p, l, answered)]) d2)
          | None => ret tt
          end)
  end.

(** *** SupporterMonitor *)

Definition schedule_next_asynchronous_update (env : Env) : M SupporterMonitor unit :=
  if main_thread_alive env
  then modify (fun d => set_timers (S (timers d)) d)
  else ret tt.

Definition SupporterMonitor_init (env : Env) (is_alive_timeout peer_timeout : option Z)
    : SupporterMonitor :=
  mkSupporterMonitor [] [] (SupporteeListDispatcher ∅) [] [] [] 0 ∅ []
    (or_default is_alive_timeout IS_ALIVE_TIMEOUT_BOUND)
    (or_default peer_timeout PEER_TIMEOUT_BOUND)
    [] [] (if main_thread_alive env then 1%nat else 0%nat).

(** [peer_id == peer.get_id()] *)
Definition has_peer_id (d : SupporterMonitor) (peer_id : string) (r : ref) : bool :=
  match peers d !! r with
  | Some p => bool_decide (peer_id = _id p)
  | None => false
  end.

Definition received_peer_message (now : Z) (msg_type : msg) (peer_id : string)
    : M SupporterMonitor unit :=
  modify lock_acquire ;;
  try_finally
    (d ← get;
     match find_first (has_peer_id d peer_id) (_monitored_peers d) with
     | Some peer => on_peer peer (receive_msg now msg_type)
     | None => ret tt
     end)
    lock_release.

(** The new object enters the store only when it is kept. *)
Definition register_monitored_peer (now : Z) (id ip : string) (port peer_type : Z)
    : M SupporterMonitor (option ref) :=
  modify lock_acquire ;;
  try_finally
    (d ← get;
     match MonitoredPeer_init id ip port peer_type
             (Some (mon_is_alive_timeout d)) (Some (mon_peer_timeout d)) with
     | inl e => raise e
     | inr mp =>
         kept ← (if negb (peer_key_in d (peer_key mp) (_monitored_peers d)) then
                   r ← alloc_peer mp;
                   modify (fun d => set_monitored_peers (_monitored_peers d ++ [r]) d) ;;
                   ret (Some r)
                 else ret None);
         received_peer_message now MSG_PEER_REGISTERED id ;;
         ret kept
     end)
    lock_release.

Definition unregister_monitored_peer (monitored_peer : ref) : M SupporterMonitor unit :=
  modify (fun d =>
    if peer_in d monitored_peer (_monitored_peers d)
    then set_monitored_peers (remove_first (peer_eq d monitored_peer) (_monitored_peers d)) d
    else d).

Definition register_monitored_supporter (id : string) (addr : string * Z)
    (min_peer max_peer : Z) : M SupporterMonitor (option ref) :=
  modify lock_acquire ;;
  try_finally
    (d ← get;
     match MonitoredSupporter_init id addr min_peer max_peer with
     | inl e => raise e
     | inr ms =>
         if negb (supporter_key_in d (supporter_key ms) (_monitored_supporters d)) then
           r ← alloc_supporter ms;
           modify (fun d => set_monitored_supporters (_monitored_supporters d ++ [r]) d) ;;
           register_proxy r ;;
           ret (Some r)
         else ret None
     end)
    lock_release.

Definition unregister_monitored_supporter (monitored_supporter : ref) : M SupporterMonitor unit :=
  d ← get;
  if supporter_in d monitored_supporter (_monitored_supporters d) then
    cancel_support_for_all_peers monitored_supporter ;;
    modify (fun d => set_monitored_supporters
                       (remove_first (supporter_eq d monitored_supporter)
                          (_monitored_supporters d)) d) ;;
    unregister_proxy monitored_supporter
  else ret tt.

Definition order_active_supporters : M SupporterMonitor unit :=
  modify (fun d =>
    let tmp := map (fun s => (s, available_slots d s)) (_active_supporters d) in
    let tmp := stable_sort (fun y x => x.2 <? y.2) tmp in
    set_active_supporters (map fst tmp) d).

Definition filter_peers_by_state (st : State) (d : SupporterMonitor) : list ref :=
  List.filter (peer_state_is d st) (_monitored_peers d).

Definition remaining_active_supporters_with_capacity (d : SupporterMonitor) : bool :=
  match _active_supporters d with
  | [] => false
  | s :: _ => 0 <? available_slots d s
  end.

Definition peer_id_of (d : SupporterMonitor) (r : ref) : option string :=
  _id <$> peers d !! r.

(** [number_of_assignments.setdefault(k, v)] *)
Definition dict_setdefault (k : string) (v : Z) (m : gmap string Z) : gmap string Z :=
  match m !! k with
  | Some _ => m
  | None => <[k := v]> m
  end.

Definition assign_peer_to_supporter (now : Z) (monitored_peer monitored_supporter : ref)
    : M SupporterMonitor unit :=
  d ← get;
  if negb (supporter_in d monitored_supporter (_active_supporters d)) then ret tt
  else
    add_supported_peer monitored_supporter monitored_peer ;;
    order_active_supporters ;;
    on_peer monitored_peer (receive_msg now MSG_PEER_SUPPORTED) ;;
    (* update the number of assignments *)
    match peer_id_of d monitored_peer with
    | None => ret tt
    | Some id =>
        modify (fun d => set_number_of_assignments
                           (dict_setdefault id 1 (number_of_assignments d)) d) ;;
        d' ← get;
        match number_of_assignments d' !! id with
        | Some n => modify (set_number_of_assignments (<[id := n + 1]> (number_of_assignments d')))
        | None => raise KeyError
        end
    end.

Definition activate_supporter (monitored_supporter : ref) : M SupporterMonitor unit :=
  d ← get;
  if negb (assigned_slots d monitored_supporter =? 0) then ret tt
  else modify (fun d => set_active_supporters (_active_supporters d ++ [monitored_supporter]) d).

Definition inactivate_supporter (monitored_supporter : ref) : M SupporterMonitor unit :=
  d ← get;
  if assigned_slots d monitored_supporter =? 0
  then modify (fun d => set_active_supporters
                          (remove_first (supporter_eq d monitored_supporter)
                             (_active_supporters d)) d)
  else ret tt.

(** *** The phases of [update_states] *)

(** The first loop of [_remove_timedout_peers] only reads; [None] is the
    [TypeError] of [ts - None] for a peer that never received a message. *)
Fixpoint peers_to_be_removed (now : Z) (d : SupporterMonitor) (l : list ref)
    : option (list ref) :=
  match l with
  | [] => Some []
  | mp :: l' =>
      match peers d !! mp with
      | None => peers_to_be_removed now d l'
      | Some p =>
          match _ts_last_received_msg p with
          | None => None
          | Some t =>
              match peers_to_be_removed now d l' with
              | None => None
              | Some rest => Some (if PEER_REMOVAL_TIME <=? now - t then mp :: rest else rest)
              end
          end
      end
  end.

Definition _remove_timedout_peers (now : Z) : M SupporterMonitor unit :=
  d ← get;
  match peers_to_be_removed now d (_monitored_peers d) with
  | None => raise TypeError
  | Some l => for_each l unregister_monitored_peer
  end.

Definition _mark_dead_supporters (env : Env) : M SupporterMonitor unit :=
  query_all_supporters env.

Definition _remove_dead_supporters : M SupporterMonitor unit :=
  d ← get;
  for_each (_dead_supporters d) unregister_monitored_supporter.

(** [ts and (now - ts > 10)]: a timestamp is truthy when it is there and not 0. *)
Definition request_older_than_10s (now : Z) (m : MonitoredPeer) : bool :=
  match get_ts_last_request m with
  | Some t => negb (bool_decide (t = 0)) && (10000 <? now - t)
  | None => false
  end.

Definition _enforce_update_of_monitored_peers (now : Z) : M SupporterMonitor unit :=
  d ← get;
  for_each (_monitored_peers d) (fun mp =>
    on_peer mp (m ← get;
                if request_older_than_10s now m
                then modify (set_state DefaultState)
                else transition now)).

(** The loop of [_enforce_update_of_monitored_supporters]; it returns
    [supporters_to_be_inactivated]. *)
Fixpoint update_active_supporters (active : list ref) : M SupporterMonitor (list ref) :=
  match active with
  | [] => ret []
  | supporter :: rest =>
      update_supported_peer_list supporter ;;
      d ← get;
      supporters_to_be_inactivated ← update_active_supporters rest;
      ret (if assigned_slots d supporter =? 0
           then supporter :: supporters_to_be_inactivated
           else supporters_to_be_inactivated)
  end.

Definition _enforce_update_of_monitored_supporters : M SupporterMonitor unit :=
  d ← get;
  supporters_to_be_inactivated ← update_active_supporters (_active_supporters d);
  modify (fun d =>
    set_active_supporters
      (List.filter (fun s => negb (supporter_in d s supporters_to_be_inactivated))
         (_active_supporters d)) d).

Definition snapshot (now : Z) : M SupporterMonitor unit :=
  modify (fun d =>
    let count st := length (filter_peers_by_state st d) in
    set_statistics
      (statistics d ++ [(now, count DefaultState, count WatchedState,
                         count StarvingState, count SupportedState)]) d).

Definition sort_starving_peers (d : SupporterMonitor) (starving_peers : list ref) : list ref :=
  let nl := map (fun p =>
              match peer_id_of d p with
              | Some id =>
                  match number_of_assignments d !! id with
                  | Some n => (n, p)
                  | None => (0, p)
                  end
              | None => (0, p)
              end) starving_peers in
  map snd (stable_sort (fun y x => x.1 <? y.1) nl).

(** The [while] loop takes the front peer, and [starving_peers.remove(peer)]
    drops that same front element, so the loop is a recursion on the list. *)
Fixpoint assign_starving_loop (now : Z) (starving_peers : list ref) : M SupporterMonitor unit :=
  match starving_peers with
  | [] => ret tt
  | peer :: rest =>
      d ← get;
      if remaining_active_supporters_with_capacity d then
        match _active_supporters d with
        | s :: _ =>
            assign_peer_to_supporter now peer s ;;
            order_active_supporters ;;
            assign_starving_loop now rest
        | [] => ret tt
        end
      else ret tt
  end.

Definition _assign_starving_peers_to_active_supporters (now : Z) : M SupporterMonitor unit :=
  d ← get;
  let starving_peers := filter_peers_by_state StarvingState d in
  let starving_peers := sort_starving_peers d starving_peers in
  assign_starving_loop now starving_peers.

Definition sorted_list_of_inactive_supporters (d : SupporterMonitor) : list (ref * Z) :=
  let inactive_supporters :=
    map (fun s => (s, get_min_peer d s))
      (List.filter (fun s => negb (supporter_in d s (_active_supporters d)))
         (_monitored_supporters d)) in
  stable_sort (fun y x => y.2 <? x.2) inactive_supporters.

(** The loop of [retrieve_activation_index] from position [i] on. *)
Fixpoint activation_index_from (d : SupporterMonitor) (starving_number : Z) (i : Z)
    (activate_up_to_index : Z) (inactive_supporters : list (ref * Z)) : Z :=
  match inactive_supporters with
  | [] => activate_up_to_index
  | (s, min_peer) :: rest =>
      if min_peer <=? starving_number
      then activation_index_from d (starving_number - available_slots d s) (i + 1) i rest
      else activate_up_to_index
  end.

Definition retrieve_activation_index (d : SupporterMonitor) (starving_peers : list ref)
    (inactive_supporters : list (ref * Z)) : Z :=
  activation_index_from d (Z.of_nat (length starving_peers)) 0 (-1) inactive_supporters.

(** The inner [for peer in starving_peers] of
    [activate_supporters_and_assign_peers]; it assigns to [first], which is
    [inactive_supporters[0][0]] in the source, and returns [assigned_peers]. *)
Fixpoint assign_until_full (now : Z) (first : ref) (starving_peers : list ref)
    : M SupporterMonitor (list ref) :=
  match starving_peers with
  | [] => ret []
  | peer :: rest =>
      assign_peer_to_supporter now peer first ;;
      d ← get;
      if available_slots d first =? 0 then ret [peer]
      else
        assigned_peers ← assign_until_full now first rest;
        ret (peer :: assigned_peers)
  end.

(** The outer [for i in xrange(0, activate_up_to_index + 1)], over the
    supporters [inactive_supporters[i][0]] of that range. *)
Fixpoint activate_loop (now : Z) (first : ref) (to_activate : list (ref * Z))
    (starving_peers : list ref) : M SupporterMonitor unit :=
  match to_activate with
  | [] => ret tt
  | (s, _) :: more =>
      activate_supporter s ;;
      assigned_peers ← assign_until_full now first starving_peers;
      d ← get;
      activate_loop now first more
        (List.filter (fun p => negb (peer_in d p assigned_peers)) starving_peers)
  end.

Definition activate_supporters_and_assign_peers (now : Z) (activate_up_to_index : Z)
    (inactive_supporters : list (ref * Z)) (starving_peers : list ref)
    : M SupporterMonitor unit :=
  if 0 <=? activate_up_to_index then
    match inactive_supporters with
    | [] => ret tt
    | (first, _) :: _ =>
        activate_loop now first
          (take (Z.to_nat (activate_up_to_index + 1)) inactive_supporters) starving_peers ;;
        order_active_supporters
    end
  else ret tt.

Definition _check_for_activation_of_new_supporters (now : Z) : M SupporterMonitor unit :=
  d ← get;
  let starving_peers := filter_peers_by_state StarvingState d in
  let inactive_supporters := sorted_list_of_inactive_supporters d in
  let activate_up_to_index := retrieve_activation_index d starving_peers inactive_supporters in
  activate_supporters_and_assign_peers now activate_up_to_index inactive_supporters starving_peers.

(** [update_states]: the body runs under [try ... finally] that releases the
    lock; the next update is scheduled after it. *)
Definition update_states_body (env : Env) (now : Z) : M SupporterMonitor unit :=
  _remove_timedout_peers now ;;
  _mark_dead_supporters env ;;
  _remove_dead_supporters ;;
  _enforce_update_of_monitored_peers now ;;
  _enforce_update_of_monitored_supporters ;;
  snapshot now ;;
  _assign_starving_peers_to_active_supporters now ;;
  _check_for_activation_of_new_supporters now ;;
  dispatch_peer_lists env.

Definition update_states (env : Env) (now : Z) : M SupporterMonitor unit :=
  modify lock_acquire ;;
  try_finally (update_states_body env now) lock_release ;;
  schedule_next_asynchronous_update env.

(** ** Runs of the coordinator

    What reaches the coordinator from outside: registrations, peer messages
    and the periodic update, each with the clock value it reads.  A call that
    raises leaves the coordinator in the state reached at the raise. *)

Inductive event : Type :=
  | RegisterPeer (now : Z) (id ip : string) (port peer_type : Z)
  | RegisterSupporter (id : string) (addr : string * Z) (min_peer max_peer : Z)
  | PeerMessage (now : Z) (msg_type : msg) (peer_id : string)
  | Tick (now : Z).

Definition step (env : Env) (e : event) : M SupporterMonitor unit :=
  match e with
  | RegisterPeer now id ip port peer_type =>
      register_monitored_peer now id ip port peer_type ;; ret tt
  | RegisterSupporter id addr min_peer max_peer =>
      register_monitored_supporter id addr min_peer max_peer ;; ret tt
  | PeerMessage now msg_type peer_id => received_peer_message now msg_type peer_id
  | Tick now => update_states env now
  end.

Definition run (env : Env) (evs : list event) (d : SupporterMonitor) : SupporterMonitor :=
  fold_left (fun d e => final_state (step env e d)) evs d.

Definition reachable (env : Env) (d : SupporterMonitor) : Prop :=
  exists is_alive_timeout peer_timeout evs,
    d = run env evs (SupporterMonitor_init env is_alive_timeout peer_timeout).

(** The environment of the tests: every supporter answers. *)
Definition all_answer : Env := mkEnv (fun _ => false) (fun _ _ => false) true.

(** ** Runs of one peer record *)

Inductive peer_op : Type :=
  | OpReceive (msg_type : msg)
  | OpResetCycle
  | OpTransition
  | OpSupportAborted
  | OpForceDefault.

Definition peer_step (now : Z) (op : peer_op) : M MonitoredPeer unit :=
  match op with
  | OpReceive msg_type => receive_msg now msg_type
  | OpResetCycle => modify reset_support_cycle
  | OpTransition => transition now
  | OpSupportAborted => modify support_aborted
  | OpForceDefault => modify (set_state DefaultState)
  end.

(** The trace gives each operation with the clock value it reads. *)
Definition peer_run (tr : list (Z * peer_op)) (m : MonitoredPeer) : MonitoredPeer :=
  fold_left (fun m e => final_state (peer_step e.1 e.2 m)) tr m.

Definition cycle_is_reset (m : MonitoredPeer) : Prop :=
  _ts_list m = [] /\ _support_requests m = 0.

(** A leecher with the default bounds. *)
Definition new_peer (id ip : string) (port : Z) : MonitoredPeer :=
  mkMonitoredPeer None None IS_ALIVE_TIMEOUT_BOUND PEER_TIMEOUT_BOUND
    DefaultState None [] 0 id ip port PEER_TYPE_LEECHER.

(** The invariant of the window at clock value [now]. *)
Definition window_inv (now : Z) (l : list Z) : Prop :=
  (length l <= Z.to_nat PEER_REQUIRED_MSGS)%nat /\
  StronglySorted Z.le l /\
  Forall (fun t => t <= now) l.

(** ** The scenarios of test_supporter_monitor.py

    Supporters are registered first, then three leechers, each of which sends
    PEER_REQUIRED_MSGS support requests; all of this at clock value 1000. *)

Definition three_peers : list string := ["XXX---34920F"; "XXX---34920G"; "XXX---34920H"].

Definition three_starving_peers : list event :=
  [RegisterPeer 1000 "XXX---34920F" "192.168.2.50" 10000 PEER_TYPE_LEECHER;
   RegisterPeer 1000 "XXX---34920G" "192.168.2.51" 10001 PEER_TYPE_LEECHER;
   RegisterPeer 1000 "XXX---34920H" "192.168.2.52" 10002 PEER_TYPE_LEECHER]
  ++ mjoin (replicate (Z.to_nat PEER_REQUIRED_MSGS)
              (map (PeerMessage 1000 MSG_SUPPORT_REQUIRED) three_peers)).

(** testActivatingMoreThanOneSupporterAtOnce: S1 (min 2, max 2) is supporter
    object 0 and S2 (min 1, max 1) is supporter object 1. *)
Definition scenario_two_small_supporters : list event :=
  [RegisterSupporter "1" ("192.168.2.10", 5000) 2 2;
   RegisterSupporter "2" ("192.168.2.11", 5001) 1 1]
  ++ three_starving_peers.

(** testActivateOneSupporterFromMultipleInactiveSupporters: S1 (min 2, max 3)
    is supporter object 0 and S2 (min 1, max 3) is supporter object 1. *)
Definition scenario_min_max_together : list event :=
  [RegisterSupporter "1" ("192.168.2.10", 5000) 2 3;
   RegisterSupporter "2" ("192.168.2.11", 5001) 1 3]
  ++ three_starving_peers.

Definition initial_monitor : SupporterMonitor := SupporterMonitor_init all_answer None None.

(** The tests replace the dispatcher by their mock and shorten the bounds. *)
Definition initial_monitor_of_tests : SupporterMonitor :=
  set_dispatcher MockSupporteeListDispatcher
    (SupporterMonitor_init all_answer (Some 2000) (Some 1000)).

Definition roster_of (d : SupporterMonitor) (s : ref) : option (list ref) :=
  _supported_peers <$> supporters d !! s.

Definition max_peer_of (d : SupporterMonitor) (s : ref) : option Z :=
  _max_peer <$> supporters d !! s.

Definition states_of_peers (d : SupporterMonitor) : list (option State) :=
  map (fun r => _state <$> peers d !! r) (_monitored_peers d).

(** A peer that leaves Supported and starves again between two updates:
    P is served by supporter object 0, Q by supporter object 1; P reports
    SUPPORT_NOT_NEEDED twice, 5 s apart, and then sends four requests. *)
Definition scenario_starving_again : list event :=
  [RegisterSupporter "1" ("192.168.2.10", 5000) 1 1;
   RegisterPeer 1000 "P" "192.168.2.50" 10000 PEER_TYPE_LEECHER]
  ++ replicate 4 (PeerMessage 1000 MSG_SUPPORT_REQUIRED "P")
  ++ [Tick 2000;
      RegisterSupporter "2" ("192.168.2.11", 5001) 1 5;
      RegisterPeer 2000 "Q" "192.168.2.51" 10001 PEER_TYPE_LEECHER]
  ++ replicate 4 (PeerMessage 2500 MSG_SUPPORT_REQUIRED "Q")
  ++ [Tick 3000; PeerMessage 3100 MSG_SUPPORT_NOT_NEEDED "P";
      Tick 4000; Tick 5000; Tick 6000; Tick 7000; Tick 8000;
      PeerMessage 8100 MSG_SUPPORT_NOT_NEEDED "P"]
  ++ replicate 4 (PeerMessage 8200 MSG_SUPPORT_REQUIRED "P")
  ++ [Tick 9000].

(** Two registrations under one peer ID with different addresses. *)
Definition scenario_shared_peer_id : list event :=
  [RegisterPeer 1000 "XXX---34920F" "192.168.2.50" 10000 PEER_TYPE_LEECHER;
   RegisterPeer 1000 "XXX---34920F" "192.168.2.51" 10001 PEER_TYPE_LEECHER].

(** Every registered supporter has an entry in the dispatcher's table. *)
Definition every_supporter_has_proxy (d : SupporterMonitor) : Prop :=
  match _dispatcher d with
  | MockSupporteeListDispatcher => True
  | SupporteeListDispatcher proxies =>
      forall s k, s ∈ _monitored_supporters d -> supporter_key_of d s = Some k ->
                  is_Some (proxies !! k)
  end.

(** The two fields that [update_states] manages around its body. *)
Definition same_lock_and_timers (d d' : SupporterMonitor) : Prop :=
  _lock d' = _lock d /\ timers d' = timers d.

Definition keeps_lock_and_timers {A} (m : M SupporterMonitor A) : Prop :=
  forall d, same_lock_and_timers d (final_state (m d)).

Definition never_raises {S A} (m : M S A) : Prop :=
  forall s, exists a s', m s = Ok a s'.

(** No supporter answers any more. *)
Definition nobody_answers : Env := mkEnv (fun _ => true) (fun _ _ => true) true.

(** One peer served by one supporter, under the bounds of the tests
    (is-alive 2 s, peer timeout 1 s) and with the XML-RPC dispatcher. *)
Definition scenario_one_supported_peer : list event :=
  [RegisterSupporter "1" ("192.168.2.10", 5000) 1 5;
   RegisterPeer 1000 "P" "192.168.2.50" 10000 PEER_TYPE_LEECHER]
  ++ replicate 4 (PeerMessage 1000 MSG_SUPPORT_REQUIRED "P")
  ++ [Tick 1500].

(** testCorrectOrderOfActiveSupporters *)
Definition scenario_order_of_active_supporters : list event :=
  [RegisterSupporter "1" ("192.168.2.50", 5000) 1 1;
   RegisterSupporter "2" ("192.168.2.51", 5001) 1 6;
   RegisterPeer 1000 "XXX---34920F" "192.168.2.50" 10000 PEER_TYPE_LEECHER;
   RegisterPeer 1000 "XXX---34920G" "192.168.2.51" 10001 PEER_TYPE_LEECHER]
  ++ mjoin (replicate 4 (map (PeerMessage 1000 MSG_SUPPORT_REQUIRED)
                           ["XXX---34920F"; "XXX---34920G"]))
  ++ [Tick 1000].

(** testPeersRemainInStarvingState *)
Definition scenario_peers_remain_starving : list event :=
  [RegisterPeer 1000 "XXX---34920F" "192.168.2.50" 10000 PEER_TYPE_LEECHER;
   RegisterPeer 1000 "XXX---34920G" "192.168.2.51" 10001 PEER_TYPE_LEECHER;
   RegisterSupporter "1" ("192.168.2.10", 1024) 3 5;
   Tick 1000]
  ++ mjoin (replicate 5 (map (PeerMessage 1000 MSG_SUPPORT_REQUIRED)
                           ["XXX---34920F"; "XXX---34920G"]))
  ++ [Tick 1000].

(** testSimpleProtocol, up to the second update and to the end. *)
Definition scenario_simple_protocol : list event :=
  [RegisterPeer 1000 "XXX---34920F" "192.168.2.50" 10000 PEER_TYPE_LEECHER;
   RegisterSupporter "1" ("192.168.2.1", 1024) 2 5]
  ++ replicate 4 (PeerMessage 1000 MSG_SUPPORT_REQUIRED "XXX---34920F")
  ++ [Tick 1000;
      RegisterPeer 1000 "XXX---34920G" "192.168.2.51" 10001 PEER_TYPE_LEECHER]
  ++ replicate 4 (PeerMessage 1000 MSG_SUPPORT_REQUIRED "XXX---34920G")
  ++ [Tick 1000].

Definition scenario_simple_protocol_end : list event :=
  scenario_simple_protocol
  ++ [PeerMessage 1000 MSG_SUPPORT_NOT_NEEDED "XXX---34920F";
      PeerMessage 1000 MSG_SUPPORT_NOT_NEEDED "XXX---34920G";
      Tick 6000].

(** The peer of test_monitored_subjects.py. *)
Definition peer_of_tests : MonitoredPeer :=
  mkMonitoredPeer None None 2000 1000 DefaultState None [] 0
    "XXX---34920F" "192.168.2.1" 10000 PEER_TYPE_LEECHER.

(** ** Notions used by the further properties *)

(** What a peer record is created with and no method assigns again. *)
Definition static_fields (m : MonitoredPeer) : string * string * Z * Z * Z * Z :=
  (_id m, _ip m, _port m, _peer_type m, _is_alive_timeout m, _peer_timeout m).

(** The arrows of the state machine, staying in place included. *)
Definition arrow (s s' : State) : bool :=
  match s, s' with
  | DefaultState, (DefaultState | WatchedState) => true
  | WatchedState, (WatchedState | DefaultState | StarvingState) => true
  | StarvingState, (StarvingState | DefaultState | SupportedState) => true
  | SupportedState, (SupportedState | DefaultState) => true
  | _, _ => false
  end.

(** No registered peer record has the ID [peer_id]. *)
Definition peer_id_unused (d : SupporterMonitor) (peer_id : string) : Prop :=
  forall r p, r ∈ _monitored_peers d -> peers d !! r = Some p -> _id p <> peer_id.

(** The record a registration creates, after its PEER_REGISTERED message. *)
Definition registered_peer (d : SupporterMonitor) (now : Z) (id ip : string)
    (port peer_type : Z) : MonitoredPeer :=
  mkMonitoredPeer (Some MSG_PEER_REGISTERED) (Some now)
    (or_default (Some (mon_is_alive_timeout d)) IS_ALIVE_TIMEOUT_BOUND)
    (or_default (Some (mon_peer_timeout d)) PEER_TIMEOUT_BOUND)
    DefaultState None [] 0 id ip port peer_type.

(** The record as the constructor leaves it: no message received yet. *)
Definition constructed_peer (d : SupporterMonitor) (id ip : string)
    (port peer_type : Z) : MonitoredPeer :=
  mkMonitoredPeer None None
    (or_default (Some (mon_is_alive_timeout d)) IS_ALIVE_TIMEOUT_BOUND)
    (or_default (Some (mon_peer_timeout d)) PEER_TIMEOUT_BOUND)
    DefaultState None [] 0 id ip port peer_type.

(** Every reference of the peer registry names an object of the store. *)
Definition peer_registry_valid (d : SupporterMonitor) : Prop :=
  Forall (fun r => is_Some (peers d !! r)) (_monitored_peers d).

(** The count [sort_starving_peers] sorts by: a peer without an entry in
    [number_of_assignments] counts as 0. *)
Definition assignment_count (d : SupporterMonitor) (p : ref) : Z :=
  match peer_id_of d p with
  | Some id => default 0 (number_of_assignments d !! id)
  | None => 0
  end.

(** The computation keeps the invariant [I], on both exits. *)
Definition preserves {S A} (I : S -> Prop) (m : M S A) : Prop :=
  forall s, I s -> I (final_state (m s)).

(** No roster is longer than the max_peer of its supporter. *)
Definition within_capacity (d : SupporterMonitor) : Prop :=
  forall s sup, supporters d !! s = Some sup ->
                Z.of_nat (length (_supported_peers sup)) <= _max_peer sup.

(** The call of [receive_peer_list] that [dispatch_peer_lists] makes for the
    supporter [s]: none for a supporter whose list did not change or that has
    no proxy. *)
Definition peer_list_for (env : Env) (proxies : gmap supporter_key_t proxy)
    (d : SupporterMonitor) (s : ref)
    : option (proxy * list (string * string * Z) * bool) :=
  match supporters d !! s with
  | Some sup =>
      if _updated sup then
        match proxies !! supporter_key sup with
        | Some p =>
            Some (p, peers_to_be_unchoked d s,
                  negb (receive_peer_list_raises env p (peers_to_be_unchoked d s)))
        | None => None
        end
      else None
  | None => None
  end.

(** The probe of the registered supporter [s] fails: [proxy.is_alive()]
    raises. *)
Definition probe_fails (env : Env) (proxies : gmap supporter_key_t proxy)
    (d : SupporterMonitor) (s : ref) : bool :=
  match supporter_key_of d s ≫= (fun k => proxies !! k) with
  | Some p => is_alive_raises env p
  | None => false
  end.

(** The computation takes every state to a state related to it by [R], on
    both exits. *)
Definition relates {S A} (R : S -> S -> Prop) (m : M S A) : Prop :=
  forall s, R s (final_state (m s)).

(** From [d0] to [d] nobody was registered and no identity changed: the
    stores hold the same objects with the fields they were created with, and
    the two registries lost entries at most. *)
Definition same_identities (d0 d : SupporterMonitor) : Prop :=
  map static_fields (peers d) = map static_fields (peers d0) /\
  map supporter_key (supporters d) = map supporter_key (supporters d0) /\
  sublist (_monitored_peers d) (_monitored_peers d0) /\
  sublist (_monitored_supporters d) (_monitored_supporters d0).

(** The identity tuples of the registered peers and of the registered
    supporters, in the order of the registries. *)
Definition peer_identities (d : SupporterMonitor) : list (option (string * string * Z)) :=
  map (fun r => peer_key <$> peers d !! r) (_monitored_peers d).

Definition supporter_identities (d : SupporterMonitor) : list (option supporter_key_t) :=
  map (supporter_key_of d) (_monitored_supporters d).

(** Every entry of a registry is an object, and no two entries of a registry
    are equal by [__eq__]. *)
Definition registries_distinct (d : SupporterMonitor) : Prop :=
  peer_registry_valid d /\ NoDup (peer_identities d) /\
  Forall (fun s => is_Some (supporters d !! s)) (_monitored_supporters d) /\
  NoDup (supporter_identities d).

(** The last message of the peer [r] is [PEER_REMOVAL_TIME] old or older. *)
Definition peer_is_stale (now : Z) (d : SupporterMonitor) (r : ref) : bool :=
  match peers d !! r with
  | Some p =>
      match _ts_last_received_msg p with
      | Some t => PEER_REMOVAL_TIME <=? now - t
      | None => false
      end
  | None => false
  end.

(** ** Specifications *)

(** *** The peer record *)

Lemma set_state_fields st m :
  _ts_list (set_state st m) = _ts_list m /\
  _support_requests (set_state st m) = _support_requests m /\
  _last_received_msg (set_state st m) = _last_received_msg m /\
  _state (set_state st m) = st.
Proof. done. Qed.

Lemma peer_is_alive_set_state now st m :
  peer_is_alive now (set_state st m) = peer_is_alive now m.
Proof. done. Qed.

(** What the Starving transition does to a peer that is not alive: the cycle
    is reset, and the state is Default unless the last message was
    PEER_SUPPORTED, in which case the second [if] moves it on to Supported. *)
Lemma StarvingState_transition_not_alive now m :
  peer_is_alive now m = false ->
  cycle_is_reset (StarvingState_transition now m) /\
  _state (StarvingState_transition now m) =
    (if bool_decide (_last_received_msg m = Some MSG_PEER_SUPPORTED)
     then SupportedState else DefaultState).
Proof.
  intros Halive. unfold StarvingState_transition. rewrite Halive. simpl.
  case_bool_decide; done.
Qed.

(** C3 (code defect). A Starving peer whose last request is 10 s old is not
    alive; when the message that triggers the step is PEER_SUPPORTED, the
    step leaves it Supported (with the cycle reset) and not Default. *)
Theorem C3_starving_not_alive_peer_supported :
  let m := peer_run (replicate 4 (1000, OpReceive MSG_SUPPORT_REQUIRED))
             (new_peer "F" "192.168.2.50" 10000) in
  _state m = StarvingState /\
  peer_is_alive 11000 m = false /\
  exists m', receive_msg 11000 MSG_PEER_SUPPORTED m = Ok tt m' /\
             _state m' = SupportedState /\ cycle_is_reset m'.
Proof.
  vm_compute. split; [done|]. split; [done|]. eexists. split; [reflexivity|]. done.
Qed.



(** **** The request window *)

(** The window after a step of the state machine is the window before it, or
    it is empty; the same holds when the step raises. *)
Lemma transition_ts_list now m :
  _ts_list (final_state (transition now m)) = _ts_list m \/
  _ts_list (final_state (transition now m)) = [].
Proof.
  unfold transition, bind, get, modify.
  destruct (_state m) eqn:Hst; simpl.
  - unfold DefaultState_transition. case_match; by left.
  - unfold WatchedState_transition, support_requests_are_within_approval_interval.
    unfold bind, get, modify, raise, ret.
    destruct (peer_is_alive now m); simpl; [|by right].
    destruct (last_msg_is MSG_SUPPORT_NOT_NEEDED m); simpl; [by left|].
    destruct (last_msg_is MSG_SUPPORT_REQUIRED m); simpl; [|by left].
    destruct (get_ts_last_request m), (get_ts_first_request m); simpl; try by left.
    case_match; by left.
  - unfold StarvingState_transition.
    destruct (peer_is_alive now m); simpl; repeat case_bool_decide; simpl; auto.
  - unfold SupportedState_transition.
    destruct (peer_is_alive now m); simpl; [|by right].
    case_match; by left.
Qed.

Lemma received_support_required_message_ts_list now m :
  _ts_list (received_support_required_message now m) =
    if PEER_REQUIRED_MSGS <? Z.of_nat (length (_ts_list m ++ [now]))
    then drop 1 (_ts_list m ++ [now])
    else _ts_list m ++ [now].
Proof.
  unfold received_support_required_message. simpl. by case_match.
Qed.

Lemma window_inv_nil now : window_inv now [].
Proof. split; [simpl; lia|]. split; constructor. Qed.

Lemma window_inv_mono now now' l : now <= now' -> window_inv now l -> window_inv now' l.
Proof.
  intros Hle (Hlen & Hs & Hall). repeat split; try done.
  eapply Forall_impl; [exact Hall|]. simpl. intros. lia.
Qed.

Lemma StronglySorted_snoc (l : list Z) (x : Z) :
  StronglySorted Z.le l -> Forall (fun t => t <= x) l -> StronglySorted Z.le (l ++ [x]).
Proof.
  induction l as [|y l IH]; intros Hs Hall; simpl.
  - repeat constructor.
  - apply StronglySorted_inv in Hs as [Hs Hy].
    apply Forall_cons in Hall as [Hyx Hall].
    constructor; [by apply IH|].
    apply Forall_app. split; [done|]. by repeat constructor.
Qed.

Lemma StronglySorted_drop (l : list Z) (n : nat) :
  StronglySorted Z.le l -> StronglySorted Z.le (drop n l).
Proof.
  revert n. induction l as [|y l IH]; intros [|n] Hs; simpl; try done.
  apply IH. by apply StronglySorted_inv in Hs as [Hs _].
Qed.

Lemma window_inv_received_support_required now m :
  window_inv now (_ts_list m) ->
  window_inv now (_ts_list (received_support_required_message now m)).
Proof.
  intros (Hlen & Hs & Hall).
  rewrite received_support_required_message_ts_list.
  assert (Hsn : StronglySorted Z.le (_ts_list m ++ [now])) by by apply StronglySorted_snoc.
  assert (Halln : Forall (fun t => t <= now) (_ts_list m ++ [now])).
  { apply Forall_app. split; [done|]. repeat constructor. lia. }
  unfold PEER_REQUIRED_MSGS in *.
  destruct (4 <? Z.of_nat (length (_ts_list m ++ [now]))) eqn:Hfull.
  - repeat split.
    + rewrite length_drop, length_app. simpl. unfold PEER_REQUIRED_MSGS in *. lia.
    + by apply StronglySorted_drop.
    + by apply Forall_drop.
  - apply Z.ltb_ge in Hfull. repeat split; try done. unfold PEER_REQUIRED_MSGS. lia.
Qed.

Lemma window_inv_msg_handler now k m :
  window_inv now (_ts_list m) -> window_inv now (_ts_list (msg_handler now k m)).
Proof.
  intros Hinv. destruct k; simpl; try done.
  - by apply window_inv_received_support_required.
  - unfold received_support_not_needed_message, start_timeout_timer.
    case_match; simpl; apply window_inv_nil.
Qed.

Lemma window_inv_transition now m :
  window_inv now (_ts_list m) -> window_inv now (_ts_list (final_state (transition now m))).
Proof.
  intros Hinv. destruct (transition_ts_list now m) as [-> | ->]; [done|apply window_inv_nil].
Qed.

Lemma window_inv_peer_step now op m :
  window_inv now (_ts_list m) -> window_inv now (_ts_list (final_state (peer_step now op m))).
Proof.
  intros Hinv. destruct op; simpl; try done.
  - unfold receive_msg, bind, modify. simpl.
    pose proof (window_inv_transition now (msg_handler now msg_type (set_last_received msg_type now m)))
      as Ht.
    destruct (transition now _); simpl in *; apply Ht; by apply window_inv_msg_handler.
  - apply window_inv_nil.
  - by apply window_inv_transition.
Qed.

Lemma window_inv_peer_run tr : forall now m,
  window_inv now (_ts_list m) ->
  StronglySorted Z.le (now :: map fst tr) ->
  exists now', window_inv now' (_ts_list (peer_run tr m)).
Proof.
  induction tr as [|[t op] tr IH]; intros now m Hinv Hs; simpl.
  - by exists now.
  - apply StronglySorted_inv in Hs as [Hs Hnow].
    apply Forall_cons in Hnow as [Hle _]. simpl in Hle.
    apply (IH t); [|done].
    apply window_inv_peer_step. by apply (window_inv_mono now).
Qed.

Lemma last_snoc_drop (l : list Z) (x : Z) (n : nat) :
  (n <= length l)%nat -> last (drop n (l ++ [x])) = Some x.
Proof. intros Hn. rewrite drop_app_le by done. apply last_snoc. Qed.

Lemma received_support_required_message_last now m :
  get_ts_last_request (received_support_required_message now m) = Some now.
Proof.
  unfold get_ts_last_request. rewrite received_support_required_message_ts_list.
  case_match.
  - apply last_snoc_drop.
    destruct (_ts_list m); simpl in *; [|lia]. unfold PEER_REQUIRED_MSGS in *. done.
  - apply last_snoc.
Qed.

(** A step of the state machine on a peer that is alive keeps the window. *)
Lemma transition_alive_ts_list now m :
  peer_is_alive now m = true ->
  _ts_list (final_state (transition now m)) = _ts_list m.
Proof.
  intros Halive. unfold transition, bind, get, modify.
  destruct (_state m) eqn:Hst; simpl.
  - unfold DefaultState_transition. by case_match.
  - unfold WatchedState_transition, support_requests_are_within_approval_interval.
    unfold bind, get, modify, raise, ret. rewrite Halive. simpl.
    destruct (last_msg_is MSG_SUPPORT_NOT_NEEDED m); simpl; [done|].
    destruct (last_msg_is MSG_SUPPORT_REQUIRED m); simpl; [|done].
    destruct (get_ts_last_request m), (get_ts_first_request m); simpl; try done.
    by case_match.
  - unfold StarvingState_transition. rewrite Halive. simpl.
    repeat case_bool_decide; done.
  - unfold SupportedState_transition. rewrite Halive. simpl. by case_match.
Qed.

Lemma receive_msg_support_required_ts_list now m :
  0 < _is_alive_timeout m ->
  _ts_list (final_state (receive_msg now MSG_SUPPORT_REQUIRED m)) =
  _ts_list (received_support_required_message now m).
Proof.
  intros Htimeout. unfold receive_msg, bind, modify.
  set (m1 := msg_handler now MSG_SUPPORT_REQUIRED (set_last_received MSG_SUPPORT_REQUIRED now m)).
  assert (Halive : peer_is_alive now m1 = true).
  { unfold peer_is_alive, m1. simpl.
    rewrite received_support_required_message_last.
    assert (Hsame : _is_alive_timeout
              (received_support_required_message now
                 (set_last_received MSG_SUPPORT_REQUIRED now m)) = _is_alive_timeout m).
    { unfold received_support_required_message. by case_match. }
    rewrite Hsame. apply Z.ltb_lt. lia. }
  pose proof (transition_alive_ts_list now m1 Halive) as Hkeep.
  destruct (transition now m1); simpl in *; rewrite Hkeep; unfold m1; simpl;
    rewrite !received_support_required_message_ts_list; done.
Qed.

(** C8. From a new peer and over any operations read off a nondecreasing
    clock, the request window holds at most PEER_REQUIRED_MSGS timestamps in
    nondecreasing order; the handler of SUPPORT_REQUIRED drops exactly the
    oldest entry of a full window and appends the new one, on a shorter
    window it only appends; and with a positive is-alive bound this is the
    window after the whole receipt, transition included. *)
Theorem C8_request_window (id ip : string) (port peer_type : Z)
    (is_alive_timeout peer_timeout : option Z) (m0 : MonitoredPeer)
    (tr : list (Z * peer_op)) :
  MonitoredPeer_init id ip port peer_type is_alive_timeout peer_timeout = inr m0 ->
  StronglySorted Z.le (map fst tr) ->
  (Z.of_nat (length (_ts_list (peer_run tr m0))) <= PEER_REQUIRED_MSGS /\
   StronglySorted Z.le (_ts_list (peer_run tr m0))) /\
  (forall now m,
     Z.of_nat (length (_ts_list m)) = PEER_REQUIRED_MSGS ->
     _ts_list (received_support_required_message now m) = drop 1 (_ts_list m) ++ [now]) /\
  (forall now m,
     Z.of_nat (length (_ts_list m)) < PEER_REQUIRED_MSGS ->
     _ts_list (received_support_required_message now m) = _ts_list m ++ [now]) /\
  (forall now m,
     0 < _is_alive_timeout m ->
     Z.of_nat (length (_ts_list m)) = PEER_REQUIRED_MSGS ->
     _ts_list (final_state (receive_msg now MSG_SUPPORT_REQUIRED m))
       = drop 1 (_ts_list m) ++ [now]).
Proof.
  intros Hinit Hclock.
  assert (Hfull : forall now m,
     Z.of_nat (length (_ts_list m)) = PEER_REQUIRED_MSGS ->
     _ts_list (received_support_required_message now m) = drop 1 (_ts_list m) ++ [now]).
  { intros now m Hfull. rewrite received_support_required_message_ts_list.
    rewrite length_app. simpl. unfold PEER_REQUIRED_MSGS in *.
    destruct (4 <? Z.of_nat (length (_ts_list m) + 1)) eqn:Hc.
    - destruct (_ts_list m); [simpl in Hfull; lia|done].
    - apply Z.ltb_ge in Hc. lia. }
  split; [|split; [exact Hfull|split]];
    [| |intros now m Htimeout Hlen;
        rewrite receive_msg_support_required_ts_list by done; by apply Hfull].
  - assert (Hm0 : _ts_list m0 = []).
    { unfold MonitoredPeer_init in Hinit. repeat case_match; try done. by simplify_eq. }
    destruct tr as [|[t op] tr].
    + simpl. rewrite Hm0. split; [done|constructor].
    + destruct (window_inv_peer_run ((t, op) :: tr) t m0) as (now' & Hlen & Hs & _).
      * rewrite Hm0. apply window_inv_nil.
      * simpl in *. constructor; [done|].
        apply StronglySorted_inv in Hclock as [_ Hall].
        constructor; [lia|done].
      * split; [|done]. unfold PEER_REQUIRED_MSGS in *. lia.
  - intros now m Hshort. rewrite received_support_required_message_ts_list.
    rewrite length_app. simpl. unfold PEER_REQUIRED_MSGS in *.
    destruct (4 <? Z.of_nat (length (_ts_list m) + 1)) eqn:Hc; [|done].
    apply Z.ltb_lt in Hc. lia.
Qed.

Lemma C8_request_window_witness :
  let tr := [(1000, OpReceive MSG_SUPPORT_REQUIRED); (1100, OpReceive MSG_SUPPORT_REQUIRED);
             (1200, OpReceive MSG_SUPPORT_REQUIRED); (1300, OpReceive MSG_SUPPORT_REQUIRED);
             (1400, OpReceive MSG_SUPPORT_REQUIRED); (1400, OpTransition)] in
  Z.of_nat (length (_ts_list (peer_run tr (new_peer "F" "192.168.2.50" 10000)))) <= PEER_REQUIRED_MSGS /\
  StronglySorted Z.le (_ts_list (peer_run tr (new_peer "F" "192.168.2.50" 10000))).
Proof.
  intros tr.
  refine (proj1 (C8_request_window "F" "192.168.2.50" 10000 PEER_TYPE_LEECHER None None
                   (new_peer "F" "192.168.2.50" 10000) tr _ _)).
  - reflexivity.
  - simpl. repeat constructor; lia.
Defined.

(** *** The coordinator on the scenarios of the tests *)



(** C2 (code defect). S1 (min 2, max 2) and S2 (min 1, max 1) are registered
    and three peers starve.  The activation phase accepts both supporters, S2
    first.  While S1 is being activated the two remaining peers are assigned
    to S2 again, which was full after the first one: S2 ends with three peers
    on a roster of capacity 1 and the activated S1 with none. *)
Theorem C2_activation_assigns_to_first_supporter :
  let before := run all_answer scenario_two_small_supporters initial_monitor in
  let inactive_supporters := sorted_list_of_inactive_supporters before in
  let starving_peers := filter_peers_by_state StarvingState before in
  let phase := _check_for_activation_of_new_supporters 2000 before in
  let after := final_state phase in
  starving_peers = [0%nat; 1%nat; 2%nat] /\
  map fst inactive_supporters = [1%nat; 0%nat] /\
  retrieve_activation_index before starving_peers inactive_supporters = 1 /\
  value_of phase = Some tt /\
  supporter_in after 0%nat (_active_supporters after) = true /\
  roster_of after 0%nat = Some [] /\
  max_peer_of after 1%nat = Some 1 /\
  roster_of after 1%nat = Some [0%nat; 1%nat; 2%nat].
Proof. vm_compute. repeat split; reflexivity. Qed.

(** C1 (code defect). S1 (min 2, max 2) and S2 (min 1, max 1) are registered
    and three peers starve.  The state after one update is reachable, and in
    it the registered supporter S2, whose max_peer is 1, has three peers on
    its roster. *)
Theorem C1_roster_exceeds_max_peer :
  let d := run all_answer (scenario_two_small_supporters ++ [Tick 2000]) initial_monitor in
  reachable all_answer d /\
  _monitored_supporters d = [0%nat; 1%nat] /\
  max_peer_of d 1%nat = Some 1 /\
  roster_of d 1%nat = Some [0%nat; 1%nat; 2%nat].
Proof.
  split.
  - exists None, None, (scenario_two_small_supporters ++ [Tick 2000]). reflexivity.
  - vm_compute. repeat split; reflexivity.
Qed.

(** A peer can also sit on two rosters: P leaves Supported and starves again
    between two updates, so it is still on the roster of the first supporter
    when the next update assigns it to the second one. *)
Lemma peer_on_two_rosters :
  let d := run all_answer scenario_starving_again initial_monitor in
  reachable all_answer d /\
  _monitored_supporters d = [0%nat; 1%nat] /\
  roster_of d 0%nat = Some [0%nat] /\
  roster_of d 1%nat = Some [1%nat; 0%nat].
Proof.
  split.
  - exists None, None, scenario_starving_again. reflexivity.
  - vm_compute. repeat split; reflexivity.
Qed.

(** *** Registration of supporters *)

Lemma lock_release_acquire d : lock_release (lock_acquire d) = d.
Proof. by destruct d. Qed.


Lemma MonitoredSupporter_init_accepts id addr min_peer max_peer :
  1024 <= addr.2 -> min_peer <= max_peer ->
  MonitoredSupporter_init id addr min_peer max_peer =
    inr (mkMonitoredSupporter id addr min_peer max_peer [] true).
Proof.
  intros Hp Hm. unfold MonitoredSupporter_init.
  apply Z.leb_le in Hp, Hm. by rewrite Hp, Hm.
Qed.




(** *** The update: lock, timers and exceptions *)

Section Frame.
Context {A B : Type}.

Lemma same_lock_and_timers_refl d : same_lock_and_timers d d.
Proof. done. Qed.

Lemma same_lock_and_timers_trans d1 d2 d3 :
  same_lock_and_timers d1 d2 -> same_lock_and_timers d2 d3 -> same_lock_and_timers d1 d3.
Proof. intros [? ?] [? ?]. split; congruence. Qed.

Lemma keeps_ret (a : A) : keeps_lock_and_timers (ret a).
Proof. intros d. apply same_lock_and_timers_refl. Qed.

Lemma keeps_raise (e : exn) : keeps_lock_and_timers (raise e : M SupporterMonitor A).
Proof. intros d. apply same_lock_and_timers_refl. Qed.

Lemma keeps_bind (m : M SupporterMonitor A) (k : A -> M SupporterMonitor B) :
  keeps_lock_and_timers m -> (forall a, keeps_lock_and_timers (k a)) ->
  keeps_lock_and_timers (bind m k).
Proof.
  intros Hm Hk d. unfold bind. specialize (Hm d).
  destruct (m d) as [a d'|e d']; simpl in *; [|done].
  eapply same_lock_and_timers_trans; [exact Hm|apply Hk].
Qed.

Lemma keeps_for_each (l : list A) (body : A -> M SupporterMonitor unit) :
  (forall x, keeps_lock_and_timers (body x)) -> keeps_lock_and_timers (for_each l body).
Proof.
  intros Hbody. induction l as [|x l IH]; simpl.
  - intros d. apply same_lock_and_timers_refl.
  - intros d. unfold bind. specialize (Hbody x d).
    destruct (body x d) as [[] d'|e d']; simpl in *; [|done].
    eapply same_lock_and_timers_trans; [exact Hbody|apply IH].
Qed.
End Frame.

Lemma keeps_get : keeps_lock_and_timers get.
Proof. intros d. apply same_lock_and_timers_refl. Qed.

Lemma keeps_modify (f : SupporterMonitor -> SupporterMonitor) :
  (forall d, same_lock_and_timers d (f d)) -> keeps_lock_and_timers (modify f).
Proof. intros Hf d. apply Hf. Qed.

Lemma keeps_on_peer r (f : M MonitoredPeer unit) : keeps_lock_and_timers (on_peer r f).
Proof.
  intros d. unfold on_peer. destruct (peers d !! r) as [p|]; [|done].
  by destruct (f p).
Qed.

Lemma keeps_on_supporter r f : keeps_lock_and_timers (on_supporter r f).
Proof. by intros d. Qed.

Create HintDb frame.
#[local] Hint Resolve keeps_get keeps_on_peer keeps_on_supporter : frame.
#[local] Hint Extern 1 (keeps_lock_and_timers (ret _)) => apply keeps_ret : frame.
#[local] Hint Extern 1 (keeps_lock_and_timers (raise _)) => apply keeps_raise : frame.

(** One step through the syntax of a computation. *)
Ltac frame_step :=
  lazymatch goal with
  | |- keeps_lock_and_timers (bind _ _) => apply keeps_bind; [|intros ?]
  | |- keeps_lock_and_timers (for_each _ _) => apply keeps_for_each; intros ?
  | |- keeps_lock_and_timers (modify _) =>
      apply keeps_modify; intros ?; repeat case_match; done
  | |- keeps_lock_and_timers (if ?b then _ else _) => destruct b
  | |- keeps_lock_and_timers (match ?x with _ => _ end) => destruct x
  | |- keeps_lock_and_timers _ => solve [eauto with frame]
  end.

Ltac frame := repeat frame_step.

Lemma keeps_add_supported_peer s p : keeps_lock_and_timers (add_supported_peer s p).
Proof. unfold add_supported_peer. frame. Qed.

Lemma keeps_remove_supported_peer s p : keeps_lock_and_timers (remove_supported_peer s p).
Proof. unfold remove_supported_peer. frame. Qed.

#[local] Hint Resolve keeps_add_supported_peer keeps_remove_supported_peer : frame.

Lemma keeps_cancel_support_for_all_peers s :
  keeps_lock_and_timers (cancel_support_for_all_peers s).
Proof. unfold cancel_support_for_all_peers. frame. Qed.

Lemma keeps_update_supported_peer_list s :
  keeps_lock_and_timers (update_supported_peer_list s).
Proof. unfold update_supported_peer_list. frame. Qed.

Lemma keeps_reset_update_counter s : keeps_lock_and_timers (reset_update_counter s).
Proof. unfold reset_update_counter. frame. Qed.

Lemma keeps_unregister_proxy s : keeps_lock_and_timers (unregister_proxy s).
Proof. unfold unregister_proxy. frame. Qed.

Lemma keeps_order_active_supporters : keeps_lock_and_timers order_active_supporters.
Proof. unfold order_active_supporters. frame. Qed.

#[local] Hint Resolve keeps_cancel_support_for_all_peers keeps_update_supported_peer_list
  keeps_reset_update_counter keeps_unregister_proxy keeps_order_active_supporters : frame.

Lemma keeps_unregister_monitored_peer r :
  keeps_lock_and_timers (unregister_monitored_peer r).
Proof. unfold unregister_monitored_peer. frame. Qed.

Lemma keeps_unregister_monitored_supporter s :
  keeps_lock_and_timers (unregister_monitored_supporter s).
Proof. unfold unregister_monitored_supporter. frame. Qed.

Lemma keeps_assign_peer_to_supporter now p s :
  keeps_lock_and_timers (assign_peer_to_supporter now p s).
Proof. unfold assign_peer_to_supporter. frame. Qed.

Lemma keeps_activate_supporter s : keeps_lock_and_timers (activate_supporter s).
Proof. unfold activate_supporter. frame. Qed.

#[local] Hint Resolve keeps_unregister_monitored_peer keeps_unregister_monitored_supporter
  keeps_assign_peer_to_supporter keeps_activate_supporter : frame.

Lemma keeps_query_all_supporters env : keeps_lock_and_timers (query_all_supporters env).
Proof. unfold query_all_supporters. frame. Qed.

Lemma keeps_dispatch_peer_lists env : keeps_lock_and_timers (dispatch_peer_lists env).
Proof. unfold dispatch_peer_lists. frame. Qed.

Lemma keeps_remove_timedout_peers now : keeps_lock_and_timers (_remove_timedout_peers now).
Proof. unfold _remove_timedout_peers. frame. Qed.

Lemma keeps_remove_dead_supporters : keeps_lock_and_timers _remove_dead_supporters.
Proof. unfold _remove_dead_supporters. frame. Qed.

Lemma keeps_enforce_update_of_monitored_peers now :
  keeps_lock_and_timers (_enforce_update_of_monitored_peers now).
Proof. unfold _enforce_update_of_monitored_peers. frame. Qed.

Lemma keeps_update_active_supporters active :
  keeps_lock_and_timers (update_active_supporters active).
Proof. induction active as [|supporter rest IH]; simpl; frame. Qed.

#[local] Hint Resolve keeps_update_active_supporters : frame.

Lemma keeps_enforce_update_of_monitored_supporters :
  keeps_lock_and_timers _enforce_update_of_monitored_supporters.
Proof. unfold _enforce_update_of_monitored_supporters. frame. Qed.

Lemma keeps_snapshot now : keeps_lock_and_timers (snapshot now).
Proof. unfold snapshot. frame. Qed.

Lemma keeps_assign_starving_loop now l : keeps_lock_and_timers (assign_starving_loop now l).
Proof. induction l as [|peer rest IH]; simpl; frame. Qed.

Lemma keeps_assign_until_full now first l :
  keeps_lock_and_timers (assign_until_full now first l).
Proof. induction l as [|peer rest IH]; simpl; frame. Qed.

#[local] Hint Resolve keeps_assign_starving_loop keeps_assign_until_full : frame.

Lemma keeps_activate_loop now first to_activate : forall starving_peers,
  keeps_lock_and_timers (activate_loop now first to_activate starving_peers).
Proof.
  induction to_activate as [|[s min_peer] more IH]; intros starving_peers; simpl; frame.
Qed.

#[local] Hint Resolve keeps_activate_loop : frame.

Lemma keeps_assign_starving_peers_to_active_supporters now :
  keeps_lock_and_timers (_assign_starving_peers_to_active_supporters now).
Proof. unfold _assign_starving_peers_to_active_supporters. frame. Qed.

Lemma keeps_check_for_activation_of_new_supporters now :
  keeps_lock_and_timers (_check_for_activation_of_new_supporters now).
Proof.
  unfold _check_for_activation_of_new_supporters, activate_supporters_and_assign_peers.
  frame.
Qed.

#[local] Hint Resolve keeps_query_all_supporters keeps_dispatch_peer_lists
  keeps_remove_timedout_peers keeps_remove_dead_supporters
  keeps_enforce_update_of_monitored_peers keeps_enforce_update_of_monitored_supporters
  keeps_snapshot keeps_assign_starving_peers_to_active_supporters
  keeps_check_for_activation_of_new_supporters : frame.

Lemma keeps_update_states_body env now : keeps_lock_and_timers (update_states_body env now).
Proof. unfold update_states_body, _mark_dead_supporters. frame. Qed.

Section NeverRaises.
Context {S A B : Type}.

Lemma never_raises_ret (a : A) : never_raises (ret a : M S A).
Proof. intros s. by eexists _, _. Qed.

Lemma never_raises_modify (f : S -> S) : never_raises (modify f).
Proof. intros s. by eexists _, _. Qed.

Lemma never_raises_bind (m : M S A) (k : A -> M S B) :
  never_raises m -> (forall a, never_raises (k a)) -> never_raises (bind m k).
Proof.
  intros Hm Hk s. unfold bind. destruct (Hm s) as (a & s' & ->). apply Hk.
Qed.

Lemma never_raises_for_each_on (l : list A) (body : A -> M S unit) :
  (forall x, x ∈ l -> never_raises (body x)) -> never_raises (for_each l body).
Proof.
  induction l as [|x l IH]; intros Hbody; simpl.
  - intros s. by eexists _, _.
  - intros s. unfold bind.
    destruct (Hbody x (list_elem_of_here x l) s) as (a & s' & ->).
    apply IH. intros y Hy. apply Hbody. by apply list_elem_of_further.
Qed.
End NeverRaises.

Lemma never_raises_get {S} : never_raises (get : M S S).
Proof. intros s. by eexists _, _. Qed.

Lemma never_raises_reset_update_counter s : never_raises (reset_update_counter s).
Proof.
  unfold reset_update_counter. apply never_raises_bind; [apply never_raises_get|].
  intros d. apply never_raises_bind; [apply never_raises_modify|].
  intros _. apply never_raises_ret.
Qed.

(** Whatever the supporters answer, dispatching the rosters returns. *)
Lemma never_raises_dispatch_peer_lists env : never_raises (dispatch_peer_lists env).
Proof.
  unfold dispatch_peer_lists. apply never_raises_bind; [apply never_raises_get|].
  intros d. destruct (_dispatcher d) as [proxies|]; [|apply never_raises_ret].
  apply never_raises_for_each_on. intros supporter _.
  apply never_raises_bind; [apply never_raises_reset_update_counter|].
  intros changed. destruct changed; simpl; [|apply never_raises_ret].
  apply never_raises_bind; [apply never_raises_get|].
  intros d'. destruct (supporter_key_of d' supporter ≫= _);
    [apply never_raises_modify|apply never_raises_ret].
Qed.

(** Whatever the supporters answer, probing them returns when every
    registered supporter has its proxy. *)
Lemma query_all_supporters_returns env d :
  every_supporter_has_proxy d -> exists d', query_all_supporters env d = Ok tt d'.
Proof.
  intros Hproxy. unfold query_all_supporters, bind, get. unfold every_supporter_has_proxy in Hproxy.
  destruct (_dispatcher d) as [proxies|]; [|by eexists].
  assert (Hloop : never_raises (for_each (_monitored_supporters d) (fun supporter =>
            match supporter_key_of d supporter with
            | None => ret tt
            | Some k =>
                match proxies !! k with
                | None => raise KeyError
                | Some p =>
                    if is_alive_raises env p
                    then modify (fun d' => set_dead_supporters (_dead_supporters d' ++ [supporter]) d')
                    else ret tt
                end
            end))).
  { apply never_raises_for_each_on. intros s Hs.
    destruct (supporter_key_of d s) as [k|] eqn:Hk; [|apply never_raises_ret].
    destruct (Hproxy s k Hs Hk) as [p ->].
    destruct (is_alive_raises env p); [apply never_raises_modify|apply never_raises_ret]. }
  destruct (Hloop d) as ([] & d' & Hd'). by exists d'.
Qed.

(** C4, as the code has it.  [update_states] has a [finally] and no
    [except]: the lock is back at its depth on both exits; an exception of
    the body leaves [update_states] as that exception and no timer is started
    for the next update; when the body returns, [update_states] returns and
    the next update is scheduled.  What the dispatcher catches itself are the
    failures of the remote calls: dispatching returns whatever the supporters
    answer, and so does probing when every registered supporter has its
    proxy. *)
Theorem C4_update_states_exceptions (env : Env) (now : Z) (d : SupporterMonitor) :
  let body := update_states_body env now (lock_acquire d) in
  let call := update_states env now d in
  _lock (final_state call) = _lock d /\
  (forall e, exception_of body = Some e ->
     exception_of call = Some e /\ timers (final_state call) = timers d) /\
  (exception_of body = None ->
     value_of call = Some tt /\
     timers (final_state call) = (timers d + (if main_thread_alive env then 1 else 0))%nat) /\
  value_of (dispatch_peer_lists env d) = Some tt /\
  (every_supporter_has_proxy d -> value_of (query_all_supporters env d) = Some tt).
Proof.
  intros body call. subst body call.
  pose proof (keeps_update_states_body env now (lock_acquire d)) as [Hlock Htimers].
  unfold update_states, bind, modify, try_finally, schedule_next_asynchronous_update.
  assert (Hdispatch : value_of (dispatch_peer_lists env d) = Some tt).
  { by destruct (never_raises_dispatch_peer_lists env d) as ([] & d' & ->). }
  assert (Hquery : every_supporter_has_proxy d ->
                   value_of (query_all_supporters env d) = Some tt).
  { intros Hproxy. by destruct (query_all_supporters_returns env d Hproxy) as (d' & ->). }
  destruct (update_states_body env now (lock_acquire d)) as [[] d1|e d1] eqn:Hbody;
    simpl in Hlock, Htimers.
  - split; [destruct (main_thread_alive env); simpl; by rewrite Hlock|].
    split; [done|].
    split; [|split; done].
    intros _. destruct (main_thread_alive env); simpl; (split; [done|lia]).
  - split; [simpl; by rewrite Hlock|].
    split; [by intros e' [= <-]|].
    split; [done|]. split; done.
Qed.

(** The empty update of the tests: nothing is registered, the body returns
    and the second timer is started. *)
Lemma C4_update_states_exceptions_witness :
  value_of (update_states all_answer 2000 initial_monitor) = Some tt /\
  timers (final_state (update_states all_answer 2000 initial_monitor)) = 2%nat.
Proof.
  destruct (C4_update_states_exceptions all_answer 2000 initial_monitor)
    as (_ & _ & Hok & _ & _).
  destruct Hok as [Hvalue Htimers]; [reflexivity|].
  split; [exact Hvalue|exact Htimers].
Defined.

(** Two peers registered under one ID: the registration message of the second
    goes to the first, so the second has no last-message timestamp and the
    stale-peer reap raises TypeError.  The exception leaves [update_states],
    and the number of timers stays at 1: no next update is scheduled. *)
Lemma C4_counterexample_tick_raises :
  let d := run all_answer scenario_shared_peer_id initial_monitor in
  let call := update_states all_answer 2000 d in
  exception_of call = Some TypeError /\
  timers d = 1%nat /\ timers (final_state call) = 1%nat /\ _lock (final_state call) = 0%nat.
Proof. vm_compute. repeat split; reflexivity. Qed.

(** *** Messages to a peer record *)

Lemma last_of_snoc_drop (l : list Z) (x : Z) (n : nat) :
  (n <= length l)%nat -> is_Some (last (drop n (l ++ [x]))).
Proof.
  intros Hn. rewrite drop_app_le by done. rewrite last_snoc. by eexists.
Qed.

Lemma head_is_Some_of_last (l : list Z) : is_Some (last l) -> is_Some (head l).
Proof. destruct l; simpl; [by intros [? ?]|by eexists]. Qed.

Lemma received_support_required_message_window now m :
  is_Some (get_ts_last_request (received_support_required_message now m)).
Proof.
  unfold get_ts_last_request. rewrite received_support_required_message_ts_list.
  case_match.
  - apply last_of_snoc_drop.
    destruct (_ts_list m); simpl in *; [|lia]. unfold PEER_REQUIRED_MSGS in *. done.
  - rewrite last_snoc. by eexists.
Qed.

(** The TypeError of the Watched transition needs an empty window together
    with SUPPORT_REQUIRED as last message. *)
Lemma transition_returns now m :
  _last_received_msg m <> Some MSG_SUPPORT_REQUIRED \/ is_Some (get_ts_last_request m) ->
  exists m', transition now m = Ok tt m'.
Proof.
  intros Hcase. unfold transition, bind, get, modify.
  destruct (_state m); simpl; try by eexists.
  unfold WatchedState_transition, support_requests_are_within_approval_interval.
  unfold bind, get, modify, raise, ret.
  destruct (peer_is_alive now m); simpl; [|by eexists].
  destruct (last_msg_is MSG_SUPPORT_NOT_NEEDED m); simpl; [by eexists|].
  destruct (last_msg_is MSG_SUPPORT_REQUIRED m) eqn:Hreq; simpl; [|by eexists].
  apply bool_decide_eq_true in Hreq.
  destruct Hcase as [Hne|Hlast]; [done|].
  pose proof (head_is_Some_of_last _ Hlast) as Hfirst.
  unfold get_ts_first_request.
  destruct Hlast as [l ->], Hfirst as [f ->]. simpl.
  case_match; by eexists.
Qed.

Lemma receive_msg_returns now k m : exists m', receive_msg now k m = Ok tt m'.
Proof.
  unfold receive_msg, bind, modify.
  apply transition_returns.
  destruct k; simpl; try (by left).
  - right. apply received_support_required_message_window.
  - left. unfold received_support_not_needed_message, start_timeout_timer.
    by case_match.
Qed.

(** A step of the state machine touches neither the last-message fields nor
    the identity. *)
Lemma transition_keeps_last_received now m m' :
  transition now m = Ok tt m' ->
  _last_received_msg m' = _last_received_msg m /\
  _ts_last_received_msg m' = _ts_last_received_msg m /\
  _id m' = _id m.
Proof.
  unfold transition, bind, get, modify.
  destruct (_state m); simpl.
  - intros [= <-]. unfold DefaultState_transition. by case_match.
  - unfold WatchedState_transition, support_requests_are_within_approval_interval.
    unfold bind, get, modify, raise, ret.
    destruct (peer_is_alive now m); simpl; [|by intros [= <-]].
    destruct (last_msg_is MSG_SUPPORT_NOT_NEEDED m); simpl; [by intros [= <-]|].
    destruct (last_msg_is MSG_SUPPORT_REQUIRED m); simpl; [|by intros [= <-]].
    destruct (get_ts_last_request m), (get_ts_first_request m); simpl; try done.
    case_match; by intros [= <-].
  - intros [= <-]. unfold StarvingState_transition.
    destruct (peer_is_alive now m); simpl; repeat case_bool_decide; done.
  - intros [= <-]. unfold SupportedState_transition.
    destruct (peer_is_alive now m); simpl; [|done]. by case_match.
Qed.

Lemma msg_handler_keeps_last_received now k m :
  _last_received_msg (msg_handler now k m) = _last_received_msg m /\
  _ts_last_received_msg (msg_handler now k m) = _ts_last_received_msg m /\
  _id (msg_handler now k m) = _id m.
Proof.
  destruct k; simpl; try done.
  - unfold received_support_required_message. by case_match.
  - unfold received_support_not_needed_message, start_timeout_timer. by case_match.
Qed.

Lemma receive_msg_last_received now k m m' :
  receive_msg now k m = Ok tt m' ->
  _last_received_msg m' = Some k /\ _ts_last_received_msg m' = Some now /\ _id m' = _id m.
Proof.
  unfold receive_msg, bind, modify. intros Hrun.
  apply transition_keeps_last_received in Hrun as (-> & -> & ->).
  by destruct (msg_handler_keeps_last_received now k (set_last_received k now m))
    as (-> & -> & ->).
Qed.

(** *** Registration of peers *)

Lemma received_peer_message_found now k id d r q q' :
  find_first (has_peer_id d id) (_monitored_peers d) = Some r ->
  peers d !! r = Some q ->
  receive_msg now k q = Ok tt q' ->
  received_peer_message now k id d = Ok tt (set_peers (<[r := q']> (peers d)) d).
Proof.
  intros Hfind Hq Hrecv.
  unfold received_peer_message, bind, modify, try_finally, get.
  change (find_first (has_peer_id (lock_acquire d) id) (_monitored_peers (lock_acquire d)))
    with (find_first (has_peer_id d id) (_monitored_peers d)).
  rewrite Hfind. unfold on_peer.
  change (peers (lock_acquire d)) with (peers d).
  rewrite Hq, Hrecv. by destruct d.
Qed.

Lemma find_first_has_peer_id d id ip port l :
  peer_key_in d (id, ip, port) l = true ->
  exists r q, find_first (has_peer_id d id) l = Some r /\ peers d !! r = Some q /\ _id q = id.
Proof.
  induction l as [|r l IH]; simpl; [done|].
  unfold has_peer_id at 1.
  destruct (peers d !! r) as [q|] eqn:Hq; simpl.
  - destruct (bool_decide (id = _id q)) eqn:Hid.
    + intros _. apply bool_decide_eq_true in Hid. by exists r, q.
    + apply bool_decide_eq_false in Hid. case_bool_decide as Hkey; simpl; [|exact IH].
      unfold peer_key in Hkey. by simplify_eq.
  - exact IH.
Qed.

Lemma MonitoredPeer_init_accepts id ip port peer_type is_alive_timeout peer_timeout :
  1024 <= port -> peer_type ∈ PEER_TYPES ->
  exists mp, MonitoredPeer_init id ip port peer_type is_alive_timeout peer_timeout = inr mp /\
             peer_key mp = (id, ip, port).
Proof.
  intros Hp Ht. unfold MonitoredPeer_init.
  apply Z.leb_le in Hp. rewrite Hp. simpl.
  rewrite bool_decide_eq_true_2 by done. simpl. by eexists.
Qed.

(** C10. Registering an identity tuple that is in the registry returns the
    duplicate sentinel and keeps the registry; the PEER_REGISTERED message is
    delivered all the same, to the first registered record with that ID: its
    last-message kind and timestamp are set and one transition step runs on
    it.  Nothing else in the coordinator changes. *)
Theorem C10_register_duplicate_peer (now : Z) (id ip : string) (port peer_type : Z)
    (d : SupporterMonitor) :
  1024 <= port -> peer_type ∈ PEER_TYPES ->
  peer_key_in d (id, ip, port) (_monitored_peers d) = true ->
  exists r q q',
    find_first (has_peer_id d id) (_monitored_peers d) = Some r /\
    peers d !! r = Some q /\ _id q = id /\
    register_monitored_peer now id ip port peer_type d
      = Ok None (set_peers (<[r := q']> (peers d)) d) /\
    _monitored_peers (set_peers (<[r := q']> (peers d)) d) = _monitored_peers d /\
    receive_msg now MSG_PEER_REGISTERED q = Ok tt q' /\
    transition now (set_last_received MSG_PEER_REGISTERED now q) = Ok tt q' /\
    _last_received_msg q' = Some MSG_PEER_REGISTERED /\
    _ts_last_received_msg q' = Some now.
Proof.
  intros Hport Htype Hdup.
  destruct (find_first_has_peer_id d id ip port _ Hdup) as (r & q & Hfind & Hq & Hid).
  destruct (receive_msg_returns now MSG_PEER_REGISTERED q) as [q' Hrecv].
  destruct (receive_msg_last_received _ _ _ _ Hrecv) as (Hlast & Hts & _).
  exists r, q, q'. repeat split; try done.
  destruct (MonitoredPeer_init_accepts id ip port peer_type
              (Some (mon_is_alive_timeout d)) (Some (mon_peer_timeout d)) Hport Htype)
    as (mp & Hinit & Hkey).
  unfold register_monitored_peer, bind, modify, try_finally, get.
  change (mon_is_alive_timeout (lock_acquire d)) with (mon_is_alive_timeout d).
  change (mon_peer_timeout (lock_acquire d)) with (mon_peer_timeout d).
  rewrite Hinit, Hkey.
  change (peer_key_in (lock_acquire d) (id, ip, port) (_monitored_peers (lock_acquire d)))
    with (peer_key_in d (id, ip, port) (_monitored_peers d)).
  rewrite Hdup. simpl. unfold ret at 1.
  rewrite (received_peer_message_found now MSG_PEER_REGISTERED id (lock_acquire d) r q q')
    by done.
  unfold ret. by destruct d.
Qed.

Lemma C10_register_duplicate_peer_witness :
  let d := run all_answer scenario_min_max_together initial_monitor in
  exists d', register_monitored_peer 3000 "XXX---34920G" "192.168.2.51" 10001
               PEER_TYPE_LEECHER d = Ok None d' /\
             _monitored_peers d' = _monitored_peers d.
Proof.
  intros d.
  destruct (C10_register_duplicate_peer 3000 "XXX---34920G" "192.168.2.51" 10001
              PEER_TYPE_LEECHER d) as (r & q & q' & _ & _ & _ & Hrun & Hreg & _).
  - lia.
  - unfold PEER_TYPES. apply list_elem_of_further, list_elem_of_here.
  - vm_compute. reflexivity.
  - eexists. split; [exact Hrun|exact Hreg].
Defined.

(** *** The assignment counter *)

Lemma add_supported_peer_returns s p d :
  exists d1, add_supported_peer s p d = Ok tt d1 /\
             peers d1 = peers d /\ number_of_assignments d1 = number_of_assignments d.
Proof.
  unfold add_supported_peer, bind, get, on_supporter, modify, ret.
  destruct (negb (peer_in d p (get_supported_peers d s))); by eexists.
Qed.

Lemma order_active_supporters_returns d :
  exists d1, order_active_supporters d = Ok tt d1 /\
             peers d1 = peers d /\ number_of_assignments d1 = number_of_assignments d.
Proof. unfold order_active_supporters, modify. by eexists. Qed.

Lemma on_peer_receive_msg_returns now k p q d :
  peers d !! p = Some q ->
  exists d1, on_peer p (receive_msg now k) d = Ok tt d1 /\
             number_of_assignments d1 = number_of_assignments d.
Proof.
  intros Hq. unfold on_peer. rewrite Hq.
  destruct (receive_msg_returns now k q) as [q' ->]. by eexists.
Qed.

(** C9 (code defect). An assignment that passes the gate of
    [assign_peer_to_supporter] returns, and the counter of the peer's ID is
    then one more than before, where a missing entry counts as 1 and not as
    0: after the first assignment of a peer the map holds 2.  The counters of
    other IDs stay. *)
Theorem C9_assignment_count (now : Z) (p s : ref) (d : SupporterMonitor) (q : MonitoredPeer) :
  peers d !! p = Some q ->
  supporter_in d s (_active_supporters d) = true ->
  exists d', assign_peer_to_supporter now p s d = Ok tt d' /\
    number_of_assignments d' !! _id q =
      Some (match number_of_assignments d !! _id q with Some n => n + 1 | None => 2 end) /\
    (forall id, id <> _id q -> number_of_assignments d' !! id = number_of_assignments d !! id).
Proof.
  intros Hq Hactive.
  unfold assign_peer_to_supporter. unfold bind at 1. unfold get at 1.
  rewrite Hactive. simpl.
  unfold bind at 1.
  destruct (add_supported_peer_returns s p d) as (d1 & -> & Hp1 & Hn1).
  unfold bind at 1.
  destruct (order_active_supporters_returns d1) as (d2 & -> & Hp2 & Hn2).
  unfold bind at 1.
  assert (Hq2 : peers d2 !! p = Some q) by by rewrite Hp2, Hp1.
  destruct (on_peer_receive_msg_returns now MSG_PEER_SUPPORTED p q d2 Hq2) as (d3 & -> & Hn3).
  unfold peer_id_of. rewrite Hq. simpl.
  unfold bind, modify, get, raise, dict_setdefault. simpl.
  rewrite Hn3, Hn2, Hn1.
  destruct (number_of_assignments d !! _id q) as [n|] eqn:Hcount.
  - rewrite Hcount. eexists. split; [reflexivity|]. simpl. split.
    + by rewrite lookup_insert_eq.
    + intros id Hne. by rewrite lookup_insert_ne.
  - rewrite lookup_insert_eq. eexists. split; [reflexivity|]. simpl. split.
    + by rewrite lookup_insert_eq.
    + intros id Hne. by rewrite !lookup_insert_ne.
Qed.

(** On the scenario of the tests: the supporter S2 is activated and the first
    peer, never assigned before, is assigned to it; its counter is 2. *)
Lemma C9_assignment_count_witness :
  let d := final_state (activate_supporter 1%nat
             (run all_answer scenario_min_max_together initial_monitor)) in
  number_of_assignments d !! "XXX---34920F" = None /\
  exists d', assign_peer_to_supporter 2000 0%nat 1%nat d = Ok tt d' /\
             number_of_assignments d' !! "XXX---34920F" = Some 2.
Proof.
  intros d. split; [vm_compute; reflexivity|].
  destruct (C9_assignment_count 2000 0%nat 1%nat d
              (mkMonitoredPeer (Some MSG_SUPPORT_REQUIRED) (Some 1000) 10000 5000
                 StarvingState None [1000; 1000; 1000; 1000] 4
                 "XXX---34920F" "192.168.2.50" 10000 1))
    as (d' & Hrun & Hcount & _).
  - vm_compute. reflexivity.
  - vm_compute. reflexivity.
  - exists d'. split; [exact Hrun|].
    etrans; [exact Hcount|]. vm_compute. reflexivity.
Defined.

(** *** The tests of the repository, replayed

    The assertions of test_monitored_subjects.py and
    test_supporter_monitor.py hold of the embedding; a [time.sleep] is a
    later clock value. *)

Example testMonitoredPeerDefaults :
  MonitoredPeer_init "XXX---34920F" "192.168.2.1" 10333 PEER_TYPE_LEECHER (Some 2000) (Some 1000)
  = inr (mkMonitoredPeer None None 2000 1000 DefaultState None [] 0
           "XXX---34920F" "192.168.2.1" 10333 PEER_TYPE_LEECHER).
Proof. reflexivity. Qed.

Example testMonitoredPeerWithInvalidArguments :
  MonitoredPeer_init "XXX---34920F" "192.168.2.1" 500 PEER_TYPE_LEECHER (Some 2000) (Some 1000)
  = inl AssertionError.
Proof. reflexivity. Qed.

Example testMonitoredPeerStateCorrectNextCycle :
  let required := OpReceive MSG_SUPPORT_REQUIRED in
  let not_needed := OpReceive MSG_SUPPORT_NOT_NEEDED in
  let first_cycle := [(0, required); (0, not_needed)] in
  let second_cycle := first_cycle ++ replicate 6 (0, required) in
  _state (peer_run [(0, required)] peer_of_tests) = WatchedState /\
  _state (peer_run first_cycle peer_of_tests) = DefaultState /\
  cycle_is_reset (peer_run first_cycle peer_of_tests) /\
  _state (peer_run (first_cycle ++ [(0, required)]) peer_of_tests) = WatchedState /\
  _state (peer_run second_cycle peer_of_tests) = StarvingState /\
  _state (peer_run (second_cycle ++ [(0, OpReceive MSG_PEER_SUPPORTED)]) peer_of_tests)
    = SupportedState /\
  _state (peer_run (second_cycle ++ [(0, OpReceive MSG_PEER_SUPPORTED); (0, not_needed);
                                     (1000, OpTransition)]) peer_of_tests)
    = DefaultState.
Proof. vm_compute. repeat split; reflexivity. Qed.

Example testMonitoredPeerStateRequiredMsgsInIntervalNotMet :
  _state (peer_run (replicate 3 (0, OpReceive MSG_SUPPORT_REQUIRED)
                    ++ [(5600, OpReceive MSG_SUPPORT_REQUIRED)]) peer_of_tests)
  = WatchedState.
Proof. reflexivity. Qed.

Example testSlidingWindowOnRequestTime :
  _state (peer_run (replicate 3 (0, OpReceive MSG_SUPPORT_REQUIRED)
                    ++ replicate 4 (5600, OpReceive MSG_SUPPORT_REQUIRED)) peer_of_tests)
  = StarvingState.
Proof. reflexivity. Qed.

Example testInstantiationWithIncorrectParameters :
  MonitoredSupporter_init "1" ("192.168.2.1", 1000) 3 5 = inl AssertionError /\
  MonitoredSupporter_init "1" ("192.168.2.1", 1024) 5 4 = inl AssertionError.
Proof. split; reflexivity. Qed.

Example testPeersRemainInStarvingState :
  let d := run all_answer scenario_peers_remain_starving initial_monitor_of_tests in
  _active_supporters d = [] /\
  states_of_peers d = [Some StarvingState; Some StarvingState].
Proof. vm_compute. split; reflexivity. Qed.

Example testSimpleProtocol :
  let d := run all_answer scenario_simple_protocol initial_monitor_of_tests in
  let d' := run all_answer scenario_simple_protocol_end initial_monitor_of_tests in
  _active_supporters d = [0%nat] /\
  states_of_peers d = [Some SupportedState; Some SupportedState] /\
  _active_supporters d' = [] /\
  states_of_peers d' = [Some DefaultState; Some DefaultState].
Proof. vm_compute. repeat split; reflexivity. Qed.

Example testCorrectOrderOfActiveSupporters :
  _active_supporters
    (run all_answer scenario_order_of_active_supporters initial_monitor_of_tests)
  = [1%nat; 0%nat].
Proof. reflexivity. Qed.

Example testUpdateCallWithoutHavingPeersOrSupportersSucceeds :
  value_of (update_states all_answer 1000 initial_monitor_of_tests) = Some tt.
Proof. reflexivity. Qed.

(** *** Further consequences of the defects *)

(** The second [if] of the Starving transition in a run of the coordinator:
    the only supporter stops answering and is unregistered, its peer is sent
    back to Starving, and the same update moves the peer, which is no longer
    alive, to Supported again although no supporter is left. *)
Lemma dead_supporter_leaves_peer_supported :
  let before := run all_answer scenario_one_supported_peer
                  (SupporterMonitor_init all_answer (Some 2000) (Some 1000)) in
  let after := run nobody_answers [Tick 4000] before in
  states_of_peers before = [Some SupportedState] /\
  roster_of before 0%nat = Some [0%nat] /\
  _monitored_supporters after = [] /\
  _active_supporters after = [] /\
  roster_of after 0%nat = Some [] /\
  states_of_peers after = [Some SupportedState].
Proof. vm_compute. repeat split; reflexivity. Qed.

(** With three starving peers, S2 (min 1) with three free slots before S1
    (min 2) in the list, the activation index is 0 in every state: S2 takes
    the whole starving set and S1 is not accepted. *)
Lemma retrieve_activation_index_min_max_together d s1 s2 p1 p2 p3 :
  available_slots d s2 = 3 ->
  retrieve_activation_index d [p1; p2; p3] [(s2, 1); (s1, 2)] = 0.
Proof.
  intros Hslots. unfold retrieve_activation_index. simpl. by rewrite Hslots.
Qed.

(** ** Further properties of the peer record *)

Lemma transition_static_fields now m :
  static_fields (final_state (transition now m)) = static_fields m.
Proof.
  unfold transition, bind, get, modify.
  destruct (_state m); simpl.
  - unfold DefaultState_transition. by case_match.
  - unfold WatchedState_transition, support_requests_are_within_approval_interval.
    unfold bind, get, modify, raise, ret.
    destruct (peer_is_alive now m); simpl; [|done].
    destruct (last_msg_is MSG_SUPPORT_NOT_NEEDED m); simpl; [done|].
    destruct (last_msg_is MSG_SUPPORT_REQUIRED m); simpl; [|done].
    destruct (get_ts_last_request m), (get_ts_first_request m); simpl; try done.
    by case_match.
  - unfold StarvingState_transition.
    destruct (peer_is_alive now m); simpl; repeat case_bool_decide; done.
  - unfold SupportedState_transition.
    destruct (peer_is_alive now m); simpl; [|done]. by case_match.
Qed.

Lemma msg_handler_static_fields now k m :
  static_fields (msg_handler now k m) = static_fields m.
Proof.
  destruct k; simpl; try done.
  - unfold received_support_required_message. by case_match.
  - unfold received_support_not_needed_message, start_timeout_timer. by case_match.
Qed.

Lemma receive_msg_static_fields now k m :
  static_fields (final_state (receive_msg now k m)) = static_fields m.
Proof.
  unfold receive_msg, bind, modify.
  pose proof (transition_static_fields now (msg_handler now k (set_last_received k now m)))
    as Ht.
  rewrite msg_handler_static_fields in Ht.
  by destruct (transition now _).
Qed.

Lemma peer_step_static_fields now op m :
  static_fields (final_state (peer_step now op m)) = static_fields m.
Proof.
  destruct op; simpl; try done.
  - apply receive_msg_static_fields.
  - apply transition_static_fields.
Qed.

(** X1. Identity, role and the two bounds of a peer record are fixed at its
    creation: no sequence of messages, transitions, cycle resets, aborts and
    forced demotions changes them, whether or not a step raises. *)
Theorem X1_peer_static_fields_immutable (tr : list (Z * peer_op)) (m : MonitoredPeer) :
  static_fields (peer_run tr m) = static_fields m /\
  peer_key (peer_run tr m) = peer_key m.
Proof.
  assert (Hstatic : static_fields (peer_run tr m) = static_fields m).
  { revert m. induction tr as [|[t op] tr IH]; intros m; simpl; [done|].
    unfold peer_run in IH. rewrite IH. apply peer_step_static_fields. }
  split; [done|]. unfold static_fields in Hstatic. unfold peer_key. congruence.
Qed.

Lemma transition_arrow now m :
  arrow (_state m) (_state (final_state (transition now m))) = true.
Proof.
  unfold transition, bind, get, modify.
  destruct (_state m) eqn:Hst; simpl.
  - unfold DefaultState_transition.
    destruct (bool_decide (is_Some (get_ts_first_request m))
              && bool_decide (_support_requests m = 1)); simpl; by rewrite ?Hst.
  - unfold WatchedState_transition, support_requests_are_within_approval_interval.
    unfold bind, get, modify, raise, ret.
    destruct (peer_is_alive now m); simpl; [|done].
    destruct (last_msg_is MSG_SUPPORT_NOT_NEEDED m); simpl; [done|].
    destruct (last_msg_is MSG_SUPPORT_REQUIRED m); simpl; [|by rewrite Hst].
    destruct (get_ts_last_request m), (get_ts_first_request m); simpl; rewrite ?Hst; try done.
    destruct ((z - z0 <=? PEER_STATUS_APPROVAL_TIME) && minimum_support_requests_reached m);
      simpl; by rewrite ?Hst.
  - unfold StarvingState_transition.
    destruct (peer_is_alive now m); simpl;
      destruct (bool_decide (_last_received_msg m = Some MSG_SUPPORT_NOT_NEEDED));
      destruct (bool_decide (_last_received_msg m = Some MSG_PEER_SUPPORTED));
      simpl; by rewrite ?Hst.
  - unfold SupportedState_transition.
    destruct (peer_is_alive now m); simpl; [|done].
    destruct ((bool_decide (_last_received_msg m = Some MSG_SUPPORT_NOT_NEEDED)
               && peer_timed_out now m) || false); simpl; by rewrite ?Hst.
Qed.

Lemma msg_handler_state now k m : _state (msg_handler now k m) = _state m.
Proof.
  destruct k; simpl; try done.
  - unfold received_support_required_message. by case_match.
  - unfold received_support_not_needed_message, start_timeout_timer. by case_match.
Qed.

(** X2. A transition step and the receipt of a message move a peer only along
    the arrows Default -> Watched, Watched -> Default, Watched -> Starving,
    Starving -> Default, Starving -> Supported and Supported -> Default, or
    leave it where it is: Default never goes to Starving or Supported in one
    step, Watched never to Supported, Supported never to Watched or
    Starving. *)
Theorem X2_steps_follow_the_arrows (now : Z) (m : MonitoredPeer) :
  arrow (_state m) (_state (final_state (transition now m))) = true /\
  forall k, arrow (_state m) (_state (final_state (receive_msg now k m))) = true.
Proof.
  split; [apply transition_arrow|].
  intros k. unfold receive_msg, bind, modify.
  pose proof (transition_arrow now (msg_handler now k (set_last_received k now m))) as Ht.
  rewrite msg_handler_state in Ht. simpl in Ht.
  by destruct (transition now _).
Qed.

(** The record after the handler of SUPPORT_REQUIRED, field by field. *)
Lemma received_support_required_message_fields now m :
  let m1 := received_support_required_message now m in
  _state m1 = _state m /\
  _last_received_msg m1 = _last_received_msg m /\
  _support_requests m1 = _support_requests m + 1 /\
  _timeout_timer m1 = None /\
  _is_alive_timeout m1 = _is_alive_timeout m /\
  _peer_timeout m1 = _peer_timeout m.
Proof. unfold received_support_required_message. by case_match. Qed.

Lemma peer_is_alive_after_support_required now m :
  0 < _is_alive_timeout m ->
  peer_is_alive now (received_support_required_message now m) = true.
Proof.
  intros Htimeout. unfold peer_is_alive.
  rewrite received_support_required_message_last.
  destruct (received_support_required_message_fields now m) as (_ & _ & _ & _ & -> & _).
  apply Z.ltb_lt. lia.
Qed.








(** X5. SUPPORT_NOT_NEEDED in any state: the receipt returns, the cycle is
    reset and the cooldown timer runs afterwards, started now unless it was
    running.  A Default, Watched or Starving peer is Default afterwards; a
    Supported peer is Default only when the cooldown has lasted peer_timeout
    already, and stays Supported otherwise. *)
Theorem X5_support_not_needed (now : Z) (m : MonitoredPeer) :
  let start := default now (_timeout_timer m) in
  exists m',
    receive_msg now MSG_SUPPORT_NOT_NEEDED m = Ok tt m' /\
    cycle_is_reset m' /\
    _timeout_timer m' = Some start /\
    (_state m <> SupportedState -> _state m' = DefaultState) /\
    (_state m = SupportedState ->
       _state m' = if _peer_timeout m <=? now - start then DefaultState else SupportedState).
Proof.
  intros start.
  unfold receive_msg, bind, modify. simpl.
  unfold received_support_not_needed_message, start_timeout_timer. simpl.
  unfold transition, bind, get, modify. subst start.
  destruct (_timeout_timer m) as [t|] eqn:Htimer; simpl;
    destruct (_state m) eqn:Hst; simpl.
  all: try (unfold WatchedState_transition, bind, get, modify; simpl).
  all: try (unfold StarvingState_transition; simpl).
  all: try (unfold SupportedState_transition, peer_timed_out; simpl; rewrite ?Htimer).
  all: eexists; (split; [reflexivity|]); simpl.
  all: try (destruct (_peer_timeout m <=? now - t) eqn:Hto; simpl).
  all: try (destruct (_peer_timeout m <=? now - now) eqn:Hto; simpl).
  all: rewrite ?Htimer; repeat split; try done.
Qed.

(** X6. A support request stops the cooldown.  A Supported peer with a
    positive is-alive bound that receives SUPPORT_REQUIRED stays Supported
    with the timer stopped, and every later transition step within the
    is-alive bound of that request leaves the record as it is: the pending
    timeout of an earlier SUPPORT_NOT_NEEDED no longer demotes it. *)
Theorem X6_request_stops_the_cooldown (now : Z) (m : MonitoredPeer) :
  _state m = SupportedState ->
  0 < _is_alive_timeout m ->
  exists m',
    receive_msg now MSG_SUPPORT_REQUIRED m = Ok tt m' /\
    _state m' = SupportedState /\
    _timeout_timer m' = None /\
    forall later, later - now < _is_alive_timeout m -> transition later m' = Ok tt m'.
Proof.
  intros Hst Htimeout.
  set (m1 := received_support_required_message now
               (set_last_received MSG_SUPPORT_REQUIRED now m)).
  pose proof (received_support_required_message_last now
                (set_last_received MSG_SUPPORT_REQUIRED now m)) as Hlast.
  pose proof (received_support_required_message_fields now
                (set_last_received MSG_SUPPORT_REQUIRED now m))
    as (Hst1 & Hmsg1 & _ & Htimer1 & Halive1 & _).
  pose proof (peer_is_alive_after_support_required now
                (set_last_received MSG_SUPPORT_REQUIRED now m) Htimeout) as Halive.
  fold m1 in Hlast, Hst1, Hmsg1, Htimer1, Halive1, Halive.
  simpl in Hst1, Hmsg1, Halive1.
  assert (Hstep : forall later, later - now < _is_alive_timeout m ->
                                transition later m1 = Ok tt m1).
  { intros later Hlater. unfold transition, bind, get, modify. rewrite Hst1, Hst.
    unfold SupportedState_transition, peer_is_alive, peer_timed_out.
    rewrite Hlast, Halive1, Htimer1, Hmsg1.
    assert (Hlt : (later - now <? _is_alive_timeout m) = true) by (apply Z.ltb_lt; lia).
    rewrite Hlt. simpl. done. }
  exists m1. split; [|split; [by rewrite Hst1|split; [done|exact Hstep]]].
  unfold receive_msg, bind, modify. simpl. fold m1.
  apply Hstep. lia.
Qed.

Lemma X6_request_stops_the_cooldown_witness :
  exists m',
    receive_msg 6000 MSG_SUPPORT_REQUIRED
      (mkMonitoredPeer (Some MSG_SUPPORT_NOT_NEEDED) (Some 1000)
         10000 5000 SupportedState (Some 1000) [] 0
         "F" "192.168.2.50" 10000 1) = Ok tt m' /\
    _state m' = SupportedState.
Proof.
  destruct (X6_request_stops_the_cooldown 6000
              (mkMonitoredPeer (Some MSG_SUPPORT_NOT_NEEDED) (Some 1000)
                 10000 5000 SupportedState (Some 1000) [] 0
                 "F" "192.168.2.50" 10000 1)) as (m' & Hrun & Hst & _).
  - reflexivity.
  - simpl. lia.
  - exists m'. split; [exact Hrun|exact Hst].
Defined.

Lemma X5_support_not_needed_witness :
  exists m',
    receive_msg 2000 MSG_SUPPORT_NOT_NEEDED
      (peer_run (replicate 4 (1000, OpReceive MSG_SUPPORT_REQUIRED))
         (new_peer "F" "192.168.2.50" 10000)) = Ok tt m' /\
    _state m' = DefaultState.
Proof.
  destruct (X5_support_not_needed 2000
              (peer_run (replicate 4 (1000, OpReceive MSG_SUPPORT_REQUIRED))
                 (new_peer "F" "192.168.2.50" 10000)))
    as (m' & Hrun & _ & _ & Hother & _).
  exists m'. split; [exact Hrun|]. apply Hother. vm_compute. discriminate.
Defined.

(** ** Further properties of the coordinator *)

(** *** Messages and registrations *)

Lemma find_first_none {A} (f : A -> bool) (l : list A) :
  (forall x, x ∈ l -> f x = false) -> find_first f l = None.
Proof.
  induction l as [|x l IH]; intros Hf; simpl; [done|].
  rewrite (Hf x) by apply list_elem_of_here.
  apply IH. intros y Hy. apply Hf. by apply list_elem_of_further.
Qed.

Lemma has_peer_id_unused d peer_id r :
  peer_id_unused d peer_id -> r ∈ _monitored_peers d -> has_peer_id d peer_id r = false.
Proof.
  intros Hunused Hr. unfold has_peer_id.
  destruct (peers d !! r) as [p|] eqn:Hp; [|done].
  apply bool_decide_eq_false. intros ->. by apply (Hunused r p).
Qed.

(** X7. A message for a peer ID that no registered record carries is
    dropped: the call returns, the lock is back at its depth and no field of
    the coordinator has changed. *)
Theorem X7_message_for_unknown_peer_is_dropped (now : Z) (msg_type : msg)
    (peer_id : string) (d : SupporterMonitor) :
  peer_id_unused d peer_id ->
  received_peer_message now msg_type peer_id d = Ok tt d.
Proof.
  intros Hunused.
  unfold received_peer_message, bind, modify, try_finally, get.
  change (find_first (has_peer_id (lock_acquire d) peer_id)
            (_monitored_peers (lock_acquire d)))
    with (find_first (has_peer_id d peer_id) (_monitored_peers d)).
  rewrite find_first_none.
  - unfold ret. by rewrite lock_release_acquire.
  - intros r Hr. by apply has_peer_id_unused.
Qed.

Lemma X7_message_for_unknown_peer_is_dropped_witness :
  let d := run all_answer scenario_min_max_together initial_monitor in
  received_peer_message 3000 MSG_SUPPORT_REQUIRED "unknown" d = Ok tt d.
Proof.
  intros d. apply X7_message_for_unknown_peer_is_dropped.
  intros r p Hr Hp Hid.
  assert (Hregistry : _monitored_peers d = [0%nat; 1%nat; 2%nat]) by reflexivity.
  rewrite Hregistry in Hr.
  apply elem_of_cons in Hr as [-> | Hr];
    [vm_compute in Hp; injection Hp as <-; discriminate Hid|].
  apply elem_of_cons in Hr as [-> | Hr];
    [vm_compute in Hp; injection Hp as <-; discriminate Hid|].
  apply elem_of_cons in Hr as [-> | Hr];
    [vm_compute in Hp; injection Hp as <-; discriminate Hid|].
  by apply elem_of_nil in Hr.
Defined.

Lemma peer_key_in_false_of_unused d id ip port :
  peer_id_unused d id -> peer_key_in d (id, ip, port) (_monitored_peers d) = false.
Proof.
  intros Hunused. unfold peer_key_in.
  assert (Hall : forall l, (forall r, r ∈ l -> r ∈ _monitored_peers d) ->
            existsb (fun r => match peers d !! r with
                              | Some q => bool_decide (peer_key q = (id, ip, port))
                              | None => false
                              end) l = false).
  { induction l as [|r l IH]; intros Hsub; simpl; [done|].
    rewrite IH by (intros y Hy; apply Hsub; by apply list_elem_of_further).
    rewrite orb_false_r.
    destruct (peers d !! r) as [q|] eqn:Hq; [|done].
    apply bool_decide_eq_false. intros Hkey.
    apply (Hunused r q); [apply Hsub, list_elem_of_here|done|].
    unfold peer_key in Hkey. congruence. }
  by apply Hall.
Qed.

(** The first record with a given ID, once a record with that ID went to the
    end of the store and of the registry. *)
Lemma find_first_after_alloc d d2 (mp : MonitoredPeer) (l : list ref) :
  peers d2 = peers d ++ [mp] ->
  (forall r p, r ∈ l -> peers d !! r = Some p -> _id p <> _id mp) ->
  find_first (has_peer_id d2 (_id mp)) (l ++ [length (peers d)]) = Some (length (peers d)).
Proof.
  intros Hstore Hunused. induction l as [|r l IH]; simpl.
  - unfold has_peer_id. rewrite Hstore, list_lookup_middle by done.
    by rewrite bool_decide_eq_true_2.
  - unfold has_peer_id at 1. rewrite Hstore.
    destruct (decide (r < length (peers d))%nat) as [Hlt|Hge].
    + rewrite lookup_app_l by done.
      destruct (lookup_lt_is_Some_2 (peers d) r Hlt) as [p Hp]. rewrite Hp.
      rewrite bool_decide_eq_false_2.
      * apply IH. intros y q Hy. apply Hunused. by apply list_elem_of_further.
      * intros Heq. by apply (Hunused r p (list_elem_of_here r l) Hp).
    + destruct (decide (r = length (peers d))) as [->|Hne].
      * rewrite list_lookup_middle by done. by rewrite bool_decide_eq_true_2.
      * rewrite lookup_ge_None_2 by (rewrite length_app; simpl; lia).
        apply IH. intros y q Hy. apply Hunused. by apply list_elem_of_further.
Qed.

Lemma MonitoredPeer_init_constructed d id ip port peer_type :
  1024 <= port -> peer_type ∈ PEER_TYPES ->
  MonitoredPeer_init id ip port peer_type
    (Some (mon_is_alive_timeout d)) (Some (mon_peer_timeout d))
  = inr (constructed_peer d id ip port peer_type).
Proof.
  intros Hp Ht. unfold MonitoredPeer_init.
  apply Z.leb_le in Hp. rewrite Hp. simpl.
  by rewrite bool_decide_eq_true_2 by done.
Qed.

(** X8. Registering a peer under an ID that no registered record carries,
    with a port of at least 1024 and a known role: the call returns the new
    record, which is appended to the registry with the bounds of the
    coordinator, in Default, with PEER_REGISTERED as last message and the
    clock value as its timestamp; nothing else changes. *)
Theorem X8_register_new_peer (now : Z) (id ip : string) (port peer_type : Z)
    (d : SupporterMonitor) :
  1024 <= port -> peer_type ∈ PEER_TYPES ->
  peer_id_unused d id ->
  register_monitored_peer now id ip port peer_type d
  = Ok (Some (length (peers d)))
       (set_monitored_peers (_monitored_peers d ++ [length (peers d)])
          (set_peers (peers d ++ [registered_peer d now id ip port peer_type]) d)).
Proof.
  intros Hport Htype Hunused.
  unfold register_monitored_peer, bind, modify, try_finally, get.
  change (mon_is_alive_timeout (lock_acquire d)) with (mon_is_alive_timeout d).
  change (mon_peer_timeout (lock_acquire d)) with (mon_peer_timeout d).
  rewrite MonitoredPeer_init_constructed by done.
  change (peer_key (constructed_peer d id ip port peer_type)) with (id, ip, port).
  change (peer_key_in (lock_acquire d) (id, ip, port) (_monitored_peers (lock_acquire d)))
    with (peer_key_in d (id, ip, port) (_monitored_peers d)).
  rewrite peer_key_in_false_of_unused by done.
  cbn [negb]. unfold alloc_peer, ret.
  cbn [peers _monitored_peers lock_acquire set_lock set_peers set_monitored_peers].
  unfold received_peer_message, bind, modify, try_finally, get.
  cbn [peers _monitored_peers lock_acquire set_lock set_peers set_monitored_peers].
  pose proof (find_first_after_alloc d
             (lock_acquire
                (set_monitored_peers (_monitored_peers d ++ [length (peers d)])
                   (set_peers (peers d ++ [constructed_peer d id ip port peer_type])
                      (lock_acquire d))))
             (constructed_peer d id ip port peer_type)
             (_monitored_peers d) eq_refl Hunused) as Hfind.
  change (_id (constructed_peer d id ip port peer_type)) with id in Hfind.
  unfold ref in *. rewrite Hfind.
  unfold on_peer.
  cbn [peers _monitored_peers lock_acquire set_lock set_peers set_monitored_peers].
  rewrite list_lookup_middle by done.
  change (receive_msg now MSG_PEER_REGISTERED (constructed_peer d id ip port peer_type))
    with (Ok (S := MonitoredPeer) tt (registered_peer d now id ip port peer_type)).
  cbn [peers _monitored_peers lock_acquire set_lock set_peers set_monitored_peers].
  rewrite insert_app_r_alt by done. rewrite Nat.sub_diag. simpl.
  by destruct d.
Qed.

Lemma X8_register_new_peer_witness :
  value_of (register_monitored_peer 1000 "XXX---34920F" "192.168.2.50" 10000
              PEER_TYPE_LEECHER initial_monitor) = Some (Some 0%nat).
Proof.
  rewrite X8_register_new_peer.
  - reflexivity.
  - lia.
  - unfold PEER_TYPES. apply list_elem_of_further, list_elem_of_here.
  - intros r p Hr. by apply elem_of_nil in Hr.
Defined.

Lemma find_first_before_alloc d d2 (mp : MonitoredPeer) (id : string) (l : list ref) (r : ref) :
  peers d2 = peers d ++ [mp] ->
  Forall (fun x => is_Some (peers d !! x)) l ->
  find_first (has_peer_id d id) l = Some r ->
  find_first (has_peer_id d2 id) (l ++ [length (peers d)]) = Some r.
Proof.
  intros Hstore Hvalid. induction Hvalid as [|x l Hx Hvalid IH]; simpl; [done|].
  assert (Hsame : has_peer_id d2 id x = has_peer_id d id x).
  { unfold has_peer_id. rewrite Hstore, lookup_app_l; [done|].
    by apply lookup_lt_is_Some. }
  rewrite Hsame. destruct (has_peer_id d id x); [done|exact IH].
Qed.

(** X9. Registering a peer under an ID that a registered record already
    carries, but with another address: the new record is appended to the
    registry, and the PEER_REGISTERED message goes to the first record with
    that ID, not to the new one, which is left as the constructor made it,
    without a last message and without a timestamp. *)
Theorem X9_register_peer_under_used_id (now : Z) (id ip : string) (port peer_type : Z)
    (d : SupporterMonitor) (r : ref) (q : MonitoredPeer) :
  1024 <= port -> peer_type ∈ PEER_TYPES ->
  peer_registry_valid d ->
  peer_key_in d (id, ip, port) (_monitored_peers d) = false ->
  find_first (has_peer_id d id) (_monitored_peers d) = Some r ->
  peers d !! r = Some q ->
  exists q' d',
    receive_msg now MSG_PEER_REGISTERED q = Ok tt q' /\
    register_monitored_peer now id ip port peer_type d = Ok (Some (length (peers d))) d' /\
    _monitored_peers d' = _monitored_peers d ++ [length (peers d)] /\
    peers d' = <[r := q']> (peers d) ++ [constructed_peer d id ip port peer_type] /\
    _ts_last_received_msg (constructed_peer d id ip port peer_type) = None.
Proof.
  intros Hport Htype Hvalid Hnew Hfind Hq.
  destruct (receive_msg_returns now MSG_PEER_REGISTERED q) as [q' Hrecv].
  exists q'. eexists. split; [exact Hrecv|].
  unfold register_monitored_peer, bind, modify, try_finally, get.
  change (mon_is_alive_timeout (lock_acquire d)) with (mon_is_alive_timeout d).
  change (mon_peer_timeout (lock_acquire d)) with (mon_peer_timeout d).
  rewrite MonitoredPeer_init_constructed by done.
  change (peer_key (constructed_peer d id ip port peer_type)) with (id, ip, port).
  change (peer_key_in (lock_acquire d) (id, ip, port) (_monitored_peers (lock_acquire d)))
    with (peer_key_in d (id, ip, port) (_monitored_peers d)).
  rewrite Hnew.
  cbn [negb]. unfold alloc_peer, ret.
  cbn [peers _monitored_peers lock_acquire set_lock set_peers set_monitored_peers].
  assert (Hr : (r < length (peers d))%nat) by (apply lookup_lt_is_Some; by eexists).
  rewrite (received_peer_message_found now MSG_PEER_REGISTERED id _ r q q').
  - cbn [peers _monitored_peers lock_acquire set_lock set_peers set_monitored_peers
         lock_release].
    split; [reflexivity|]. simpl. split; [done|]. split; [|done].
    by rewrite insert_app_l.
  - cbn [peers _monitored_peers lock_acquire set_lock set_peers set_monitored_peers].
    unfold ref in *.
    by apply (find_first_before_alloc d _ (constructed_peer d id ip port peer_type)).
  - cbn [peers _monitored_peers lock_acquire set_lock set_peers set_monitored_peers].
    by rewrite lookup_app_l.
  - exact Hrecv.
Qed.

Lemma X9_register_peer_under_used_id_witness :
  let d := final_state (register_monitored_peer 1000 "XXX---34920F" "192.168.2.50" 10000
                          PEER_TYPE_LEECHER initial_monitor) in
  exists d',
    register_monitored_peer 1000 "XXX---34920F" "192.168.2.51" 10001 PEER_TYPE_LEECHER d
      = Ok (Some 1%nat) d' /\
    _monitored_peers d' = [0%nat; 1%nat].
Proof.
  intros d.
  destruct (X9_register_peer_under_used_id 1000 "XXX---34920F" "192.168.2.51" 10001
              PEER_TYPE_LEECHER d 0%nat
              (registered_peer initial_monitor 1000 "XXX---34920F" "192.168.2.50" 10000
                 PEER_TYPE_LEECHER))
    as (q' & d' & _ & Hrun & Hreg & _).
  - lia.
  - unfold PEER_TYPES. apply list_elem_of_further, list_elem_of_here.
  - repeat constructor. by eexists.
  - reflexivity.
  - reflexivity.
  - reflexivity.
  - exists d'. split; [exact Hrun|exact Hreg].
Defined.

(** X10. A peer registration with a port below 1024 or with a role that is
    neither seeder nor leecher raises AssertionError; the lock is released
    and the coordinator is as before: no record is stored and no message is
    delivered, even when the ID is registered. *)
Theorem X10_register_peer_rejects (now : Z) (id ip : string) (port peer_type : Z)
    (d : SupporterMonitor) :
  port < 1024 \/ (peer_type <> PEER_TYPE_SEEDER /\ peer_type <> PEER_TYPE_LEECHER) ->
  register_monitored_peer now id ip port peer_type d = Raise AssertionError d.
Proof.
  intros Hbad.
  unfold register_monitored_peer, bind, modify, try_finally, get.
  assert (Hinit : MonitoredPeer_init id ip port peer_type
                    (Some (mon_is_alive_timeout (lock_acquire d)))
                    (Some (mon_peer_timeout (lock_acquire d))) = inl AssertionError).
  { unfold MonitoredPeer_init.
    destruct (1024 <=? port) eqn:Hport; simpl; [|done].
    apply Z.leb_le in Hport.
    destruct Hbad as [Hlow|[Hs Hl]]; [lia|].
    rewrite bool_decide_eq_false_2; [done|].
    unfold PEER_TYPES. intros Hin.
    apply elem_of_cons in Hin as [->|Hin]; [done|].
    apply elem_of_cons in Hin as [->|Hin]; [done|].
    by apply elem_of_nil in Hin. }
  rewrite Hinit. unfold raise. by rewrite lock_release_acquire.
Qed.

Lemma X10_register_peer_rejects_witness :
  register_monitored_peer 1000 "XXX---34920F" "192.168.2.1" 500 PEER_TYPE_LEECHER
    initial_monitor = Raise AssertionError initial_monitor.
Proof. apply X10_register_peer_rejects. left. lia. Defined.

(** *** Registration of supporters, continued *)

(** X11. A supporter registration within the bounds whose identity tuple
    (ID, address, min_peer, max_peer) is registered returns the duplicate
    sentinel and changes nothing: no second record, no second proxy, and the
    roster and the dirty flag of the registered record stay. *)
Theorem X11_register_duplicate_supporter (id : string) (addr : string * Z)
    (min_peer max_peer : Z) (d : SupporterMonitor) :
  1024 <= addr.2 -> min_peer <= max_peer ->
  supporter_key_in d (id, addr, min_peer, max_peer) (_monitored_supporters d) = true ->
  register_monitored_supporter id addr min_peer max_peer d = Ok None d.
Proof.
  intros Hp Hm Hdup.
  unfold register_monitored_supporter, bind, modify, try_finally, get.
  rewrite MonitoredSupporter_init_accepts by done.
  change (supporter_key (mkMonitoredSupporter id addr min_peer max_peer [] true))
    with (id, addr, min_peer, max_peer).
  change (supporter_key_in (lock_acquire d)) with (supporter_key_in d).
  change (_monitored_supporters (lock_acquire d)) with (_monitored_supporters d).
  rewrite Hdup. unfold ret. simpl. by rewrite lock_release_acquire.
Qed.

Lemma X11_register_duplicate_supporter_witness :
  let d := run all_answer scenario_min_max_together initial_monitor in
  register_monitored_supporter "2" ("192.168.2.11", 5001) 1 3 d = Ok None d.
Proof.
  intros d. apply X11_register_duplicate_supporter.
  - simpl. lia.
  - lia.
  - reflexivity.
Defined.

(** X12. With the XML-RPC dispatcher, a supporter registration that is
    accepted enters one proxy into the dispatcher's table, under the
    identity tuple of the supporter and for the supporter's host at its port
    plus one; the entries of other supporters stay. *)
Theorem X12_registration_creates_the_proxy (id : string) (addr : string * Z)
    (min_peer max_peer : Z) (d : SupporterMonitor) (proxies : gmap supporter_key_t proxy) :
  1024 <= addr.2 -> min_peer <= max_peer ->
  supporter_key_in d (id, addr, min_peer, max_peer) (_monitored_supporters d) = false ->
  _dispatcher d = SupporteeListDispatcher proxies ->
  _dispatcher (final_state (register_monitored_supporter id addr min_peer max_peer d))
  = SupporteeListDispatcher (<[(id, addr, min_peer, max_peer) := (addr.1, addr.2 + 1)]> proxies).
Proof.
  intros Hp Hm Hnew Hdisp.
  unfold register_monitored_supporter, bind, modify, try_finally, get.
  rewrite MonitoredSupporter_init_accepts by done.
  change (supporter_key (mkMonitoredSupporter id addr min_peer max_peer [] true))
    with (id, addr, min_peer, max_peer).
  change (supporter_key_in (lock_acquire d)) with (supporter_key_in d).
  change (_monitored_supporters (lock_acquire d)) with (_monitored_supporters d).
  rewrite Hnew. simpl.
  unfold alloc_supporter, register_proxy, modify, ret. simpl.
  rewrite Hdisp. rewrite list_lookup_middle by done. done.
Qed.

Lemma X12_registration_creates_the_proxy_witness :
  _dispatcher (final_state (register_monitored_supporter "1" ("192.168.2.10", 5000) 2 3
                              initial_monitor))
  = SupporteeListDispatcher
      (<[("1", ("192.168.2.10", 5000), 2, 3) := ("192.168.2.10", 5001)]> ∅).
Proof.
  apply (X12_registration_creates_the_proxy "1" ("192.168.2.10", 5000) 2 3
           initial_monitor ∅).
  - simpl. lia.
  - lia.
  - reflexivity.
  - reflexivity.
Defined.

(** *** Sorting *)

Section StableSort.
Context {A : Type} (before : A -> A -> bool).
Hypothesis before_asym : forall x y, before y x = true -> before x y = false.
Hypothesis before_trans :
  forall x y z, before y x = false -> before z y = false -> before z x = false.

(** [x] may stand in front of [y]. *)
Let ord (x y : A) : Prop := before y x = false.

Lemma insert_sorted_perm (x : A) (l : list A) : insert_sorted before x l ≡ₚ x :: l.
Proof.
  induction l as [|y l IH]; simpl; [done|].
  destruct (before y x); [|done].
  rewrite IH. apply Permutation_swap.
Qed.

Lemma stable_sort_perm (l : list A) : stable_sort before l ≡ₚ l.
Proof.
  induction l as [|x l IH]; simpl; [done|].
  unfold stable_sort in *. simpl. rewrite insert_sorted_perm. by rewrite IH.
Qed.

Lemma insert_sorted_sorted (x : A) (l : list A) :
  StronglySorted ord l -> StronglySorted ord (insert_sorted before x l).
Proof.
  induction l as [|y l IH]; intros Hs; simpl.
  - repeat constructor.
  - apply StronglySorted_inv in Hs as [Hs Hy].
    destruct (before y x) eqn:Hyx.
    + constructor; [by apply IH|].
      rewrite insert_sorted_perm. constructor; [|done].
      unfold ord. by apply before_asym.
    + constructor; [by constructor|].
      constructor; [done|].
      eapply Forall_impl; [exact Hy|]. intros z Hz. unfold ord in *.
      by apply (before_trans x y z).
Qed.

Lemma stable_sort_sorted (l : list A) : StronglySorted ord (stable_sort before l).
Proof.
  induction l as [|x l IH]; simpl; [constructor|].
  unfold stable_sort in *. simpl. by apply insert_sorted_sorted.
Qed.

Lemma stable_sort_of_sorted (l : list A) : StronglySorted ord l -> stable_sort before l = l.
Proof.
  induction l as [|x l IH]; intros Hs; [done|].
  apply StronglySorted_inv in Hs as [Hs Hx].
  unfold stable_sort in *. simpl. rewrite IH by done.
  destruct l as [|y l]; [done|]. simpl.
  apply Forall_cons in Hx as [Hxy _]. unfold ord in Hxy. by rewrite Hxy.
Qed.
End StableSort.

Lemma StronglySorted_weaken {A} (R R' : A -> A -> Prop) (l : list A) :
  (forall a b, R a b -> R' a b) -> StronglySorted R l -> StronglySorted R' l.
Proof.
  intros Himpl. induction 1 as [|x l Hs IH Hx]; constructor; [done|].
  eapply Forall_impl; [exact Hx|]. intros b. apply Himpl.
Qed.

Lemma StronglySorted_map {A B} (f : A -> B) (R : B -> B -> Prop) (l : list A) :
  StronglySorted (fun a b => R (f a) (f b)) l -> StronglySorted R (map f l).
Proof.
  induction 1 as [|x l Hs IH Hx]; simpl; constructor; [done|].
  apply Forall_forall. intros y Hy. apply list_elem_of_In, in_map_iff in Hy as (z & <- & Hz).
  rewrite Forall_forall in Hx. apply Hx. by apply list_elem_of_In.
Qed.

(** Descending and ascending order of an integer key. *)
Lemma stable_sort_descending {A} (key : A -> Z) (l : list A) :
  let sorted := stable_sort (fun y x => key x <? key y) l in
  sorted ≡ₚ l /\
  StronglySorted (fun a b => key b <= key a) sorted /\
  (StronglySorted (fun a b => key b <= key a) l -> sorted = l).
Proof.
  assert (Hasym : forall x y : A, (key x <? key y) = true -> (key y <? key x) = false).
  { intros x y H. apply Z.ltb_lt in H. apply Z.ltb_ge. lia. }
  assert (Htrans : forall x y z : A,
            (key x <? key y) = false -> (key y <? key z) = false -> (key x <? key z) = false).
  { intros x y z H1 H2. apply Z.ltb_ge in H1, H2. apply Z.ltb_ge. lia. }
  split; [apply stable_sort_perm|]. split.
  - eapply StronglySorted_weaken; [|by apply stable_sort_sorted].
    intros a b H. simpl in H. apply Z.ltb_ge in H. lia.
  - intros Hs. apply stable_sort_of_sorted.
    eapply StronglySorted_weaken; [|exact Hs].
    intros a b H. simpl. by apply Z.ltb_ge.
Qed.

Lemma stable_sort_ascending {A} (key : A -> Z) (l : list A) :
  let sorted := stable_sort (fun y x => key y <? key x) l in
  sorted ≡ₚ l /\
  StronglySorted (fun a b => key a <= key b) sorted /\
  (StronglySorted (fun a b => key a <= key b) l -> sorted = l).
Proof.
  assert (Hasym : forall x y : A, (key y <? key x) = true -> (key x <? key y) = false).
  { intros x y H. apply Z.ltb_lt in H. apply Z.ltb_ge. lia. }
  assert (Htrans : forall x y z : A,
            (key y <? key x) = false -> (key z <? key y) = false -> (key z <? key x) = false).
  { intros x y z H1 H2. apply Z.ltb_ge in H1, H2. apply Z.ltb_ge. lia. }
  split; [apply stable_sort_perm|]. split.
  - eapply StronglySorted_weaken; [|by apply stable_sort_sorted].
    intros a b H. simpl in H. apply Z.ltb_ge in H. lia.
  - intros Hs. apply stable_sort_of_sorted.
    eapply StronglySorted_weaken; [|exact Hs].
    intros a b H. simpl. by apply Z.ltb_ge.
Qed.

Lemma StronglySorted_on {A} (P : A -> Prop) (R R' : A -> A -> Prop) (l : list A) :
  (forall a b, P a -> P b -> R a b -> R' a b) ->
  Forall P l -> StronglySorted R l -> StronglySorted R' l.
Proof.
  intros Himpl HP. induction 1 as [|x l Hs IH Hx]; [constructor|].
  apply Forall_cons in HP as [Hpx HP].
  constructor; [by apply IH|].
  apply Forall_forall. intros y Hy. rewrite Forall_forall in Hx, HP.
  apply Himpl; auto.
Qed.

Section SortTagged.
Context {A B : Type} (tag : A -> B) (untag : B -> A) (key : B -> Z) (f : A -> Z).
Hypothesis untag_tag : forall x, untag (tag x) = x.
Hypothesis key_tag : forall x, key (tag x) = f x.

Lemma map_untag_tag (l : list A) : map untag (map tag l) = l.
Proof. induction l as [|x l IH]; simpl; by rewrite ?untag_tag, ?IH. Qed.

Lemma Forall_tagged (l : list A) : Forall (fun p => key p = f (untag p)) (map tag l).
Proof.
  induction l; simpl; constructor; [|done]. by rewrite untag_tag, key_tag.
Qed.

Lemma StronglySorted_tag (R : Z -> Z -> Prop) (l : list A) :
  StronglySorted (fun a b => R (f a) (f b)) l ->
  StronglySorted (fun a b => R (key a) (key b)) (map tag l).
Proof.
  induction 1 as [|x l Hs IH Hx]; simpl; constructor; [done|].
  apply Forall_forall. intros p Hp.
  apply list_elem_of_In, in_map_iff in Hp as (y & <- & Hy).
  rewrite !key_tag. rewrite Forall_forall in Hx. apply Hx. by apply list_elem_of_In.
Qed.

(** Elements tagged with an integer key, sorted by the key in descending
    order and read back without the tags. *)
Lemma sort_tagged_descending (l : list A) :
  let sorted := map untag (stable_sort (fun y x => key x <? key y) (map tag l)) in
  sorted ≡ₚ l /\
  StronglySorted (fun a b => f b <= f a) sorted /\
  (StronglySorted (fun a b => f b <= f a) l -> sorted = l).
Proof.
  destruct (stable_sort_descending key (map tag l)) as (Hperm & Hsorted & Hid).
  split; [|split].
  - rewrite Hperm. by rewrite map_untag_tag.
  - apply StronglySorted_map.
    apply (StronglySorted_on (fun p => key p = f (untag p)) (fun a b => key b <= key a));
      [| |done].
    + intros a b Ha Hb. by rewrite Ha, Hb.
    + rewrite Hperm. apply Forall_tagged.
  - intros Hs. rewrite Hid; [apply map_untag_tag|].
    by apply (StronglySorted_tag (fun a b => b <= a)).
Qed.

(** The same in ascending order. *)
Lemma sort_tagged_ascending (l : list A) :
  let sorted := map untag (stable_sort (fun y x => key y <? key x) (map tag l)) in
  sorted ≡ₚ l /\
  StronglySorted (fun a b => f a <= f b) sorted /\
  (StronglySorted (fun a b => f a <= f b) l -> sorted = l).
Proof.
  destruct (stable_sort_ascending key (map tag l)) as (Hperm & Hsorted & Hid).
  split; [|split].
  - rewrite Hperm. by rewrite map_untag_tag.
  - apply StronglySorted_map.
    apply (StronglySorted_on (fun p => key p = f (untag p)) (fun a b => key a <= key b));
      [| |done].
    + intros a b Ha Hb. by rewrite Ha, Hb.
    + rewrite Hperm. apply Forall_tagged.
  - intros Hs. rewrite Hid; [apply map_untag_tag|].
    by apply (StronglySorted_tag (fun a b => a <= b)).
Qed.
End SortTagged.

(** X13. [order_active_supporters] touches the active list only: afterwards
    the list holds the same supporters, in descending order of their
    available slots, and a list that was in that order already is left as it
    was (supporters with equally many free slots are not reordered). *)
Theorem X13_order_active_supporters (d : SupporterMonitor) :
  let d' := final_state (order_active_supporters d) in
  value_of (order_active_supporters d) = Some tt /\
  d' = set_active_supporters (_active_supporters d') d /\
  _active_supporters d' ≡ₚ _active_supporters d /\
  StronglySorted (fun a b => available_slots d' b <= available_slots d' a)
    (_active_supporters d') /\
  (StronglySorted (fun a b => available_slots d b <= available_slots d a)
     (_active_supporters d) -> d' = d).
Proof.
  destruct (sort_tagged_descending (fun s => (s, available_slots d s)) fst snd
              (available_slots d) (fun _ => eq_refl) (fun _ => eq_refl)
              (_active_supporters d))
    as (Hperm & Hsorted & Hid).
  unfold order_active_supporters, modify. simpl.
  split; [done|]. split; [done|]. split; [exact Hperm|]. split; [exact Hsorted|].
  intros Hs. rewrite (Hid Hs). by destruct d.
Qed.

Lemma X13_order_active_supporters_witness :
  let d := run all_answer (scenario_min_max_together ++ [Tick 2000]) initial_monitor in
  final_state (order_active_supporters d) = d.
Proof.
  intros d.
  apply (X13_order_active_supporters d).
  assert (Hactive : _active_supporters d = [1%nat]) by reflexivity.
  rewrite Hactive. repeat constructor.
Defined.

(** X14. The candidates of the activation phase are the registered
    supporters that are not in the active list, each with its min_peer, in
    ascending order of min_peer. *)
Theorem X14_sorted_list_of_inactive_supporters (d : SupporterMonitor) :
  let inactive_supporters := sorted_list_of_inactive_supporters d in
  map fst inactive_supporters ≡ₚ
    List.filter (fun s => negb (supporter_in d s (_active_supporters d)))
      (_monitored_supporters d) /\
  Forall (fun p => p.2 = get_min_peer d p.1) inactive_supporters /\
  StronglySorted (fun a b => a.2 <= b.2) inactive_supporters /\
  (forall s, s ∈ map fst inactive_supporters <->
             s ∈ _monitored_supporters d /\
             supporter_in d s (_active_supporters d) = false).
Proof.
  set (candidates := List.filter (fun s => negb (supporter_in d s (_active_supporters d)))
                       (_monitored_supporters d)).
  destruct (stable_sort_ascending (snd : ref * Z -> Z)
              (map (fun s => (s, get_min_peer d s)) candidates))
    as (Hperm & Hsorted & _).
  assert (Hfst : map fst (sorted_list_of_inactive_supporters d) ≡ₚ candidates).
  { unfold sorted_list_of_inactive_supporters. fold candidates.
    rewrite Hperm. clear. induction candidates; simpl; by rewrite ?IHcandidates. }
  split; [exact Hfst|]. split; [|split; [exact Hsorted|]].
  - unfold sorted_list_of_inactive_supporters. fold candidates. rewrite Hperm.
    clear. induction candidates; simpl; by constructor.
  - intros s. rewrite Hfst. unfold candidates.
    rewrite list_elem_of_In, filter_In, <- list_elem_of_In, negb_true_iff. done.
Qed.

(** X15. [sort_starving_peers] returns the peers it was given, those with
    more recorded assignments first, a peer without an entry counting as 0;
    peers with equal counts keep their order, so a list that is in order is
    returned as it is. *)
Theorem X15_sort_starving_peers (d : SupporterMonitor) (starving_peers : list ref) :
  let sorted := sort_starving_peers d starving_peers in
  sorted ≡ₚ starving_peers /\
  StronglySorted (fun a b => assignment_count d b <= assignment_count d a) sorted /\
  (StronglySorted (fun a b => assignment_count d b <= assignment_count d a) starving_peers ->
   sorted = starving_peers).
Proof.
  assert (Htag : forall p,
            match peer_id_of d p with
            | Some id =>
                match number_of_assignments d !! id with
                | Some n => (n, p)
                | None => (0, p)
                end
            | None => (0, p)
            end = (assignment_count d p, p)).
  { intros p. unfold assignment_count.
    destruct (peer_id_of d p); [|done]. by destruct (number_of_assignments d !! _). }
  unfold sort_starving_peers.
  rewrite (map_ext _ _ Htag).
  apply (sort_tagged_descending (fun p => (assignment_count d p, p)) snd fst
           (assignment_count d) (fun _ => eq_refl) (fun _ => eq_refl)).
Qed.

Lemma X15_sort_starving_peers_witness :
  let d := run all_answer scenario_min_max_together initial_monitor in
  sort_starving_peers d [0%nat; 1%nat; 2%nat] = [0%nat; 1%nat; 2%nat].
Proof.
  intros d. apply (X15_sort_starving_peers d [0%nat; 1%nat; 2%nat]).
  assert (H0 : assignment_count d 0%nat = 0) by reflexivity.
  assert (H1 : assignment_count d 1%nat = 0) by reflexivity.
  assert (H2 : assignment_count d 2%nat = 0) by reflexivity.
  repeat constructor; rewrite ?H0, ?H1, ?H2; lia.
Defined.

(** *** Invariants through the monad *)

Section Preserves.
Context {S A B : Type} (I : S -> Prop).

Lemma preserves_ret (a : A) : preserves I (ret a).
Proof. by intros s. Qed.

Lemma preserves_raise (e : exn) : preserves I (raise e : M S A).
Proof. by intros s. Qed.

Lemma preserves_get : preserves I get.
Proof. by intros s. Qed.

Lemma preserves_modify (f : S -> S) : (forall s, I s -> I (f s)) -> preserves I (modify f).
Proof. intros Hf s. apply Hf. Qed.

Lemma preserves_bind (m : M S A) (k : A -> M S B) :
  preserves I m -> (forall a, preserves I (k a)) -> preserves I (bind m k).
Proof.
  intros Hm Hk s Hs. unfold bind. specialize (Hm s Hs).
  destruct (m s) as [a s'|e s']; simpl in *; [by apply Hk|done].
Qed.

Lemma preserves_for_each (l : list A) (body : A -> M S unit) :
  (forall x, preserves I (body x)) -> preserves I (for_each l body).
Proof.
  intros Hbody. induction l as [|x l IH]; simpl; [by intros s|].
  intros s Hs. unfold bind. specialize (Hbody x s Hs).
  destruct (body x s) as [[] s'|e s']; simpl in *; [by apply IH|done].
Qed.
End Preserves.

(** *** The assignment phase and the capacity of the supporters *)

Lemma within_capacity_same_supporters d d' :
  supporters d' = supporters d -> within_capacity d -> within_capacity d'.
Proof. intros Hsame Hcap s sup. rewrite Hsame. apply Hcap. Qed.

Lemma preserves_within_capacity_on_peer r f : preserves within_capacity (on_peer r f).
Proof.
  intros d Hcap. unfold on_peer. destruct (peers d !! r) as [p|]; [|done].
  destruct (f p); simpl; by apply (within_capacity_same_supporters d).
Qed.

Lemma preserves_within_capacity_order : preserves within_capacity order_active_supporters.
Proof. intros d Hcap. by apply (within_capacity_same_supporters d). Qed.

(** Adding a peer to a supporter that has a free slot. *)
Lemma within_capacity_add_supported_peer s p d :
  0 < available_slots d s -> within_capacity d ->
  within_capacity (final_state (add_supported_peer s p d)).
Proof.
  intros Hfree Hcap. unfold add_supported_peer, bind, get, on_supporter, modify, ret.
  destruct (negb (peer_in d p (get_supported_peers d s))); simpl; [|done].
  intros s' sup' Hlook. simpl in Hlook.
  unfold available_slots, get_max_peer, get_supported_peers in Hfree.
  unfold ref in *.
  destruct (decide (s' = s)) as [->|Hne].
  - rewrite !list_lookup_alter_eq in Hlook.
    destruct (supporters d !! s) as [sup|] eqn:Hsup; simpl in Hlook; [|done].
    injection Hlook as <-. simpl.
    rewrite length_app. simpl. lia.
  - rewrite !list_lookup_alter_ne in Hlook by done. by apply (Hcap s').
Qed.

Lemma within_capacity_assign_peer_to_supporter now p s d :
  0 < available_slots d s -> within_capacity d ->
  within_capacity (final_state (assign_peer_to_supporter now p s d)).
Proof.
  intros Hfree Hcap. unfold assign_peer_to_supporter.
  unfold bind at 1. unfold get at 1.
  destruct (negb (supporter_in d s (_active_supporters d))); [done|].
  pose proof (within_capacity_add_supported_peer s p d Hfree Hcap) as Hadd.
  unfold bind at 1.
  destruct (add_supported_peer s p d) as [[] d1|e d1]; simpl in Hadd; [|done].
  revert d1 Hadd. apply preserves_bind; [apply preserves_within_capacity_order|].
  intros _. apply preserves_bind; [apply preserves_within_capacity_on_peer|].
  intros _. destruct (peer_id_of d p) as [id|]; [|apply preserves_ret].
  apply preserves_bind; [by apply preserves_modify|].
  intros _. apply preserves_bind; [apply preserves_get|].
  intros d'. destruct (number_of_assignments d' !! id);
    [by apply preserves_modify|apply preserves_raise].
Qed.

Lemma within_capacity_assign_starving_loop now l : forall d,
  within_capacity d -> within_capacity (final_state (assign_starving_loop now l d)).
Proof.
  induction l as [|peer rest IH]; intros d Hcap; simpl; [done|].
  unfold bind at 1. unfold get at 1.
  unfold remaining_active_supporters_with_capacity.
  destruct (_active_supporters d) as [|s active] eqn:Hactive; [done|].
  destruct (0 <? available_slots d s) eqn:Hfree; [|done].
  apply Z.ltb_lt in Hfree.
  pose proof (within_capacity_assign_peer_to_supporter now peer s d Hfree Hcap) as Hassign.
  unfold bind at 1.
  destruct (assign_peer_to_supporter now peer s d) as [[] d1|e d1]; simpl in Hassign; [|done].
  pose proof (preserves_within_capacity_order d1 Hassign) as Horder.
  unfold bind at 1.
  destruct (order_active_supporters d1) as [[] d2|e d2]; simpl in Horder; [|done].
  by apply IH.
Qed.

(** X16. The assignment phase of the update respects the capacity of the
    supporters: when no roster is longer than its max_peer before
    [_assign_starving_peers_to_active_supporters], none is afterwards.  It
    assigns to the head of the active list only while that supporter has a
    free slot. *)
Theorem X16_assignment_phase_within_capacity (now : Z) (d : SupporterMonitor) :
  within_capacity d ->
  within_capacity (final_state (_assign_starving_peers_to_active_supporters now d)).
Proof.
  intros Hcap. unfold _assign_starving_peers_to_active_supporters.
  unfold bind, get. by apply within_capacity_assign_starving_loop.
Qed.

Lemma X16_assignment_phase_within_capacity_witness :
  within_capacity
    (final_state (_assign_starving_peers_to_active_supporters 3000
       (run all_answer (scenario_min_max_together ++ [Tick 2000]) initial_monitor))).
Proof.
  apply X16_assignment_phase_within_capacity.
  intros s sup Hsup.
  destruct s as [|[|s]]; vm_compute in Hsup; [| |discriminate Hsup];
    injection Hsup as <-; vm_compute; discriminate.
Defined.

(** *** One assignment *)

Lemma receive_msg_peer_supported_starving now q :
  _state q = StarvingState ->
  exists q', receive_msg now MSG_PEER_SUPPORTED q = Ok tt q' /\
             _state q' = SupportedState /\
             _last_received_msg q' = Some MSG_PEER_SUPPORTED /\
             peer_key q' = peer_key q.
Proof.
  intros Hst. unfold receive_msg, bind, modify. simpl.
  unfold transition, bind, get, modify. simpl. rewrite Hst.
  eexists. split; [reflexivity|].
  unfold StarvingState_transition. simpl.
  by destruct (negb (peer_is_alive now _)).
Qed.

Lemma peer_eq_refl d p q : peers d !! p = Some q -> peer_eq d p p = true.
Proof. intros Hq. unfold peer_eq. rewrite Hq. by apply bool_decide_eq_true. Qed.

Lemma add_supported_peer_on_roster s p d sup q :
  supporters d !! s = Some sup -> peers d !! p = Some q ->
  exists d1, add_supported_peer s p d = Ok tt d1 /\
    peers d1 = peers d /\
    _active_supporters d1 = _active_supporters d /\
    number_of_assignments d1 = number_of_assignments d /\
    peer_in d1 p (get_supported_peers d1 s) = true.
Proof.
  intros Hsup Hq. unfold add_supported_peer, bind, get, on_supporter, modify, ret.
  destruct (peer_in d p (get_supported_peers d s)) eqn:Hin; simpl.
  - by eexists.
  - eexists. split; [reflexivity|]. simpl. repeat split.
    unfold peer_in, get_supported_peers. simpl. unfold ref in *.
    rewrite !list_lookup_alter_eq, Hsup. simpl.
    rewrite existsb_app. simpl.
    rewrite (peer_eq_refl _ p q) by done. by rewrite orb_true_r.
Qed.

(** X17. An assignment to a supporter of the active list: the call returns,
    a Starving peer is Supported afterwards with PEER_SUPPORTED as its last
    message, whether or not it is alive, the peer is on the roster of the
    supporter, and the active list holds the same supporters as before. *)
Theorem X17_assignment_supports_the_peer (now : Z) (p s : ref) (d : SupporterMonitor)
    (q : MonitoredPeer) (sup : MonitoredSupporter) :
  peers d !! p = Some q ->
  supporters d !! s = Some sup ->
  supporter_in d s (_active_supporters d) = true ->
  _state q = StarvingState ->
  exists d' q',
    assign_peer_to_supporter now p s d = Ok tt d' /\
    peers d' !! p = Some q' /\
    _state q' = SupportedState /\
    _last_received_msg q' = Some MSG_PEER_SUPPORTED /\
    peer_in d' p (get_supported_peers d' s) = true /\
    _active_supporters d' ≡ₚ _active_supporters d.
Proof.
  intros Hq Hsup Hactive Hst.
  destruct (receive_msg_peer_supported_starving now q Hst) as (q' & Hrecv & Hst' & Hmsg & Hkey).
  unfold assign_peer_to_supporter. unfold bind at 1. unfold get at 1.
  rewrite Hactive. simpl.
  unfold bind at 1.
  destruct (add_supported_peer_on_roster s p d sup q Hsup Hq)
    as (d1 & -> & Hp1 & Ha1 & Hn1 & Hin1).
  unfold bind at 1. unfold order_active_supporters at 1. unfold modify at 1.
  set (d2 := set_active_supporters _ d1).
  assert (Hperm2 : _active_supporters d2 ≡ₚ _active_supporters d).
  { rewrite <- Ha1.
    apply (sort_tagged_descending (fun s => (s, available_slots d1 s)) fst snd
             (available_slots d1) (fun _ => eq_refl) (fun _ => eq_refl)). }
  unfold bind at 1. unfold on_peer at 1.
  change (peers d2) with (peers d1). rewrite Hp1, Hq, Hrecv.
  set (d3 := set_peers (<[p := q']> (peers d)) d2).
  assert (Hq3 : peers d3 !! p = Some q').
  { simpl. apply list_lookup_insert_eq. apply lookup_lt_is_Some. by eexists. }
  assert (Hin3 : peer_in d3 p (get_supported_peers d3 s) = true).
  { change (get_supported_peers d3 s) with (get_supported_peers d1 s).
    unfold peer_in in *. apply existsb_exists in Hin1 as (x & Hx & Heq).
    apply existsb_exists. exists x. split; [done|].
    unfold peer_eq in *. rewrite Hq3.
    rewrite Hp1, Hq in Heq.
    destruct (decide (x = p)) as [->|Hne].
    - rewrite Hq3. by apply bool_decide_eq_true.
    - simpl. unfold ref in *. rewrite list_lookup_insert_ne by done.
      destruct (peers d !! x) as [qx|]; [|done].
      apply bool_decide_eq_true in Heq. apply bool_decide_eq_true. congruence. }
  unfold peer_id_of. rewrite Hq. simpl.
  unfold bind, modify, get, raise, dict_setdefault. simpl.
  destruct (number_of_assignments d1 !! _id q) as [n|] eqn:Hcount.
  - rewrite Hcount. exists (set_number_of_assignments
                              (<[_id q := n + 1]> (number_of_assignments d1)) d3), q'.
    split; [reflexivity|]. repeat split; done.
  - rewrite lookup_insert_eq. eexists _, q'. split; [reflexivity|]. repeat split; done.
Qed.

Lemma X17_assignment_supports_the_peer_witness :
  let d := final_state (activate_supporter 1%nat
             (run all_answer scenario_min_max_together initial_monitor)) in
  exists d', assign_peer_to_supporter 2000 0%nat 1%nat d = Ok tt d' /\
             peer_state_is d' SupportedState 0%nat = true.
Proof.
  intros d.
  destruct (X17_assignment_supports_the_peer 2000 0%nat 1%nat d
              (mkMonitoredPeer (Some MSG_SUPPORT_REQUIRED) (Some 1000) 10000 5000
                 StarvingState None [1000; 1000; 1000; 1000] 4
                 "XXX---34920F" "192.168.2.50" 10000 1)
              (mkMonitoredSupporter "2" ("192.168.2.11", 5001) 1 3 [] true))
    as (d' & q' & Hrun & Hq' & Hst & _).
  - reflexivity.
  - reflexivity.
  - reflexivity.
  - reflexivity.
  - exists d'. split; [exact Hrun|].
    unfold peer_state_is. rewrite Hq'. by apply bool_decide_eq_true.
Defined.

(** *** The activation threshold *)

Lemma sorted_list_of_inactive_supporters_elem d s m :
  (s, m) ∈ sorted_list_of_inactive_supporters d ->
  s ∈ _monitored_supporters d /\
  supporter_in d s (_active_supporters d) = false /\
  m = get_min_peer d s.
Proof.
  unfold sorted_list_of_inactive_supporters. rewrite stable_sort_perm.
  intros Hin. apply list_elem_of_In, in_map_iff in Hin as (s' & Heq & Hin).
  injection Heq as <- <-.
  apply filter_In in Hin as [Hin Hinactive].
  repeat split; [by apply list_elem_of_In|].
  by destruct (supporter_in d s' (_active_supporters d)).
Qed.

(** X18. Nothing is activated below the threshold: when the min_peer of
    every registered supporter outside the active list is larger than the
    number of Starving peers, the activation phase returns and leaves the
    coordinator exactly as it was. *)
Theorem X18_no_activation_below_min_peer (now : Z) (d : SupporterMonitor) :
  (forall s, s ∈ _monitored_supporters d ->
             supporter_in d s (_active_supporters d) = false ->
             Z.of_nat (length (filter_peers_by_state StarvingState d)) < get_min_peer d s) ->
  _check_for_activation_of_new_supporters now d = Ok tt d.
Proof.
  intros Hmin. unfold _check_for_activation_of_new_supporters, bind, get.
  assert (Hindex : retrieve_activation_index d (filter_peers_by_state StarvingState d)
                     (sorted_list_of_inactive_supporters d) = -1).
  { unfold retrieve_activation_index.
    destruct (sorted_list_of_inactive_supporters d) as [|[s m] rest] eqn:Hsorted; [done|].
    simpl.
    destruct (sorted_list_of_inactive_supporters_elem d s m) as (Hreg & Hinactive & ->).
    { rewrite Hsorted. apply elem_of_cons. by left. }
    specialize (Hmin s Hreg Hinactive).
    destruct (get_min_peer d s <=? _) eqn:Hle; [|done].
    apply Z.leb_le in Hle. lia. }
  rewrite Hindex. reflexivity.
Qed.

Lemma X18_no_activation_below_min_peer_witness :
  let d := run all_answer scenario_peers_remain_starving initial_monitor_of_tests in
  _check_for_activation_of_new_supporters 2000 d = Ok tt d.
Proof.
  intros d. apply X18_no_activation_below_min_peer.
  intros s Hs _. vm_compute in Hs.
  apply list_elem_of_singleton in Hs as ->. vm_compute. reflexivity.
Defined.

(** *** Sending the peer lists *)

Lemma list_alter_fixed {A} (f : A -> A) (l : list A) (i : nat) :
  (forall x, l !! i = Some x -> f x = x) -> alter f i l = l.
Proof.
  revert i. induction l as [|y l IH]; intros [|i] Hf; simpl; try done.
  - by rewrite (Hf y).
  - f_equal. apply IH. intros x Hx. by apply Hf.
Qed.

Lemma set_updated_false_fixed sup : _updated sup = false -> set_updated false sup = sup.
Proof. destruct sup. simpl. by intros ->. Qed.

Lemma set_supporters_same d : set_supporters (supporters d) d = d.
Proof. by destruct d. Qed.

Lemma foldl_alter_lookup {A} (f : A -> A) (l : list nat) :
  (forall x, f (f x) = f x) ->
  forall (l0 : list A) (i : nat),
    foldl (fun acc s => alter f s acc) l0 l !! i =
    if decide (i ∈ l) then f <$> l0 !! i else l0 !! i.
Proof.
  intros Hidem. induction l as [|s l IH]; intros l0 i; simpl.
  - destruct (decide (i ∈ [])) as [Hin|_]; [by apply elem_of_nil in Hin|done].
  - rewrite IH. destruct (decide (i = s)) as [->|Hne].
    + rewrite list_lookup_alter_eq.
      destruct (decide (s ∈ s :: l)) as [_|Hout]; [|exfalso; apply Hout; by left].
      destruct (decide (s ∈ l)); [|done].
      destruct (l0 !! s) as [x|]; simpl; [|done]. by rewrite Hidem.
    + rewrite list_lookup_alter_ne by done.
      destruct (decide (i ∈ l)) as [Hin|Hout];
        destruct (decide (i ∈ s :: l)) as [Hin'|Hout']; try done.
      * exfalso. apply Hout'. by right.
      * exfalso. apply elem_of_cons in Hin' as [?|?]; done.
Qed.

Lemma peers_to_be_unchoked_alter_flag d s s' b :
  peers_to_be_unchoked (set_supporters (alter (set_updated b) s' (supporters d)) d) s =
  peers_to_be_unchoked d s.
Proof.
  unfold peers_to_be_unchoked, get_supported_peers. simpl. unfold ref in *.
  destruct (decide (s = s')) as [->|Hne].
  - rewrite list_lookup_alter_eq. by destruct (supporters d !! s').
  - by rewrite list_lookup_alter_ne.
Qed.

(** One round of the loop of [dispatch_peer_lists]. *)
Lemma dispatch_peer_lists_round env proxies s d :
  (changed ← reset_update_counter s;
   if negb changed then ret tt
   else
     d' ← get;
     let l := peers_to_be_unchoked d' s in
     match supporter_key_of d' s ≫= (fun k => proxies !! k) with
     | Some p =>
         let answered := negb (receive_peer_list_raises env p l) in
         modify (fun d2 => set_sent_peer_lists (sent_peer_lists d2 ++ [(p, l, answered)]) d2)
     | None => ret tt
     end) d =
  Ok tt (set_sent_peer_lists
           (sent_peer_lists d ++ option_list (peer_list_for env proxies d s))
           (set_supporters (alter (set_updated false) s (supporters d)) d)).
Proof.
  unfold reset_update_counter, on_supporter, bind, get, modify, ret, peer_list_for.
  destruct (supporters d !! s) as [sup|] eqn:Hsup; simpl.
  - destruct (_updated sup); simpl.
    + rewrite peers_to_be_unchoked_alter_flag.
      assert (Hkey : supporter_key_of
                (set_supporters (alter (set_updated false) s (supporters d)) d) s =
              Some (supporter_key sup)).
      { unfold supporter_key_of. simpl. unfold ref in *.
        by rewrite list_lookup_alter_eq, Hsup. }
      rewrite Hkey. simpl.
      destruct (proxies !! supporter_key sup) as [p|]; simpl; [done|].
      by rewrite app_nil_r.
    + by rewrite app_nil_r.
  - by rewrite app_nil_r.
Qed.

Lemma omap_ext_in {A B} (f g : A -> option B) (l : list A) :
  (forall x, x ∈ l -> f x = g x) -> omap f l = omap g l.
Proof.
  induction l as [|x l IH]; intros Hext; [done|]. csimpl.
  rewrite (Hext x) by (by left). rewrite IH; [done|].
  intros y Hy. apply Hext. by right.
Qed.

Lemma peer_list_for_same env proxies d d1 s :
  supporters d1 !! s = supporters d !! s -> peers d1 = peers d ->
  peer_list_for env proxies d1 s = peer_list_for env proxies d s.
Proof.
  intros Hsup Hpeers.
  unfold peer_list_for, peers_to_be_unchoked, get_supported_peers.
  by rewrite Hsup, Hpeers.
Qed.

Lemma set_sent_peer_lists_same d : set_sent_peer_lists (sent_peer_lists d) d = d.
Proof. by destruct d. Qed.

(** The loop of [dispatch_peer_lists] over the supporters [l]. *)
Lemma dispatch_peer_lists_loop env proxies l : forall d,
  exists sent,
    for_each l (fun supporter =>
      changed ← reset_update_counter supporter;
      if negb changed then ret tt
      else
        d' ← get;
        let l := peers_to_be_unchoked d' supporter in
        match supporter_key_of d' supporter ≫= (fun k => proxies !! k) with
        | Some p =>
            let answered := negb (receive_peer_list_raises env p l) in
            modify (fun d2 =>
              set_sent_peer_lists (sent_peer_lists d2 ++ [(p, l, answered)]) d2)
        | None => ret tt
        end) d =
    Ok tt (set_sent_peer_lists (sent_peer_lists d ++ sent)
             (set_supporters
                (foldl (fun acc s => alter (set_updated false) s acc) (supporters d) l) d)) /\
    (NoDup l -> sent = omap (peer_list_for env proxies d) l).
Proof.
  induction l as [|s l IH]; intros d.
  - exists []. split; [|done]. simpl. unfold ret.
    by rewrite app_nil_r, set_supporters_same, set_sent_peer_lists_same.
  - pose (d1 := set_sent_peer_lists
                  (sent_peer_lists d ++ option_list (peer_list_for env proxies d s))
                  (set_supporters (alter (set_updated false) s (supporters d)) d)).
    destruct (IH d1) as (sent & Hrun & Hsent).
    exists (option_list (peer_list_for env proxies d s) ++ sent). split.
    + cbn [for_each]. unfold bind at 1. rewrite dispatch_peer_lists_round.
      etrans; [exact Hrun|]. simpl. by rewrite app_assoc.
    + intros Hnodup. apply NoDup_cons in Hnodup as [Hout Hnodup].
      rewrite (Hsent Hnodup).
      rewrite (omap_ext_in (peer_list_for env proxies d1) (peer_list_for env proxies d)).
      * csimpl. by destruct (peer_list_for env proxies d s).
      * intros s' Hs'. apply peer_list_for_same; [|done].
        simpl. unfold ref in *. apply list_lookup_alter_ne. by intros ->.
Qed.

(** Nothing happens in the loop when no supporter of [l] has its flag set. *)
Lemma dispatch_peer_lists_loop_clean (env : Env) (proxies : gmap supporter_key_t proxy) l d :
  (forall s sup, s ∈ l -> supporters d !! s = Some sup -> _updated sup = false) ->
  for_each l (fun supporter =>
    changed ← reset_update_counter supporter;
    if negb changed then ret tt
    else
      d' ← get;
      let l := peers_to_be_unchoked d' supporter in
      match supporter_key_of d' supporter ≫= (fun k => proxies !! k) with
      | Some p =>
          let answered := negb (receive_peer_list_raises env p l) in
          modify (fun d2 =>
            set_sent_peer_lists (sent_peer_lists d2 ++ [(p, l, answered)]) d2)
      | None => ret tt
      end) d = Ok tt d.
Proof.
  induction l as [|s l IH]; intros Hclean; [done|].
  cbn [for_each]. unfold bind at 1. rewrite dispatch_peer_lists_round.
  assert (Hnone : peer_list_for env proxies d s = None).
  { unfold peer_list_for. destruct (supporters d !! s) as [sup|] eqn:Hsup; [|done].
    rewrite (Hclean s sup); [done|by left|done]. }
  rewrite Hnone. simpl. rewrite app_nil_r.
  rewrite list_alter_fixed.
  - rewrite set_supporters_same, set_sent_peer_lists_same. apply IH.
    intros s' sup Hs'. apply Hclean. by right.
  - intros sup Hsup. apply set_updated_false_fixed. apply (Hclean s); [by left|done].
Qed.

(** X19. With the XML-RPC dispatcher and a registry that names no supporter
    twice, [dispatch_peer_lists] returns and makes exactly one
    [receive_peer_list] call for every registered supporter whose list
    changed and that has a proxy, in the order of the registry, each with the
    ID, IP and port of the peers on the roster; a call that fails is caught
    and recorded as not answered. *)
Theorem X19_dispatch_sends_the_changed_lists (env : Env) (d : SupporterMonitor)
    (proxies : gmap supporter_key_t proxy) :
  _dispatcher d = SupporteeListDispatcher proxies ->
  NoDup (_monitored_supporters d) ->
  exists d',
    dispatch_peer_lists env d = Ok tt d' /\
    sent_peer_lists d' =
      sent_peer_lists d ++ omap (peer_list_for env proxies d) (_monitored_supporters d).
Proof.
  intros Hdisp Hnodup.
  destruct (dispatch_peer_lists_loop env proxies (_monitored_supporters d) d)
    as (sent & Hrun & Hsent).
  eexists. split.
  - unfold dispatch_peer_lists, bind at 1, get at 1. rewrite Hdisp. exact Hrun.
  - simpl. by rewrite (Hsent Hnodup).
Qed.

Lemma X19_dispatch_sends_the_changed_lists_witness :
  let d := run all_answer scenario_min_max_together initial_monitor in
  let proxies := match _dispatcher d with
                 | SupporteeListDispatcher proxies => proxies
                 | MockSupporteeListDispatcher => ∅
                 end in
  exists d', dispatch_peer_lists nobody_answers d = Ok tt d' /\
             sent_peer_lists d' =
               sent_peer_lists d ++
               omap (peer_list_for nobody_answers proxies d) (_monitored_supporters d).
Proof.
  intros d proxies.
  apply (X19_dispatch_sends_the_changed_lists nobody_answers d proxies).
  - reflexivity.
  - vm_compute. apply NoDup_cons. split.
    + intros Hin. apply list_elem_of_singleton in Hin. discriminate Hin.
    + apply NoDup_cons. split; [apply not_elem_of_nil|apply NoDup_nil_2].
Defined.

(** X20. With the XML-RPC dispatcher, [dispatch_peer_lists] returns and
    clears the flag of every registered supporter and changes no other
    supporter, no roster and no peer; a second call right after it sends
    nothing and leaves the coordinator as it is. *)
Theorem X20_dispatch_clears_the_flags (env : Env) (d : SupporterMonitor)
    (proxies : gmap supporter_key_t proxy) :
  _dispatcher d = SupporteeListDispatcher proxies ->
  exists d',
    dispatch_peer_lists env d = Ok tt d' /\
    peers d' = peers d /\
    (forall s, supporters d' !! s =
               if decide (s ∈ _monitored_supporters d)
               then set_updated false <$> supporters d !! s
               else supporters d !! s) /\
    dispatch_peer_lists env d' = Ok tt d'.
Proof.
  intros Hdisp.
  destruct (dispatch_peer_lists_loop env proxies (_monitored_supporters d) d)
    as (sent & Hrun & _).
  eexists. split.
  { unfold dispatch_peer_lists, bind at 1, get at 1. rewrite Hdisp. exact Hrun. }
  split; [done|].
  assert (Hflags : forall s,
    foldl (fun acc s => alter (set_updated false) s acc) (supporters d)
      (_monitored_supporters d) !! s =
    if decide (s ∈ _monitored_supporters d)
    then set_updated false <$> supporters d !! s else supporters d !! s).
  { intros s. by apply foldl_alter_lookup. }
  split; [exact Hflags|].
  unfold dispatch_peer_lists, bind at 1, get at 1. simpl. rewrite Hdisp.
  apply dispatch_peer_lists_loop_clean. simpl.
  intros s sup Hs Hsup. rewrite Hflags in Hsup.
  case_decide; [|done].
  unfold ref in *.
  destruct (supporters d !! s) as [sup0|]; simpl in Hsup; [|done].
  by injection Hsup as <-.
Qed.

Lemma X20_dispatch_clears_the_flags_witness :
  let d := run all_answer scenario_min_max_together initial_monitor in
  exists d', dispatch_peer_lists all_answer d = Ok tt d' /\
             dispatch_peer_lists all_answer d' = Ok tt d'.
Proof.
  intros d.
  destruct (X20_dispatch_clears_the_flags all_answer d
              match _dispatcher d with
              | SupporteeListDispatcher proxies => proxies
              | MockSupporteeListDispatcher => ∅
              end)
    as (d' & Hrun & _ & _ & Hagain).
  - reflexivity.
  - exists d'. split; [exact Hrun|exact Hagain].
Defined.

(** *** Probing the supporters *)

Lemma set_dead_supporters_same d : set_dead_supporters (_dead_supporters d) d = d.
Proof. by destruct d. Qed.

(** The loop of [query_all_supporters]; [d0] is the coordinator the loop
    started in. *)
Lemma query_all_supporters_loop (env : Env) (proxies : gmap supporter_key_t proxy)
    (d0 : SupporterMonitor) (l : list ref) :
  (forall s k, s ∈ l -> supporter_key_of d0 s = Some k -> is_Some (proxies !! k)) ->
  forall d,
    for_each l (fun supporter =>
      match supporter_key_of d0 supporter with
      | None => ret tt
      | Some k =>
          match proxies !! k with
          | None => raise KeyError
          | Some p =>
              if is_alive_raises env p
              then modify (fun d' =>
                     set_dead_supporters (_dead_supporters d' ++ [supporter]) d')
              else ret tt
          end
      end) d =
    Ok tt (set_dead_supporters
             (_dead_supporters d ++ List.filter (probe_fails env proxies d0) l) d).
Proof.
  induction l as [|s l IH]; intros Hproxy d.
  - simpl. unfold ret. by rewrite app_nil_r, set_dead_supporters_same.
  - cbn [for_each List.filter]. unfold bind at 1. unfold probe_fails at 1.
    assert (Hrest : forall s' k, s' ∈ l -> supporter_key_of d0 s' = Some k ->
                                 is_Some (proxies !! k)).
    { intros s' k Hs'. apply Hproxy. by right. }
    destruct (supporter_key_of d0 s) as [k|] eqn:Hkey; simpl.
    + destruct (Hproxy s k) as [p Hp]; [by left|done|]. rewrite Hp.
      destruct (is_alive_raises env p); unfold modify, ret.
      * rewrite (IH Hrest). simpl. by rewrite <- app_assoc.
      * by rewrite (IH Hrest).
    + unfold ret. by rewrite (IH Hrest).
Qed.

(** X21. With the XML-RPC dispatcher and a proxy for every registered
    supporter, [query_all_supporters] returns and appends to the dead list
    exactly the registered supporters whose [is_alive] probe raises, in the
    order of the registry; it changes nothing else and removes nobody
    itself. *)
Theorem X21_query_marks_the_silent_supporters (env : Env) (d : SupporterMonitor)
    (proxies : gmap supporter_key_t proxy) :
  _dispatcher d = SupporteeListDispatcher proxies ->
  (forall s k, s ∈ _monitored_supporters d -> supporter_key_of d s = Some k ->
               is_Some (proxies !! k)) ->
  query_all_supporters env d =
  Ok tt (set_dead_supporters
           (_dead_supporters d ++
            List.filter (probe_fails env proxies d) (_monitored_supporters d)) d).
Proof.
  intros Hdisp Hproxy. unfold query_all_supporters, bind at 1, get at 1.
  rewrite Hdisp. by apply query_all_supporters_loop.
Qed.

Lemma X21_query_marks_the_silent_supporters_witness :
  let d := run all_answer scenario_min_max_together initial_monitor in
  let proxies := match _dispatcher d with
                 | SupporteeListDispatcher proxies => proxies
                 | MockSupporteeListDispatcher => ∅
                 end in
  query_all_supporters nobody_answers d =
  Ok tt (set_dead_supporters
           (_dead_supporters d ++
            List.filter (probe_fails nobody_answers proxies d) (_monitored_supporters d)) d).
Proof.
  intros d proxies. apply X21_query_marks_the_silent_supporters.
  - reflexivity.
  - intros s k Hs Hk. vm_compute in Hs.
    apply elem_of_cons in Hs as [->|Hs].
    { vm_compute in Hk. injection Hk as <-. vm_compute. by eexists. }
    apply list_elem_of_singleton in Hs as ->.
    vm_compute in Hk. injection Hk as <-. vm_compute. by eexists.
Defined.

(** X22. The proxy is looked up before the [try]: when a registered
    supporter has no proxy, [query_all_supporters] ends with a KeyError
    instead of marking it. *)
Theorem X22_query_without_proxy_raises (env : Env) (d : SupporterMonitor)
    (proxies : gmap supporter_key_t proxy) (s : ref) (k : supporter_key_t) :
  _dispatcher d = SupporteeListDispatcher proxies ->
  s ∈ _monitored_supporters d ->
  supporter_key_of d s = Some k ->
  proxies !! k = None ->
  exception_of (query_all_supporters env d) = Some KeyError.
Proof.
  intros Hdisp Hs Hkey Hnone. unfold query_all_supporters, bind at 1, get at 1.
  rewrite Hdisp. generalize d at 3.
  induction (_monitored_supporters d) as [|s' l IH]; intros d1.
  - by apply elem_of_nil in Hs.
  - cbn [for_each]. unfold bind at 1.
    destruct (decide (s' = s)) as [->|Hne].
    + by rewrite Hkey, Hnone.
    + apply elem_of_cons in Hs as [?|Hs]; [done|].
      destruct (supporter_key_of d s') as [k'|]; [|apply (IH Hs)].
      destruct (proxies !! k') as [p|]; [|done].
      destruct (is_alive_raises env p); apply (IH Hs).
Qed.

Lemma X22_query_without_proxy_raises_witness :
  let d := final_state (unregister_proxy 0%nat
             (run all_answer scenario_min_max_together initial_monitor)) in
  exception_of (query_all_supporters all_answer d) = Some KeyError.
Proof.
  intros d.
  apply (X22_query_without_proxy_raises all_answer d
           match _dispatcher d with
           | SupporteeListDispatcher proxies => proxies
           | MockSupporteeListDispatcher => ∅
           end 0%nat ("1", ("192.168.2.10", 5000), 2, 3)).
  - reflexivity.
  - vm_compute. by left.
  - reflexivity.
  - vm_compute. reflexivity.
Defined.

(** *** Cancelling the support of a supporter *)

Lemma list_insert_as_alter {A} (f : A -> A) (l : list A) (i : nat) (x : A) :
  l !! i = Some x -> <[i := f x]> l = alter f i l.
Proof.
  revert i. induction l as [|y l IH]; intros [|i] Hx; simpl in *; try done.
  - by injection Hx as ->.
  - f_equal. by apply IH.
Qed.

Lemma set_peers_supporters_same d : set_peers (peers d) (set_supporters (supporters d) d) = d.
Proof. by destruct d. Qed.

(** The loop of [cancel_support_for_all_peers] over the roster [l] of the
    supporter [s]: every round removes the front peer of the roster. *)
Lemma cancel_support_loop (s : ref) (l : list ref) : forall d sup,
  supporters d !! s = Some sup ->
  _supported_peers sup = l ->
  Forall (fun p => is_Some (peers d !! p)) l ->
  exists supporters',
    for_each l (fun mp =>
      remove_supported_peer s mp ;;
      on_peer mp (modify support_aborted)) d =
    Ok tt (set_peers (foldl (fun acc p => alter support_aborted p acc) (peers d) l)
             (set_supporters supporters' d)) /\
    (forall s', s' <> s -> supporters' !! s' = supporters d !! s') /\
    (exists sup', supporters' !! s = Some sup' /\ _supported_peers sup' = [] /\
                  supporter_key sup' = supporter_key sup).
Proof.
  induction l as [|x rest IH]; intros d sup Hsup Hroster Hvalid.
  - exists (supporters d). split; [|split; [done|by exists sup]].
    simpl. unfold ret. by rewrite set_peers_supporters_same.
  - apply Forall_cons in Hvalid as [[q Hq] Hvalid].
    cbn [for_each]. unfold bind at 1. unfold bind at 1.
    assert (Hfront : alter (fun sup0 => set_supported_peers
                        (remove_first (peer_eq d x) (_supported_peers sup0)) sup0) s
                       (supporters d) =
                     alter (fun sup0 => set_supported_peers rest sup0) s (supporters d)).
    { apply list_alter_ext; [|done..].
      intros sup0 Hsup0. unfold ref in *. rewrite Hsup in Hsup0. injection Hsup0 as <-.
      rewrite Hroster. cbn [remove_first]. by rewrite (peer_eq_refl d x q Hq). }
    assert (Hstep : remove_supported_peer s x d =
      Ok tt (set_supporters
               (alter (set_updated true) s
                  (alter (fun sup0 => set_supported_peers rest sup0) s (supporters d))) d)).
    { unfold remove_supported_peer, bind, get, on_supporter, modify.
      unfold get_supported_peers. rewrite Hsup, Hroster.
      unfold peer_in. cbn [existsb]. rewrite (peer_eq_refl d x q Hq). simpl.
      by rewrite Hfront. }
    rewrite Hstep. unfold on_peer at 1. cbn [peers set_supporters]. rewrite Hq.
    unfold modify at 1.
    set (d2 := set_peers _ _).
    destruct (IH d2 (set_updated true (set_supported_peers rest sup)))
      as (supporters' & Hrun & Hother & sup' & Hsup' & Hempty & Hkey).
    { simpl. unfold ref in *. by rewrite !list_lookup_alter_eq, Hsup. }
    { done. }
    { eapply Forall_impl; [exact Hvalid|]. intros p [qp Hp]. simpl.
      unfold ref in *. destruct (decide (p = x)) as [->|Hne].
      - rewrite list_lookup_insert_eq; [by eexists|]. apply lookup_lt_is_Some. by eexists.
      - rewrite list_lookup_insert_ne by done. by eexists. }
    exists supporters'. split; [|split].
    + etrans; [exact Hrun|]. subst d2. simpl. unfold ref in *.
      by rewrite (list_insert_as_alter support_aborted _ _ q Hq).
    + intros s' Hne. rewrite (Hother s' Hne). subst d2. simpl. unfold ref in *.
      by rewrite !list_lookup_alter_ne.
    + by exists sup'.
Qed.

(** X23. [cancel_support_for_all_peers] on a supporter whose roster names
    existing peers returns, leaves the roster empty, sets every peer that was
    on the roster to Starving and changes nothing else of it, changes no
    other peer and no other supporter, and leaves the registries and the
    active list as they are. *)
Theorem X23_cancel_support_for_all_peers (s : ref) (d : SupporterMonitor)
    (sup : MonitoredSupporter) :
  supporters d !! s = Some sup ->
  Forall (fun p => is_Some (peers d !! p)) (_supported_peers sup) ->
  exists d',
    cancel_support_for_all_peers s d = Ok tt d' /\
    get_supported_peers d' s = [] /\
    (forall p, peers d' !! p =
               if decide (p ∈ _supported_peers sup)
               then support_aborted <$> peers d !! p
               else peers d !! p) /\
    (forall s', s' <> s -> supporters d' !! s' = supporters d !! s') /\
    _monitored_peers d' = _monitored_peers d /\
    _monitored_supporters d' = _monitored_supporters d /\
    _active_supporters d' = _active_supporters d.
Proof.
  intros Hsup Hvalid.
  destruct (cancel_support_loop s (_supported_peers sup) d sup Hsup eq_refl Hvalid)
    as (supporters' & Hrun & Hother & sup' & Hsup' & Hempty & _).
  eexists. split.
  { unfold cancel_support_for_all_peers, bind at 1, get at 1.
    unfold get_supported_peers. rewrite Hsup. exact Hrun. }
  split; [|split; [|done]].
  - unfold get_supported_peers. simpl. by rewrite Hsup'.
  - intros p. simpl. by apply foldl_alter_lookup.
Qed.

Lemma X23_cancel_support_for_all_peers_witness :
  let d := run all_answer (scenario_min_max_together ++ [Tick 2000]) initial_monitor in
  exists d', cancel_support_for_all_peers 1%nat d = Ok tt d' /\
             get_supported_peers d' 1%nat = [].
Proof.
  intros d.
  destruct (X23_cancel_support_for_all_peers 1%nat d
              (mkMonitoredSupporter "2" ("192.168.2.11", 5001) 1 3
                 [0%nat; 1%nat; 2%nat] false))
    as (d' & Hrun & Hempty & _).
  - vm_compute. reflexivity.
  - repeat (apply Forall_cons; split; [vm_compute; by eexists|]). apply Forall_nil_2.
  - exists d'. split; [exact Hrun|exact Hempty].
Defined.

(** *** Unregistering a supporter *)

Lemma remove_first_ext {A} (f g : A -> bool) (l : list A) :
  (forall x, f x = g x) -> remove_first f l = remove_first g l.
Proof.
  intros Hext. induction l as [|y l IH]; [done|]. simpl.
  rewrite Hext, IH. done.
Qed.

Lemma supporter_eq_refl d s sup : supporters d !! s = Some sup -> supporter_eq d s s = true.
Proof. intros Hsup. unfold supporter_eq. rewrite Hsup. by apply bool_decide_eq_true. Qed.

(** X24. Unregistering a registered supporter returns, takes it off the
    registry ([list.remove]: the first entry equal to it), deletes its proxy,
    empties its roster and leaves every peer of the roster Starving; the
    active list is not touched, so the supporter stays on it when it was
    active. *)
Theorem X24_unregister_monitored_supporter (s : ref) (d : SupporterMonitor)
    (sup : MonitoredSupporter) (proxies : gmap supporter_key_t proxy) :
  supporters d !! s = Some sup ->
  Forall (fun p => is_Some (peers d !! p)) (_supported_peers sup) ->
  s ∈ _monitored_supporters d ->
  _dispatcher d = SupporteeListDispatcher proxies ->
  exists d',
    unregister_monitored_supporter s d = Ok tt d' /\
    _monitored_supporters d' = remove_first (supporter_eq d s) (_monitored_supporters d) /\
    _dispatcher d' = SupporteeListDispatcher (delete (supporter_key sup) proxies) /\
    get_supported_peers d' s = [] /\
    (forall p, p ∈ _supported_peers sup -> peer_state_is d' StarvingState p = true) /\
    _active_supporters d' = _active_supporters d.
Proof.
  intros Hsup Hvalid Hreg Hdisp.
  destruct (cancel_support_loop s (_supported_peers sup) d sup Hsup eq_refl Hvalid)
    as (supporters' & Hrun & Hother & sup' & Hsup' & Hempty & Hkey).
  assert (Hin : supporter_in d s (_monitored_supporters d) = true).
  { unfold supporter_in. apply existsb_exists. exists s.
    split; [by apply list_elem_of_In|by apply (supporter_eq_refl d s sup)]. }
  assert (Hcancel : cancel_support_for_all_peers s d =
            Ok tt (set_peers
                     (foldl (fun acc p => alter support_aborted p acc) (peers d)
                        (_supported_peers sup))
                     (set_supporters supporters' d))).
  { unfold cancel_support_for_all_peers, bind at 1, get at 1.
    unfold get_supported_peers. rewrite Hsup. exact Hrun. }
  eexists. split.
  { unfold unregister_monitored_supporter, bind at 1, get at 1. rewrite Hin.
    unfold bind at 1. rewrite Hcancel. unfold unregister_proxy, bind, modify. simpl.
    unfold ref in *. rewrite Hdisp, Hsup'. reflexivity. }
  simpl. rewrite Hkey. repeat split.
  - apply remove_first_ext. intros r. unfold supporter_eq. simpl. rewrite Hsup', Hsup.
    destruct (decide (r = s)) as [->|Hne].
    + rewrite Hsup', Hsup. by rewrite Hkey.
    + by rewrite (Hother r Hne), Hkey.
  - unfold get_supported_peers. simpl. by rewrite Hsup'.
  - intros p Hp. unfold peer_state_is. simpl.
    rewrite (foldl_alter_lookup support_aborted (_supported_peers sup)) by done.
    rewrite Forall_forall in Hvalid. destruct (Hvalid p Hp) as [q Hq].
    unfold ref in *. rewrite Hq. by case_decide.
Qed.

Lemma X24_unregister_monitored_supporter_witness :
  let d := run all_answer (scenario_min_max_together ++ [Tick 2000]) initial_monitor in
  exists d', unregister_monitored_supporter 1%nat d = Ok tt d' /\
             _monitored_supporters d' = [0%nat] /\
             _active_supporters d' = [1%nat].
Proof.
  intros d.
  destruct (X24_unregister_monitored_supporter 1%nat d
              (mkMonitoredSupporter "2" ("192.168.2.11", 5001) 1 3
                 [0%nat; 1%nat; 2%nat] false)
              match _dispatcher d with
              | SupporteeListDispatcher proxies => proxies
              | MockSupporteeListDispatcher => ∅
              end)
    as (d' & Hrun & Hreg & _ & _ & _ & Hactive).
  - vm_compute. reflexivity.
  - repeat (apply Forall_cons; split; [vm_compute; by eexists|]). apply Forall_nil_2.
  - vm_compute. right. left.
  - reflexivity.
  - exists d'. split; [exact Hrun|]. rewrite Hreg, Hactive. vm_compute. by split.
Defined.

(** *** What an update never does: registering, changing an identity *)

Section Relates.
Context {S A B : Type} (R : S -> S -> Prop) `{!PreOrder R}.

Lemma relates_ret (a : A) : relates R (ret a).
Proof. by intros s. Qed.

Lemma relates_raise (e : exn) : relates R (raise e : M S A).
Proof. by intros s. Qed.

Lemma relates_get : relates R get.
Proof. by intros s. Qed.

Lemma relates_modify (f : S -> S) : (forall s, R s (f s)) -> relates R (modify f).
Proof. intros Hf s. apply Hf. Qed.

Lemma relates_bind (m : M S A) (k : A -> M S B) :
  relates R m -> (forall a, relates R (k a)) -> relates R (bind m k).
Proof.
  intros Hm Hk s. unfold bind. specialize (Hm s).
  destruct (m s) as [a s'|e s']; simpl in *; [|done].
  etrans; [exact Hm|apply Hk].
Qed.

Lemma relates_for_each (l : list A) (body : A -> M S unit) :
  (forall x, relates R (body x)) -> relates R (for_each l body).
Proof.
  intros Hbody. induction l as [|x l IH]; simpl; [by intros s|].
  intros s. unfold bind. specialize (Hbody x s).
  destruct (body x s) as [[] s'|e s']; simpl in *; [|done].
  etrans; [exact Hbody|apply IH].
Qed.

Lemma relates_try_finally (m : M S A) (cleanup : S -> S) :
  relates R m -> (forall s, R s (cleanup s)) -> relates R (try_finally m cleanup).
Proof.
  intros Hm Hc s. unfold try_finally. specialize (Hm s).
  destruct (m s) as [a s'|e s']; simpl in *; (etrans; [exact Hm|apply Hc]).
Qed.
End Relates.

#[local] Instance same_identities_preorder : PreOrder same_identities.
Proof.
  split.
  - by intros d.
  - intros d1 d2 d3 (Hp & Hs & Hmp & Hms) (Hp' & Hs' & Hmp' & Hms').
    repeat split; [congruence|congruence|by etrans|by etrans].
Qed.

Lemma fmap_alter_same {A B} (g : A -> B) (f : A -> A) (i : nat) (l : list A) :
  (forall x, g (f x) = g x) -> g <$> alter f i l = g <$> l.
Proof.
  intros Hsame. revert i. induction l as [|y l IH]; intros [|i]; simpl; try done.
  - by rewrite Hsame.
  - f_equal. apply IH.
Qed.

Lemma sublist_remove_first {A} (f : A -> bool) (l : list A) : sublist (remove_first f l) l.
Proof.
  induction l as [|y l IH]; simpl; [done|].
  destruct (f y); [by apply sublist_cons|by apply sublist_skip].
Qed.

Lemma same_identities_on_peer r (f : M MonitoredPeer unit) :
  (forall q, static_fields (final_state (f q)) = static_fields q) ->
  relates same_identities (on_peer r f).
Proof.
  intros Hf d. unfold on_peer. destruct (peers d !! r) as [q|] eqn:Hq; [|done].
  specialize (Hf q).
  assert (Hmap : forall q', static_fields q' = static_fields q ->
            map static_fields (<[r := q']> (peers d)) = map static_fields (peers d)).
  { intros q' Hq'. change (static_fields <$> <[r := q']> (peers d) = static_fields <$> peers d).
    rewrite list_fmap_insert, Hq'. apply list_insert_id.
    unfold ref in *. by rewrite list_lookup_fmap, Hq. }
  destruct (f q) as [[] q'|e q']; simpl in *; repeat split; try done; by apply Hmap.
Qed.

Lemma same_identities_on_supporter r f :
  (forall sup, supporter_key (f sup) = supporter_key sup) ->
  relates same_identities (on_supporter r f).
Proof.
  intros Hf d. unfold on_supporter, modify. simpl. repeat split; try done.
  simpl. by apply (fmap_alter_same supporter_key).
Qed.

(** One step through the syntax of a computation. *)
Ltac identities_step :=
  lazymatch goal with
  | |- relates same_identities (bind _ _) => apply relates_bind; [apply _| |intros ?]
  | |- relates same_identities (for_each _ _) => apply relates_for_each; [apply _|intros ?]
  | |- relates same_identities (ret _) => apply relates_ret; apply _
  | |- relates same_identities (raise _) => apply relates_raise; apply _
  | |- relates same_identities get => apply relates_get; apply _
  | |- relates same_identities (on_supporter _ _) =>
      apply same_identities_on_supporter; intros ?; reflexivity
  | |- relates same_identities (on_peer _ _) =>
      apply same_identities_on_peer; intros ?; solve [eauto with identities]
  | |- relates same_identities (modify _) =>
      apply relates_modify; intros ?; repeat case_match;
      repeat split; simpl; solve [done | apply sublist_remove_first]
  | |- relates same_identities (if ?b then _ else _) => destruct b
  | |- relates same_identities (match ?x with _ => _ end) => destruct x
  | |- relates same_identities _ => solve [eauto with identities]
  end.

Ltac identities := repeat identities_step.

Create HintDb identities.

Lemma enforce_update_static_fields now q :
  static_fields (final_state ((m ← get;
                               if request_older_than_10s now m
                               then modify (set_state DefaultState)
                               else transition now) q)) = static_fields q.
Proof.
  unfold bind, get. destruct (request_older_than_10s now q); [done|].
  apply transition_static_fields.
Qed.

Lemma support_aborted_static_fields q :
  static_fields (final_state (modify support_aborted q)) = static_fields q.
Proof. done. Qed.

#[local] Hint Resolve receive_msg_static_fields enforce_update_static_fields
  support_aborted_static_fields : identities.

Lemma same_identities_add_supported_peer s p :
  relates same_identities (add_supported_peer s p).
Proof. unfold add_supported_peer. identities. Qed.

Lemma same_identities_remove_supported_peer s p :
  relates same_identities (remove_supported_peer s p).
Proof. unfold remove_supported_peer. identities. Qed.

#[local] Hint Resolve same_identities_add_supported_peer
  same_identities_remove_supported_peer : identities.

Lemma same_identities_cancel_support_for_all_peers s :
  relates same_identities (cancel_support_for_all_peers s).
Proof. unfold cancel_support_for_all_peers. identities. Qed.

Lemma same_identities_update_supported_peer_list s :
  relates same_identities (update_supported_peer_list s).
Proof. unfold update_supported_peer_list. identities. Qed.

Lemma same_identities_reset_update_counter s :
  relates same_identities (reset_update_counter s).
Proof. unfold reset_update_counter. identities. Qed.

Lemma same_identities_unregister_proxy s : relates same_identities (unregister_proxy s).
Proof. unfold unregister_proxy. identities. Qed.

Lemma same_identities_order_active_supporters : relates same_identities order_active_supporters.
Proof. unfold order_active_supporters. identities. Qed.

#[local] Hint Resolve same_identities_cancel_support_for_all_peers
  same_identities_update_supported_peer_list same_identities_reset_update_counter
  same_identities_unregister_proxy same_identities_order_active_supporters : identities.

Lemma same_identities_unregister_monitored_peer r :
  relates same_identities (unregister_monitored_peer r).
Proof. unfold unregister_monitored_peer. identities. Qed.

Lemma same_identities_unregister_monitored_supporter s :
  relates same_identities (unregister_monitored_supporter s).
Proof. unfold unregister_monitored_supporter. identities. Qed.

Lemma same_identities_assign_peer_to_supporter now p s :
  relates same_identities (assign_peer_to_supporter now p s).
Proof. unfold assign_peer_to_supporter. identities. Qed.

Lemma same_identities_activate_supporter s : relates same_identities (activate_supporter s).
Proof. unfold activate_supporter. identities. Qed.

#[local] Hint Resolve same_identities_unregister_monitored_peer
  same_identities_unregister_monitored_supporter same_identities_assign_peer_to_supporter
  same_identities_activate_supporter : identities.

Lemma same_identities_query_all_supporters env :
  relates same_identities (query_all_supporters env).
Proof. unfold query_all_supporters. identities. Qed.

Lemma same_identities_dispatch_peer_lists env :
  relates same_identities (dispatch_peer_lists env).
Proof. unfold dispatch_peer_lists. identities. Qed.

Lemma same_identities_remove_timedout_peers now :
  relates same_identities (_remove_timedout_peers now).
Proof. unfold _remove_timedout_peers. identities. Qed.

Lemma same_identities_remove_dead_supporters : relates same_identities _remove_dead_supporters.
Proof. unfold _remove_dead_supporters. identities. Qed.

Lemma same_identities_enforce_update_of_monitored_peers now :
  relates same_identities (_enforce_update_of_monitored_peers now).
Proof. unfold _enforce_update_of_monitored_peers. identities. Qed.

Lemma same_identities_update_active_supporters active :
  relates same_identities (update_active_supporters active).
Proof. induction active as [|supporter rest IH]; simpl; identities. Qed.

#[local] Hint Resolve same_identities_update_active_supporters : identities.

Lemma same_identities_enforce_update_of_monitored_supporters :
  relates same_identities _enforce_update_of_monitored_supporters.
Proof. unfold _enforce_update_of_monitored_supporters. identities. Qed.

Lemma same_identities_snapshot now : relates same_identities (snapshot now).
Proof. unfold snapshot. identities. Qed.

Lemma same_identities_assign_starving_loop now l :
  relates same_identities (assign_starving_loop now l).
Proof. induction l as [|peer rest IH]; simpl; identities. Qed.

Lemma same_identities_assign_until_full now first l :
  relates same_identities (assign_until_full now first l).
Proof. induction l as [|peer rest IH]; simpl; identities. Qed.

#[local] Hint Resolve same_identities_assign_starving_loop
  same_identities_assign_until_full : identities.

Lemma same_identities_activate_loop now first to_activate : forall starving_peers,
  relates same_identities (activate_loop now first to_activate starving_peers).
Proof.
  induction to_activate as [|[s min_peer] more IH]; intros starving_peers; simpl; identities.
Qed.

#[local] Hint Resolve same_identities_activate_loop : identities.

Lemma same_identities_assign_starving_peers_to_active_supporters now :
  relates same_identities (_assign_starving_peers_to_active_supporters now).
Proof. unfold _assign_starving_peers_to_active_supporters. identities. Qed.

Lemma same_identities_check_for_activation_of_new_supporters now :
  relates same_identities (_check_for_activation_of_new_supporters now).
Proof.
  unfold _check_for_activation_of_new_supporters, activate_supporters_and_assign_peers.
  identities.
Qed.

#[local] Hint Resolve same_identities_query_all_supporters same_identities_dispatch_peer_lists
  same_identities_remove_timedout_peers same_identities_remove_dead_supporters
  same_identities_enforce_update_of_monitored_peers
  same_identities_enforce_update_of_monitored_supporters
  same_identities_snapshot same_identities_assign_starving_peers_to_active_supporters
  same_identities_check_for_activation_of_new_supporters : identities.

Lemma same_identities_update_states_body env now :
  relates same_identities (update_states_body env now).
Proof. unfold update_states_body, _mark_dead_supporters. identities. Qed.

Lemma same_identities_update_states env now :
  relates same_identities (update_states env now).
Proof.
  unfold update_states, schedule_next_asynchronous_update.
  apply relates_bind; [apply _|identities|intros _].
  apply relates_bind; [apply _| |intros _; identities].
  apply relates_try_finally; [apply _|apply same_identities_update_states_body|done].
Qed.

Lemma same_identities_received_peer_message now k id :
  relates same_identities (received_peer_message now k id).
Proof.
  unfold received_peer_message.
  apply relates_bind; [apply _|identities|intros _].
  apply relates_try_finally; [apply _|identities|done].
Qed.

(** X25. An update and a peer message register nobody and change no
    identity, however they end: afterwards every peer object has the ID, IP,
    port, type and timeout bounds it had, every supporter object its ID,
    address, min_peer and max_peer, and each registry is what is left of the
    registry before, in the same order. *)
Theorem X25_update_registers_nobody (env : Env) (now : Z) (k : msg) (id : string)
    (d : SupporterMonitor) :
  same_identities d (final_state (update_states env now d)) /\
  same_identities d (final_state (received_peer_message now k id d)).
Proof.
  split; [apply same_identities_update_states|apply same_identities_received_peer_message].
Qed.

(** *** The registries of a coordinator that was used through its interface *)

Lemma Forall_of_sublist {A} (P : A -> Prop) (l1 l2 : list A) :
  sublist l1 l2 -> Forall P l2 -> Forall P l1.
Proof.
  induction 1 as [|x l1 l2 _ IH|x l1 l2 _ IH]; intros Hall; [done| |].
  - apply Forall_cons in Hall as [Hx Hall]. apply Forall_cons. split; [done|by apply IH].
  - apply Forall_cons in Hall as [_ Hall]. by apply IH.
Qed.

Lemma existsb_false_elem {A} (f : A -> bool) (l : list A) (x : A) :
  existsb f l = false -> x ∈ l -> f x = false.
Proof.
  induction l as [|y l IH]; simpl; intros Hf Hx; [by apply elem_of_nil in Hx|].
  apply orb_false_iff in Hf as [Hy Hf].
  apply elem_of_cons in Hx as [->|Hx]; [done|by apply IH].
Qed.

Lemma map_static_fields_peer_key (l l' : list MonitoredPeer) :
  map static_fields l' = map static_fields l -> map peer_key l' = map peer_key l.
Proof.
  revert l'. induction l as [|q l IH]; intros [|q' l'] Hmap; simpl in *; try done.
  injection Hmap as Hq Hmap. f_equal; [|by apply IH].
  unfold static_fields in Hq. unfold peer_key. congruence.
Qed.

(** A registry over a store, with the key that [__eq__] compares: appending
    a new object with a key that no registered object has. *)
Lemma registry_snoc {A K} (key : A -> K) (store : list A) (reg : list nat) (x : A) :
  Forall (fun r => is_Some (store !! r)) reg ->
  NoDup (map (fun r => key <$> store !! r) reg) ->
  (forall r q, r ∈ reg -> store !! r = Some q -> key q <> key x) ->
  Forall (fun r => is_Some ((store ++ [x]) !! r)) (reg ++ [length store]) /\
  NoDup (map (fun r => key <$> (store ++ [x]) !! r) (reg ++ [length store])).
Proof.
  intros Hvalid Hnodup Hfresh.
  assert (Hold : forall r, r ∈ reg -> (store ++ [x]) !! r = store !! r).
  { intros r Hr. rewrite Forall_forall in Hvalid.
    apply lookup_app_l. apply lookup_lt_is_Some. by apply Hvalid. }
  assert (Hnew : (store ++ [x]) !! length store = Some x).
  { by apply list_lookup_middle. }
  split.
  - apply Forall_app. split.
    + apply Forall_forall. intros r Hr. rewrite (Hold r Hr).
      rewrite Forall_forall in Hvalid. by apply Hvalid.
    + apply Forall_cons. split; [by eexists|done].
  - rewrite map_app. simpl. rewrite Hnew. simpl.
    assert (Hmap : map (fun r => key <$> (store ++ [x]) !! r) reg =
                   map (fun r => key <$> store !! r) reg).
    { apply map_ext_in. intros r Hr. rewrite Hold; [done|by apply list_elem_of_In]. }
    rewrite Hmap. apply NoDup_app. split; [done|]. split; [|apply NoDup_singleton].
    intros k Hk Hkx. apply list_elem_of_singleton in Hkx as ->.
    apply list_elem_of_In, in_map_iff in Hk as (r & Hkey & Hr).
    apply list_elem_of_In in Hr.
    rewrite Forall_forall in Hvalid. destruct (Hvalid r Hr) as [q Hq].
    rewrite Hq in Hkey. simpl in Hkey. injection Hkey as Hkey.
    by apply (Hfresh r q Hr Hq).
Qed.

Lemma registries_distinct_same_fields d d' :
  peers d' = peers d -> supporters d' = supporters d ->
  _monitored_peers d' = _monitored_peers d ->
  _monitored_supporters d' = _monitored_supporters d ->
  registries_distinct d -> registries_distinct d'.
Proof.
  intros Hp Hs Hmp Hms.
  unfold registries_distinct, peer_registry_valid, peer_identities, supporter_identities,
    supporter_key_of.
  by rewrite Hp, Hs, Hmp, Hms.
Qed.

Lemma registries_distinct_same_identities d d' :
  same_identities d d' -> registries_distinct d -> registries_distinct d'.
Proof.
  intros (Hp & Hs & Hmp & Hms) (Hvalid & Hnodup & Hsvalid & Hsnodup).
  apply map_static_fields_peer_key in Hp.
  assert (Hlen : length (peers d') = length (peers d)).
  { by rewrite <- (length_map peer_key (peers d')), Hp, length_map. }
  assert (Hslen : length (supporters d') = length (supporters d)).
  { by rewrite <- (length_map supporter_key (supporters d')), Hs, length_map. }
  assert (Hkey : forall r, peer_key <$> peers d' !! r = peer_key <$> peers d !! r).
  { intros r. rewrite <- !list_lookup_fmap.
    change (map peer_key (peers d') !! r = map peer_key (peers d) !! r). by rewrite Hp. }
  assert (Hskey : forall r, supporter_key_of d' r = supporter_key_of d r).
  { intros r. unfold supporter_key_of. rewrite <- !list_lookup_fmap.
    change (map supporter_key (supporters d') !! r = map supporter_key (supporters d) !! r).
    by rewrite Hs. }
  repeat split.
  - unfold peer_registry_valid.
    apply (Forall_of_sublist _ _ _ Hmp). eapply Forall_impl; [exact Hvalid|].
    intros r Hr. apply lookup_lt_is_Some. rewrite Hlen. by apply lookup_lt_is_Some.
  - unfold peer_identities.
    rewrite (map_ext _ _ Hkey).
    eapply sublist_NoDup; [exact Hnodup|]. by apply fmap_sublist.
  - apply (Forall_of_sublist _ _ _ Hms). eapply Forall_impl; [exact Hsvalid|].
    intros r Hr. apply lookup_lt_is_Some. rewrite Hslen. by apply lookup_lt_is_Some.
  - unfold supporter_identities.
    rewrite (map_ext _ _ Hskey).
    eapply sublist_NoDup; [exact Hsnodup|]. by apply fmap_sublist.
Qed.

Lemma final_state_try_finally {S A} (m : M S A) (cleanup : S -> S) (s : S) :
  final_state (try_finally m cleanup s) = cleanup (final_state (m s)).
Proof. unfold try_finally. by destruct (m s). Qed.

Lemma final_state_bind_ret {S A B} (m : M S A) (b : B) (s : S) :
  final_state (bind m (fun _ => ret b) s) = final_state (m s).
Proof. unfold bind. by destruct (m s). Qed.

Lemma registries_distinct_lock d :
  registries_distinct d ->
  registries_distinct (lock_acquire d) /\ registries_distinct (lock_release d).
Proof. intros Hok. split; by apply (registries_distinct_same_fields d). Qed.

Lemma registries_distinct_register_monitored_peer now id ip port peer_type d :
  registries_distinct d ->
  registries_distinct (final_state (register_monitored_peer now id ip port peer_type d)).
Proof.
  intros Hok. unfold register_monitored_peer. unfold bind at 1, modify at 1.
  rewrite final_state_try_finally. apply registries_distinct_lock.
  assert (Hok0 : registries_distinct (lock_acquire d)).
  { by apply registries_distinct_lock. }
  revert Hok0. generalize (lock_acquire d). clear d Hok. intros d Hok.
  unfold bind at 1, get at 1.
  destruct (MonitoredPeer_init id ip port peer_type _ _) as [e|mp]; [done|].
  unfold bind at 1.
  destruct (peer_key_in d (peer_key mp) (_monitored_peers d)) eqn:Hin; simpl.
  - rewrite final_state_bind_ret.
    eapply registries_distinct_same_identities; [|exact Hok].
    apply same_identities_received_peer_message.
  - rewrite final_state_bind_ret.
    eapply registries_distinct_same_identities;
      [apply same_identities_received_peer_message|].
    destruct Hok as (Hvalid & Hnodup & Hsvalid & Hsnodup).
    destruct (registry_snoc peer_key (peers d) (_monitored_peers d) mp Hvalid Hnodup)
      as [Hvalid' Hnodup'].
    { intros r q Hr Hq Hkey.
      pose proof (existsb_false_elem _ _ r Hin Hr) as Hfalse. simpl in Hfalse.
      unfold ref in *. rewrite Hq in Hfalse. by apply bool_decide_eq_false in Hfalse. }
    by repeat split.
Qed.

Lemma registries_distinct_register_monitored_supporter id addr min_peer max_peer d :
  registries_distinct d ->
  registries_distinct (final_state (register_monitored_supporter id addr min_peer max_peer d)).
Proof.
  intros Hok. unfold register_monitored_supporter. unfold bind at 1, modify at 1.
  rewrite final_state_try_finally. apply registries_distinct_lock.
  assert (Hok0 : registries_distinct (lock_acquire d)).
  { by apply registries_distinct_lock. }
  revert Hok0. generalize (lock_acquire d). clear d Hok. intros d Hok.
  unfold bind at 1, get at 1.
  destruct (MonitoredSupporter_init id addr min_peer max_peer) as [e|ms]; [done|].
  destruct (supporter_key_in d (supporter_key ms) (_monitored_supporters d)) eqn:Hin;
    simpl; [done|].
  unfold bind, alloc_supporter, modify, register_proxy, ret. simpl.
  destruct Hok as (Hvalid & Hnodup & Hsvalid & Hsnodup).
  destruct (registry_snoc supporter_key (supporters d) (_monitored_supporters d) ms
              Hsvalid Hsnodup) as [Hsvalid' Hsnodup'].
  { intros r q Hr Hq Hkey.
    pose proof (existsb_false_elem _ _ r Hin Hr) as Hfalse. simpl in Hfalse.
    unfold ref in *. rewrite Hq in Hfalse. by apply bool_decide_eq_false in Hfalse. }
  match goal with |- registries_distinct ?x => set (d1 := x) end.
  assert (Hfields : peers d1 = peers d /\
                    supporters d1 = supporters d ++ [ms] /\
                    _monitored_peers d1 = _monitored_peers d /\
                    _monitored_supporters d1 =
                      _monitored_supporters d ++ [length (supporters d)]).
  { subst d1. by repeat case_match. }
  destruct Hfields as (Hp & Hs & Hmp & Hms).
  unfold registries_distinct, peer_registry_valid, peer_identities, supporter_identities,
    supporter_key_of.
  rewrite Hp, Hs, Hmp, Hms. by repeat split.
Qed.

Lemma registries_distinct_step env e d :
  registries_distinct d -> registries_distinct (final_state (step env e d)).
Proof.
  intros Hok. destruct e as [now id ip port peer_type|id addr min_peer max_peer|now k id|now];
    simpl.
  - rewrite final_state_bind_ret. by apply registries_distinct_register_monitored_peer.
  - rewrite final_state_bind_ret. by apply registries_distinct_register_monitored_supporter.
  - eapply registries_distinct_same_identities; [|exact Hok].
    apply same_identities_received_peer_message.
  - eapply registries_distinct_same_identities; [|exact Hok].
    apply same_identities_update_states.
Qed.

Lemma registries_distinct_run env evs : forall d,
  registries_distinct d -> registries_distinct (run env evs d).
Proof.
  unfold run. induction evs as [|e evs IH]; intros d Hok; [done|].
  simpl. apply IH. by apply registries_distinct_step.
Qed.

Lemma registries_distinct_init env is_alive_timeout peer_timeout :
  registries_distinct (SupporterMonitor_init env is_alive_timeout peer_timeout).
Proof. repeat split; simpl; try apply NoDup_nil_2; apply Forall_nil_2. Qed.

(** X26. Whatever was done to a coordinator through its interface
    (registrations, peer messages and updates, whether they returned or
    raised), every entry of its two registries is an object and no two
    registered peers have the same (ID, IP, port), no two registered
    supporters the same (ID, address, min_peer, max_peer). *)
Theorem X26_registries_stay_distinct (env : Env) (d : SupporterMonitor) :
  reachable env d -> registries_distinct d.
Proof.
  intros (is_alive_timeout & peer_timeout & evs & ->).
  apply registries_distinct_run, registries_distinct_init.
Qed.

Lemma X26_registries_stay_distinct_witness :
  registries_distinct (run all_answer scenario_shared_peer_id initial_monitor).
Proof.
  apply (X26_registries_stay_distinct all_answer).
  exists None, None, scenario_shared_peer_id. reflexivity.
Defined.

(** *** Removing the peers that timed out *)

Lemma peers_to_be_removed_filter now d l :
  Forall (fun r => is_Some (peers d !! r)) l ->
  (forall r p, r ∈ l -> peers d !! r = Some p -> is_Some (_ts_last_received_msg p)) ->
  peers_to_be_removed now d l = Some (List.filter (peer_is_stale now d) l).
Proof.
  induction l as [|r l IH]; intros Hvalid Hts; [done|].
  apply Forall_cons in Hvalid as [[p Hp] Hvalid].
  destruct (Hts r p) as [t Ht]; [by left|done|].
  simpl. unfold peer_is_stale at 1. unfold ref in *. rewrite Hp, Ht.
  rewrite IH; [done|done|]. intros r' p' Hr'. apply Hts. by right.
Qed.

Lemma peer_eq_identity d x y :
  is_Some (peers d !! x) -> is_Some (peers d !! y) ->
  peer_eq d x y = true <-> peer_key <$> peers d !! x = peer_key <$> peers d !! y.
Proof.
  intros [a Ha] [b Hb]. unfold peer_eq. rewrite Ha, Hb. simpl.
  rewrite bool_decide_eq_true. split; congruence.
Qed.

(** [list.remove(x)] on a registry without equal entries removes [x]. *)
Lemma remove_first_of_distinct d x cur :
  Forall (fun r => is_Some (peers d !! r)) cur ->
  NoDup (map (fun r => peer_key <$> peers d !! r) cur) ->
  x ∈ cur ->
  remove_first (peer_eq d x) cur = List.filter (fun r => negb (bool_decide (r = x))) cur.
Proof.
  induction cur as [|y cur IH]; intros Hvalid Hnodup Hx; [by apply elem_of_nil in Hx|].
  apply Forall_cons in Hvalid as [Hy Hvalid].
  simpl in Hnodup. apply NoDup_cons in Hnodup as [Hhead Hnodup].
  assert (Hvx : is_Some (peers d !! x)).
  { apply elem_of_cons in Hx as [->|Hx]; [done|].
    rewrite Forall_forall in Hvalid. by apply Hvalid. }
  assert (Hfresh : forall r, r ∈ cur -> r <> y).
  { intros r Hr ->. apply Hhead. apply list_elem_of_In, in_map_iff. exists y.
    split; [done|by apply list_elem_of_In]. }
  simpl. destruct (peer_eq d x y) eqn:Heq.
  - apply peer_eq_identity in Heq; [|done..].
    assert (y = x) as ->.
    { apply elem_of_cons in Hx as [->|Hx]; [done|]. exfalso. apply Hhead.
      rewrite <- Heq. apply list_elem_of_In, in_map_iff. exists x.
      split; [done|by apply list_elem_of_In]. }
    rewrite bool_decide_eq_true_2 by done. simpl.
    symmetry. apply forallb_filter_id. apply forallb_forall.
    intros r Hr. apply negb_true_iff, bool_decide_eq_false.
    apply Hfresh. by apply list_elem_of_In.
  - assert (y <> x) as Hne.
    { intros ->. assert (peer_eq d x x = true) as Hrefl; [|congruence].
      by apply peer_eq_identity. }
    rewrite bool_decide_eq_false_2 by done. simpl. f_equal.
    apply IH; [done..|]. apply elem_of_cons in Hx as [->|Hx]; done.
Qed.

Lemma filter_filter_out {A} `{EqDecision A} (x : A) (rest cur : list A) :
  List.filter (fun r => negb (bool_decide (r ∈ rest)))
    (List.filter (fun r => negb (bool_decide (r = x))) cur) =
  List.filter (fun r => negb (bool_decide (r ∈ x :: rest))) cur.
Proof.
  induction cur as [|y cur IH]; [done|]. simpl.
  destruct (decide (y = x)) as [->|Hne].
  - rewrite (bool_decide_eq_true_2 (x = x)) by done. simpl.
    rewrite (bool_decide_eq_true_2 (x ∈ x :: rest)) by (by left). simpl. apply IH.
  - rewrite (bool_decide_eq_false_2 (y = x)) by done. simpl. rewrite IH.
    destruct (decide (y ∈ rest)) as [Hin|Hout].
    + rewrite (bool_decide_eq_true_2 (y ∈ rest)) by done.
      rewrite (bool_decide_eq_true_2 (y ∈ x :: rest)) by (by right). done.
    + rewrite (bool_decide_eq_false_2 (y ∈ rest)) by done.
      rewrite (bool_decide_eq_false_2 (y ∈ x :: rest)); [done|].
      intros Hin. apply elem_of_cons in Hin as [?|?]; done.
Qed.

Lemma sublist_List_filter {A} (f : A -> bool) (l : list A) : sublist (List.filter f l) l.
Proof.
  induction l as [|y l IH]; simpl; [done|].
  destruct (f y); [by apply sublist_skip|by apply sublist_cons].
Qed.

Lemma set_monitored_peers_same d : set_monitored_peers (_monitored_peers d) d = d.
Proof. by destruct d. Qed.

(** The second loop of [_remove_timedout_peers] over the peers [R], on the
    registry [cur]. *)
Lemma unregister_loop d (R : list ref) : forall cur,
  NoDup R -> (forall x, x ∈ R -> x ∈ cur) ->
  Forall (fun r => is_Some (peers d !! r)) cur ->
  NoDup (map (fun r => peer_key <$> peers d !! r) cur) ->
  for_each R unregister_monitored_peer (set_monitored_peers cur d) =
  Ok tt (set_monitored_peers
           (List.filter (fun r => negb (bool_decide (r ∈ R))) cur) d).
Proof.
  induction R as [|x R IH]; intros cur HnodupR Hsub Hvalid Hnodup.
  - simpl. unfold ret. do 2 f_equal. symmetry. apply forallb_filter_id.
    apply forallb_forall. by intros r _.
  - apply NoDup_cons in HnodupR as [HxR HnodupR].
    assert (Hx : x ∈ cur) by (apply Hsub; by left).
    assert (Hvx : is_Some (peers d !! x)).
    { rewrite Forall_forall in Hvalid. by apply Hvalid. }
    cbn [for_each]. unfold bind. unfold unregister_monitored_peer at 1, modify.
    cbn [_monitored_peers set_monitored_peers].
    assert (Hin : peer_in (set_monitored_peers cur d) x cur = true).
    { unfold peer_in. apply existsb_exists. exists x. split; [by apply list_elem_of_In|].
      destruct Hvx as [q Hq]. by apply (peer_eq_refl _ x q). }
    rewrite Hin.
    change (peer_eq (set_monitored_peers cur d) x) with (peer_eq d x).
    rewrite (remove_first_of_distinct d x cur Hvalid Hnodup Hx).
    change (set_monitored_peers ?l (set_monitored_peers cur d))
      with (set_monitored_peers l d).
    rewrite IH.
    + by rewrite filter_filter_out.
    + done.
    + intros r Hr. apply list_elem_of_In, filter_In. split.
      * apply list_elem_of_In, Hsub. by right.
      * apply negb_true_iff, bool_decide_eq_false. by intros ->.
    + apply Forall_forall. intros r Hr. apply list_elem_of_In, filter_In in Hr as [Hr _].
      rewrite Forall_forall in Hvalid. by apply Hvalid, list_elem_of_In.
    + eapply sublist_NoDup; [exact Hnodup|]. apply fmap_sublist, sublist_List_filter.
Qed.

(** X27. When the registry names existing peers with pairwise different
    (ID, IP, port) and each of them received a message, the first phase of
    an update returns and removes exactly the registered peers whose last
    message is 45 s old or older; the others keep their places in the
    registry, and nothing else changes: a removed peer stays on the roster
    it was on. *)
Theorem X27_remove_timedout_peers (now : Z) (d : SupporterMonitor) :
  peer_registry_valid d ->
  NoDup (peer_identities d) ->
  (forall r p, r ∈ _monitored_peers d -> peers d !! r = Some p ->
               is_Some (_ts_last_received_msg p)) ->
  _remove_timedout_peers now d =
  Ok tt (set_monitored_peers
           (List.filter (fun r => negb (peer_is_stale now d r)) (_monitored_peers d)) d).
Proof.
  intros Hvalid Hnodup Hts. unfold _remove_timedout_peers, bind, get.
  rewrite (peers_to_be_removed_filter now d _ Hvalid Hts).
  assert (HnodupL : NoDup (_monitored_peers d)).
  { by apply (NoDup_fmap_1 (fun r => peer_key <$> peers d !! r)). }
  pose proof (unregister_loop d (List.filter (peer_is_stale now d) (_monitored_peers d))
                (_monitored_peers d)) as Hloop.
  rewrite set_monitored_peers_same in Hloop. rewrite Hloop;
    [|eapply sublist_NoDup; [exact HnodupL|apply sublist_List_filter]| |done|done].
  - do 2 f_equal. apply filter_ext_in. intros r Hr. f_equal.
    destruct (peer_is_stale now d r) eqn:Hstale.
    + apply bool_decide_eq_true. apply list_elem_of_In, filter_In. by split.
    + apply bool_decide_eq_false. intros Hin.
      apply list_elem_of_In, filter_In in Hin as [_ Hin]. congruence.
  - intros x Hx. apply list_elem_of_In, filter_In in Hx as [Hx _]. by apply list_elem_of_In.
Qed.

Lemma X27_remove_timedout_peers_witness :
  let d := run all_answer scenario_min_max_together initial_monitor in
  _monitored_peers (final_state (_remove_timedout_peers 46000 d)) = [] /\
  _monitored_peers (final_state (_remove_timedout_peers 45999 d)) = [0%nat; 1%nat; 2%nat].
Proof.
  intros d.
  assert (Hok : registries_distinct d).
  { apply registries_distinct_run, registries_distinct_init. }
  destruct Hok as (Hvalid & Hnodup & _).
  assert (Hts : forall r p, r ∈ _monitored_peers d -> peers d !! r = Some p ->
                            is_Some (_ts_last_received_msg p)).
  { intros r p Hr Hp. vm_compute in Hr.
    apply elem_of_cons in Hr as [->|Hr]; [vm_compute in Hp; injection Hp as <-; by eexists|].
    apply elem_of_cons in Hr as [->|Hr]; [vm_compute in Hp; injection Hp as <-; by eexists|].
    apply list_elem_of_singleton in Hr as ->.
    vm_compute in Hp. injection Hp as <-. by eexists. }
  rewrite !(X27_remove_timedout_peers _ d Hvalid Hnodup Hts).
  vm_compute. by split.
Defined.

(** *** Updating the roster of a supporter *)

(** The loop of [update_supported_peer_list] over the peers [R] of the
    roster of the supporter [s]. *)
Lemma update_supported_peer_list_loop (s : ref) (R : list ref) : forall d sup,
  supporters d !! s = Some sup ->
  NoDup R -> (forall x, x ∈ R -> x ∈ _supported_peers sup) ->
  Forall (fun r => is_Some (peers d !! r)) (_supported_peers sup) ->
  NoDup (map (fun r => peer_key <$> peers d !! r) (_supported_peers sup)) ->
  exists supporters',
    for_each R (fun peer =>
      remove_supported_peer s peer ;;
      on_supporter s (set_updated true)) d = Ok tt (set_supporters supporters' d) /\
    (forall s', s' <> s -> supporters' !! s' = supporters d !! s') /\
    (exists sup', supporters' !! s = Some sup' /\
                  _supported_peers sup' =
                    List.filter (fun r => negb (bool_decide (r ∈ R))) (_supported_peers sup) /\
                  (R <> [] -> _updated sup' = true) /\
                  (R = [] -> sup' = sup)).
Proof.
  induction R as [|x R IH]; intros d sup Hsup HnodupR Hsub Hvalid Hnodup.
  - exists (supporters d). split; [|split; [done|]].
    + simpl. unfold ret. by rewrite set_supporters_same.
    + exists sup. repeat split; [done| |done..].
      symmetry. apply forallb_filter_id. apply forallb_forall. by intros r _.
  - apply NoDup_cons in HnodupR as [HxR HnodupR].
    assert (Hx : x ∈ _supported_peers sup) by (apply Hsub; by left).
    assert (Hvx : is_Some (peers d !! x)).
    { rewrite Forall_forall in Hvalid. by apply Hvalid. }
    pose (cur := List.filter (fun r => negb (bool_decide (r = x))) (_supported_peers sup)).
    pose (sup2 := set_updated true (set_updated true (set_supported_peers cur sup))).
    pose (d2 := set_supporters
                  (alter (set_updated true) s
                     (alter (set_updated true) s
                        (alter (fun sup0 => set_supported_peers cur sup0) s (supporters d)))) d).
    assert (Hstep : (remove_supported_peer s x ;; on_supporter s (set_updated true)) d =
                    Ok tt d2).
    { unfold remove_supported_peer, bind, get, on_supporter, modify.
      unfold get_supported_peers. rewrite Hsup.
      assert (Hin : peer_in d x (_supported_peers sup) = true).
      { unfold peer_in. apply existsb_exists. exists x. split; [by apply list_elem_of_In|].
        destruct Hvx as [q Hq]. by apply (peer_eq_refl _ x q). }
      rewrite Hin. simpl.
      assert (Hfront : alter (fun sup0 => set_supported_peers
                          (remove_first (peer_eq d x) (_supported_peers sup0)) sup0) s
                         (supporters d) =
                       alter (fun sup0 => set_supported_peers cur sup0) s (supporters d)).
      { apply list_alter_ext; [|done..].
        intros sup0 Hsup0.
        assert (sup0 = sup) as -> by (unfold ref in *; congruence).
        subst cur. by rewrite (remove_first_of_distinct d x _ Hvalid Hnodup Hx). }
      by rewrite Hfront. }
    destruct (IH d2 sup2) as (supporters' & Hrun & Hother & sup' & Hsup' & Hroster & Hflag & Hsame).
    { subst d2 sup2. simpl. unfold ref in *. by rewrite !list_lookup_alter_eq, Hsup. }
    { done. }
    { intros r Hr. subst sup2 cur. simpl. apply list_elem_of_In, filter_In. split.
      - apply list_elem_of_In, Hsub. by right.
      - apply negb_true_iff, bool_decide_eq_false. by intros ->. }
    { subst sup2 cur d2. simpl.
      apply (Forall_of_sublist _ _ _ (sublist_List_filter _ _)). exact Hvalid. }
    { subst sup2 cur d2. simpl.
      eapply sublist_NoDup; [exact Hnodup|]. apply fmap_sublist, sublist_List_filter. }
    exists supporters'. split; [|split].
    + cbn [for_each]. unfold bind at 1. rewrite Hstep. exact Hrun.
    + intros s' Hne. rewrite (Hother s' Hne). subst d2. simpl. unfold ref in *.
      by rewrite !list_lookup_alter_ne.
    + exists sup'. split; [done|]. split; [|split; [|done]].
      * rewrite Hroster. subst sup2 cur. simpl. apply filter_filter_out.
      * intros _. destruct R as [|y R]; [by rewrite (Hsame eq_refl)|by apply Hflag].
Qed.

(** X28. [update_supported_peer_list] on a supporter whose roster names
    existing peers with pairwise different (ID, IP, port) returns and takes
    exactly the peers in Default off the roster; the others keep their
    places.  The flag of the supporter is set when a peer was removed; no
    peer, no other supporter and no list of the coordinator changes. *)
Theorem X28_update_supported_peer_list (s : ref) (d : SupporterMonitor)
    (sup : MonitoredSupporter) :
  supporters d !! s = Some sup ->
  Forall (fun r => is_Some (peers d !! r)) (_supported_peers sup) ->
  NoDup (map (fun r => peer_key <$> peers d !! r) (_supported_peers sup)) ->
  exists d',
    update_supported_peer_list s d = Ok tt d' /\
    get_supported_peers d' s =
      List.filter (fun p => negb (peer_state_is d DefaultState p)) (_supported_peers sup) /\
    (forall p, p ∈ _supported_peers sup -> peer_state_is d DefaultState p = true ->
               (_updated <$> supporters d' !! s) = Some true) /\
    (forall s', s' <> s -> supporters d' !! s' = supporters d !! s') /\
    peers d' = peers d /\
    _monitored_peers d' = _monitored_peers d /\
    _active_supporters d' = _active_supporters d.
Proof.
  intros Hsup Hvalid Hnodup.
  assert (HnodupL : NoDup (_supported_peers sup)).
  { by apply (NoDup_fmap_1 (fun r => peer_key <$> peers d !! r)). }
  destruct (update_supported_peer_list_loop s
              (List.filter (peer_state_is d DefaultState) (_supported_peers sup)) d sup Hsup)
    as (supporters' & Hrun & Hother & sup' & Hsup' & Hroster & Hflag & _); [| |done|done|].
  { eapply sublist_NoDup; [exact HnodupL|apply sublist_List_filter]. }
  { intros x Hx. apply list_elem_of_In, filter_In in Hx as [Hx _]. by apply list_elem_of_In. }
  eexists. split.
  { unfold update_supported_peer_list, bind at 1, get at 1.
    unfold get_supported_peers. rewrite Hsup. exact Hrun. }
  split; [|split; [|done]].
  - unfold get_supported_peers. simpl. rewrite Hsup', Hroster.
    apply filter_ext_in. intros r Hr. f_equal.
    destruct (peer_state_is d DefaultState r) eqn:Hdefault.
    + apply bool_decide_eq_true. apply list_elem_of_In, filter_In. by split.
    + apply bool_decide_eq_false. intros Hin.
      apply list_elem_of_In, filter_In in Hin as [_ Hin]. congruence.
  - intros p Hp Hdefault. simpl. rewrite Hsup'. simpl. f_equal. apply Hflag.
    intros Hnil. assert (Hin : In p (List.filter (peer_state_is d DefaultState)
                                      (_supported_peers sup))).
    { apply filter_In. split; [by apply list_elem_of_In|done]. }
    by rewrite Hnil in Hin.
Qed.

Lemma X28_update_supported_peer_list_witness :
  let d := final_state (on_peer 1%nat (modify (set_state DefaultState))
             (run all_answer (scenario_min_max_together ++ [Tick 2000]) initial_monitor)) in
  exists d', update_supported_peer_list 1%nat d = Ok tt d' /\
             get_supported_peers d' 1%nat = [0%nat; 2%nat].
Proof.
  intros d.
  destruct (X28_update_supported_peer_list 1%nat d
              (mkMonitoredSupporter "2" ("192.168.2.11", 5001) 1 3
                 [0%nat; 1%nat; 2%nat] false))
    as (d' & Hrun & Hroster & _).
  - vm_compute. reflexivity.
  - repeat (apply Forall_cons; split; [vm_compute; by eexists|]). apply Forall_nil_2.
  - vm_compute.
    repeat (apply NoDup_cons; split;
            [intros Hin;
             repeat (apply elem_of_cons in Hin as [Hin|Hin]; [discriminate Hin|]);
             by apply elem_of_nil in Hin|]).
    apply NoDup_nil_2.
  - exists d'. split; [exact Hrun|]. rewrite Hroster. vm_compute. reflexivity.
Defined.

(** *** The update of the registered peers *)

Lemma set_peers_same d : set_peers (peers d) d = d.
Proof. by destruct d. Qed.

(** One method [f] called on every peer of a list without repetitions. *)
Lemma for_each_on_peer (f : M MonitoredPeer unit) (l : list ref) : forall d,
  NoDup l ->
  (forall r q, r ∈ l -> peers d !! r = Some q -> exists q', f q = Ok tt q') ->
  exists peers',
    for_each l (fun mp => on_peer mp f) d = Ok tt (set_peers peers' d) /\
    (forall r q, r ∈ l -> peers d !! r = Some q -> peers' !! r = Some (final_state (f q))) /\
    (forall r, r ∉ l -> peers' !! r = peers d !! r).
Proof.
  induction l as [|r0 l IH]; intros d Hnodup Hreturns.
  - exists (peers d). split; [|split; [|done]].
    + simpl. unfold ret. by rewrite set_peers_same.
    + intros r q Hr. by apply elem_of_nil in Hr.
  - apply NoDup_cons in Hnodup as [Hr0 Hnodup].
    cbn [for_each]. unfold bind at 1. unfold on_peer at 1.
    destruct (peers d !! r0) as [q0|] eqn:Hq0.
    + destruct (Hreturns r0 q0) as [q0' Hf]; [by left|done|]. rewrite Hf.
      assert (Hother : forall r, r <> r0 -> <[r0 := q0']> (peers d) !! r = peers d !! r).
      { intros r Hne. unfold ref in *. by apply list_lookup_insert_ne. }
      destruct (IH (set_peers (<[r0 := q0']> (peers d)) d) Hnodup)
        as (peers' & Hrun & Hin & Hout).
      { intros r q Hr Hq. simpl in Hq. rewrite Hother in Hq by (by intros ->).
        apply (Hreturns r q); [by right|done]. }
      exists peers'. split; [exact Hrun|]. split.
      * intros r q Hr Hq. apply elem_of_cons in Hr as [->|Hr].
        -- rewrite (Hout r0 Hr0). simpl. unfold ref in *.
           rewrite list_lookup_insert_eq by (apply lookup_lt_is_Some; by eexists).
           rewrite Hq0 in Hq. injection Hq as <-. by rewrite Hf.
        -- apply Hin; [done|]. simpl. rewrite Hother by (by intros ->). done.
      * intros r Hr. rewrite Hout by (intros ?; apply Hr; by right).
        simpl. apply Hother. intros ->. apply Hr. by left.
    + destruct (IH d Hnodup) as (peers' & Hrun & Hin & Hout).
      { intros r q Hr. apply Hreturns. by right. }
      exists peers'. split; [exact Hrun|]. split.
      * intros r q Hr Hq. apply elem_of_cons in Hr as [->|Hr].
        -- unfold ref in *. congruence.
        -- by apply Hin.
      * intros r Hr. apply Hout. intros ?. apply Hr. by right.
Qed.

(** X29. The peer phase of an update, on a registry that names no peer twice
    and whose peers have a request timestamp whenever their last message is
    SUPPORT_REQUIRED: it returns; a registered peer whose last request is
    more than 10 s old is put to Default whatever its state, and nothing else
    of it changes; every other registered peer takes one transition step;
    peers that are not registered, supporters, rosters and registries are
    left as they are. *)
Theorem X29_enforce_update_of_monitored_peers (now : Z) (d : SupporterMonitor) :
  NoDup (_monitored_peers d) ->
  (forall r q, r ∈ _monitored_peers d -> peers d !! r = Some q ->
     _last_received_msg q <> Some MSG_SUPPORT_REQUIRED \/ is_Some (get_ts_last_request q)) ->
  exists peers',
    _enforce_update_of_monitored_peers now d = Ok tt (set_peers peers' d) /\
    (forall r q, r ∈ _monitored_peers d -> peers d !! r = Some q ->
       request_older_than_10s now q = true ->
       peers' !! r = Some (set_state DefaultState q)) /\
    (forall r q, r ∈ _monitored_peers d -> peers d !! r = Some q ->
       request_older_than_10s now q = false ->
       exists q', transition now q = Ok tt q' /\ peers' !! r = Some q') /\
    (forall r, r ∉ _monitored_peers d -> peers' !! r = peers d !! r).
Proof.
  intros Hnodup Hwindow.
  destruct (for_each_on_peer
              (m ← get;
               if request_older_than_10s now m
               then modify (set_state DefaultState)
               else transition now) (_monitored_peers d) d Hnodup)
    as (peers' & Hrun & Hin & Hout).
  { intros r q Hr Hq. unfold bind, get.
    destruct (request_older_than_10s now q); [by eexists|].
    apply transition_returns. by apply (Hwindow r). }
  exists peers'. split; [exact Hrun|]. split; [|split; [|done]].
  - intros r q Hr Hq Hold. rewrite (Hin r q Hr Hq). unfold bind, get. by rewrite Hold.
  - intros r q Hr Hq Hrecent. rewrite (Hin r q Hr Hq). unfold bind, get. rewrite Hrecent.
    destruct (transition_returns now q (Hwindow r q Hr Hq)) as [q' Hq'].
    exists q'. by rewrite Hq'.
Qed.

Lemma X29_enforce_update_of_monitored_peers_witness :
  let d := run all_answer (scenario_min_max_together ++ [Tick 2000]) initial_monitor in
  exists peers',
    _enforce_update_of_monitored_peers 11001 d = Ok tt (set_peers peers' d) /\
    (_state <$> peers d !! 0%nat) = Some SupportedState /\
    (_state <$> peers' !! 0%nat) = Some DefaultState.
Proof.
  intros d.
  destruct (X29_enforce_update_of_monitored_peers 11001 d) as (peers' & Hrun & Hold & _).
  - vm_compute.
    repeat (apply NoDup_cons; split;
            [intros Hin;
             repeat (apply elem_of_cons in Hin as [Hin|Hin]; [discriminate Hin|]);
             by apply elem_of_nil in Hin|]).
    apply NoDup_nil_2.
  - intros r q Hr Hq. left. vm_compute in Hr.
    apply elem_of_cons in Hr as [->|Hr]; [vm_compute in Hq; injection Hq as <-; discriminate|].
    apply elem_of_cons in Hr as [->|Hr]; [vm_compute in Hq; injection Hq as <-; discriminate|].
    apply list_elem_of_singleton in Hr as ->.
    vm_compute in Hq. injection Hq as <-. discriminate.
  - exists peers'. split; [exact Hrun|]. split; [vm_compute; reflexivity|].
    assert (Hfront : peers' !! 0%nat =
              Some (set_state DefaultState
                      (mkMonitoredPeer (Some MSG_PEER_SUPPORTED) (Some 2000) 10000 5000
                         SupportedState None [1000; 1000; 1000; 1000] 4
                         "XXX---34920F" "192.168.2.50" 10000 1))).
    { apply Hold; [vm_compute; by left|vm_compute; reflexivity|reflexivity]. }
    rewrite Hfront. reflexivity.
Defined.
